(** * Asset-optimization cache of expo-cli (packages/xdl/src/AssetUtils.ts)

    A shallow embedding of the asset selector, the optimization-state store
    and the dirty check of [AssetUtils.ts], with the properties its
    specification states about them.

    JavaScript strings are modelled as Rocq strings (sequences of 8-bit
    characters); the file system is a finite map from path strings to
    nodes; [async] functions that touch the file system thread it
    explicitly and return either a value or the thrown error. *)

From Stdlib Require Import Ascii String ZArith.
From stdpp Require Import strings gmap.

Local Open Scope stdpp_scope.

(** ** JavaScript string primitives used by the source *)

Module JsString.

(** [s.slice(n)] for [0 <= n]. *)
Fixpoint slice_from (n : nat) (s : string) : string :=
  match n, s with
  | O, _ => s
  | S _, EmptyString => EmptyString
  | S n', String _ s' => slice_from n' s'
  end.

(** [s.startsWith(p)]. *)
Fixpoint startsWith (p s : string) : bool :=
  match p, s with
  | EmptyString, _ => true
  | String _ _, EmptyString => false
  | String a p', String b s' => if bool_decide (a = b) then startsWith p' s' else false
  end.

(** [s.replace(pat, rep)] with a string pattern: only the first
    occurrence of [pat] is replaced. *)
Fixpoint replace (pat rep s : string) : string :=
  if startsWith pat s then rep +:+ slice_from (String.length pat) s
  else match s with
       | EmptyString => EmptyString
       | String c s' => String c (replace pat rep s')
       end.

Definition lower_char (c : ascii) : ascii :=
  let n := nat_of_ascii c in
  if (65 <=? n)%nat && (n <=? 90)%nat then ascii_of_nat (n + 32) else c.

(** [s.toLowerCase()] on the ASCII letters. *)
Fixpoint toLowerCase (s : string) : string :=
  match s with
  | EmptyString => EmptyString
  | String c s' => String (lower_char c) (toLowerCase s')
  end.

(** JavaScript truthiness of an optional string property: [undefined]
    and the empty string are falsy. *)
Definition truthy (o : option string) : bool :=
  match o with
  | Some s => negb (bool_decide (s = ""))
  | None => false
  end.

(** [s.includes(p)]. *)
Fixpoint includes (p s : string) : bool :=
  startsWith p s ||
  match s with
  | EmptyString => false
  | String _ s' => includes p s'
  end.

End JsString.

(** ** Errors and results *)

Inductive JsError : Type :=
  | ConfigError (projectDir : string)
  | ENOENT (path : string)
  | ENOTDIR (path : string)
  | EISDIR (path : string)
  | EEXIST (path : string)
  | JsonFileError (path : string)
  | Error (message : string).

Inductive Result (A : Type) : Type :=
  | Ok (a : A)
  | Throw (e : JsError).
Arguments Ok {A} a.
Arguments Throw {A} e.

(** Sequencing of calls that may throw: the first error ends the run. *)
Definition result_bind {A B : Type} (r : Result A) (k : A -> Result B) : Result B :=
  match r with
  | Ok a => k a
  | Throw e => Throw e
  end.

#[global] Instance result_mret : MRet Result := @Ok.
#[global] Instance result_mbind : MBind Result := fun A B k r => result_bind r k.

(** ** Data model of AssetUtils.ts *)

(** [type OptimizationOptions]; [quality] is never inspected by the
    functions modelled here. *)
Record OptimizationOptions : Type := {
  quality : Z;
  include : option string;
  exclude : option string;
  save : option bool
}.

(** [type AssetOptimizationState = { [hash: string]: boolean }]. *)
Abbreviation AssetOptimizationState := (gmap string bool).

(** The options object handed to [glob.sync]. *)
Record GlobOptions : Type := {
  cwd : string;
  ignore : list string
}.

(** The part of [exp] the source reads from the project configuration. *)
Record ExpConfig : Type := {
  assetBundlePatterns : option (list string)
}.

(** The return value of [getAssetFilesAsync]. *)
Record AssetFiles : Type := {
  allFiles : list string;
  selectedFiles : list string
}.

(** The external collaborators of the module: the project-configuration
    reader ([@expo/config]), the matcher of [glob] (the [found] list that a
    [GlobSync] run over a pattern ends with, in a project directory that it
    can read), the SHA-256 digest ([crypto]) and the JSON codec used by the
    document helper. *)
Record Env : Type := {
  readConfigJsonAsync : string -> Result ExpConfig;
  GlobSync_found : string -> GlobOptions -> list string;
  sha256_hex : string -> string;
  json_parse : string -> option AssetOptimizationState;
  json_stringify : AssetOptimizationState -> string
}.

(** [glob.sync(pattern, options)], that is [new GlobSync(pattern,
    options).found]: the constructor throws ['must provide pattern'] when
    the pattern is falsy, which for a string is the empty string; for any
    other pattern the call returns what the matcher found. *)
Definition glob_sync (env : Env) (pattern : string) (options : GlobOptions)
  : Result (list string) :=
  if bool_decide (pattern = "") then Throw (Error "must provide pattern")
  else Ok (GlobSync_found env pattern options).

(** ** Node's POSIX [path] module, as far as the source calls it

    [path.join], [path.normalize] and [path.parse] follow the behaviour of
    Node's [path.posix]: segments are separated by ["/"], [normalize]
    resolves ["."], [".."] and empty segments on a stack of segments, and
    [parse] scans the path from its end. *)

Module NodePath.

(** [s.split('/')] *)
Fixpoint split_slash (s : string) : list string :=
  match s with
  | EmptyString => [EmptyString]
  | String c s' =>
      if bool_decide (c = "/"%char) then EmptyString :: split_slash s'
      else match split_slash s' with
           | seg :: rest => String c seg :: rest
           | [] => [String c EmptyString]
           end
  end.

(** [segments.join('/')] *)
Fixpoint join_slash (segs : list string) : string :=
  match segs with
  | [] => EmptyString
  | [seg] => seg
  | seg :: rest => seg +:+ "/" +:+ join_slash rest
  end.

(** One separator-delimited segment seen by [normalizeString]; [stack]
    holds the segments of [res], the last one first. *)
Definition normalize_step (allowAboveRoot : bool) (stack : list string) (seg : string)
  : list string :=
  if bool_decide (seg = "") || bool_decide (seg = ".") then stack
  else if bool_decide (seg = "..") then
    match stack with
    | top :: rest =>
        if bool_decide (top = "..")
        then (if allowAboveRoot then ".." :: stack else stack)
        else rest
    | [] => if allowAboveRoot then [".."] else []
    end
  else seg :: stack.

Definition normalizeString (path : string) (allowAboveRoot : bool) : string :=
  join_slash (rev (fold_left (normalize_step allowAboveRoot) (split_slash path) [])).

Definition isAbsolute (path : string) : bool :=
  match path with
  | String "/" _ => true
  | _ => false
  end.

Fixpoint endsWithSlash (path : string) : bool :=
  match path with
  | EmptyString => false
  | String c EmptyString => bool_decide (c = "/"%char)
  | String _ s' => endsWithSlash s'
  end.

Definition normalize (path : string) : string :=
  if bool_decide (path = "") then "."
  else
    let isAbsolute := isAbsolute path in
    let trailingSeparator := endsWithSlash path in
    let path := normalizeString path (negb isAbsolute) in
    if bool_decide (path = "") then
      (if isAbsolute then "/" else if trailingSeparator then "./" else ".")
    else
      let path := if trailingSeparator then path +:+ "/" else path in
      if isAbsolute then "/" +:+ path else path.

(** [path.join(...args)] *)
Definition join (args : list string) : string :=
  match List.filter (fun arg => negb (bool_decide (arg = ""))) args with
  | [] => "."
  | joined => normalize (join_slash joined)
  end.

Record ParsedPath : Type := {
  root : string;
  dir : string;
  base : string;
  ext : string;
  name : string
}.

(** The longest prefix of [l] free of [c], and the rest of [l]. *)
Fixpoint span_until (c : ascii) (l : list ascii) : list ascii * list ascii :=
  match l with
  | [] => ([], [])
  | x :: l' =>
      if bool_decide (x = c) then ([], l)
      else let '(pre, post) := span_until c l' in (x :: pre, post)
  end.

Fixpoint drop_slashes (l : list ascii) : list ascii :=
  match l with
  | x :: l' => if bool_decide (x = "/"%char) then drop_slashes l' else l
  | [] => []
  end.

(** Name and extension of the reversed base name [base_rev].
    [dotdotGuard] is Node's test [startDot === startPart + 1], which can
    only hold when the base name does not start at index 1 of an absolute
    path without further separators. *)
Definition split_ext (dotdotGuard : bool) (base_rev : list ascii)
  : list ascii * list ascii :=
  match span_until "." base_rev with
  | (_, []) => (rev base_rev, [])
  | (ext_rev, _ :: name_rev) =>
      match name_rev with
      | [] => (rev base_rev, [])
      | _ =>
          if dotdotGuard && bool_decide (name_rev = ["."%char]) && bool_decide (ext_rev = [])
          then (rev base_rev, [])
          else (rev name_rev, "."%char :: rev ext_rev)
      end
  end.

(** [path.parse(path)] *)
Definition parse (path : string) : ParsedPath :=
  let chars := list_ascii_of_string path in
  match chars with
  | [] => {| root := ""; dir := ""; base := ""; ext := ""; name := "" |}
  | first :: others =>
      let isAbsolute := bool_decide (first = "/"%char) in
      let root := if isAbsolute then "/" else "" in
      let scanned := if isAbsolute then others else chars in
      match drop_slashes (rev scanned) with
      | [] => {| root := root; dir := root; base := ""; ext := ""; name := "" |}
      | trimmed =>
          let '(base_rev, before) := span_until "/" trimmed in
          let dir :=
            match before with
            | [] => root
            | _ :: dir_rev => root +:+ string_of_list_ascii (rev dir_rev)
            end in
          let dotdotGuard := negb (isAbsolute && bool_decide (before = [])) in
          let '(name, ext) := split_ext dotdotGuard base_rev in
          {| root := root; dir := dir;
             base := string_of_list_ascii (rev base_rev);
             ext := string_of_list_ascii ext;
             name := string_of_list_ascii name |}
      end
  end.

End NodePath.

(** ** The file system and the [async] functions over it *)

Inductive FsNode : Type :=
  | File (contents : string)
  | Directory.

(** The state the functions act on: the file system, keyed by the path
    handed to the [fs] call (every path that names a file or a directory
    has an entry, the root and the project directory included), and the
    lines logged through [logger.global.info]. *)
Record World : Type := {
  files : gmap string FsNode;
  logged : list string
}.

(** A computation that may read and change the world and either returns
    or throws. *)
Definition Async (A : Type) : Type := World -> Result A * World.

Definition async_ret {A : Type} (a : A) : Async A := fun w => (Ok a, w).

Definition async_throw {A : Type} (e : JsError) : Async A := fun w => (Throw e, w).

Definition async_bind {A B : Type} (m : Async A) (k : A -> Async B) : Async B :=
  fun w =>
    match m w with
    | (Ok a, w') => k a w'
    | (Throw e, w') => (Throw e, w')
    end.

Definition async_lift {A : Type} (r : Result A) : Async A := fun w => (r, w).

#[global] Instance async_mret : MRet Async := @async_ret.
#[global] Instance async_mbind : MBind Async := fun A B k m => async_bind m k.

Module Fs.

(** The directory that holds the last segment of [path]: the path up to
    the separator before that segment, trailing separators apart (what
    [path.dirname] gives). *)
Definition parentOf (path : string) : string :=
  match list_ascii_of_string path with
  | [] => "."
  | first :: others =>
      let hasRoot := bool_decide (first = "/"%char) in
      let '(_, before) :=
        NodePath.span_until "/" (NodePath.drop_slashes (rev others)) in
      match before with
      | [] => if hasRoot then "/" else "."
      | _ :: dir_rev =>
          if hasRoot && bool_decide (dir_rev = []) then "//"
          else string_of_list_ascii (first :: rev dir_rev)
      end
  end.

(** Why an entry cannot be made at [path], if so: the directory that is to
    hold it is missing ([ENOENT]) or is a regular file ([ENOTDIR]). *)
Definition parentError (path : string) (w : World) : option JsError :=
  match files w !! parentOf path with
  | Some Directory => None
  | Some (File _) => Some (ENOTDIR path)
  | None => Some (ENOENT path)
  end.

Definition existsSync (path : string) : Async bool :=
  fun w => (Ok (bool_decide (is_Some (files w !! path))), w).

Definition readFileSync (path : string) : Async string :=
  fun w =>
    match files w !! path with
    | Some (File contents) => (Ok contents, w)
    | Some Directory => (Throw (EISDIR path), w)
    | None => (Throw (ENOENT path), w)
    end.

(** [fs.mkdirSync(path)], not recursive: the parent has to be a
    directory and the path must not exist. *)
Definition mkdirSync (path : string) : Async unit :=
  fun w =>
    match parentError path w with
    | Some e => (Throw e, w)
    | None =>
        match files w !! path with
        | Some _ => (Throw (EEXIST path), w)
        | None =>
            (Ok tt, {| files := <[path := Directory]> (files w); logged := logged w |})
        end
    end.

(** Writing a file: the parent has to be a directory and the path must not
    be one. *)
Definition writeFile (path contents : string) : Async unit :=
  fun w =>
    match parentError path w with
    | Some e => (Throw e, w)
    | None =>
        match files w !! path with
        | Some Directory => (Throw (EISDIR path), w)
        | _ =>
            (Ok tt, {| files := <[path := File contents]> (files w); logged := logged w |})
        end
    end.

End Fs.

Definition logger_info (message : string) : Async unit :=
  fun w => (Ok tt, {| files := files w; logged := logged w ++ [message] |}).

(** Modelled from the spec: the [JsonFile] document helper of
    [@expo/json-file] (packages/json-file of this repository) is not among
    the sources. The spec treats it as a key-value document store: [save]
    overwrites the document, [load] returns the parsed document and fails
    when the document cannot be read or cannot be parsed as valid
    structured data. *)
Module JsonFile.

(** Modelled from the spec: the handle of a document, the path it persists
    to. *)
Record t : Type := { file : string }.

(** Modelled from the spec: [save] overwrites the document with the
    serialized record. *)
Definition writeAsync (env : Env) (self : t) (object : AssetOptimizationState)
  : Async unit :=
  Fs.writeFile (file self) (json_stringify env object).

(** Modelled from the spec: [load] reads the document and fails when it is
    missing or cannot be parsed as valid structured data. *)
Definition readAsync (env : Env) (self : t) : Async AssetOptimizationState :=
  contents ← Fs.readFileSync (file self);
  match json_parse env contents with
  | Some object => mret object
  | None => async_throw (JsonFileError (file self))
  end.

End JsonFile.

(** ** AssetUtils.ts *)

Module AssetUtils.
Import JsString.

(** [/\.(png|jpg|jpeg)$/] anchored at the start of [s]: the whole of [s]
    is a dot followed by one of the three alternatives. *)
Definition image_regex_here (s : string) : bool :=
  match s with
  | String "." ext =>
      bool_decide (ext = "png") || bool_decide (ext = "jpg") || bool_decide (ext = "jpeg")
  | _ => false
  end.

(** [regex.test(s)] for [regex = /\.(png|jpg|jpeg)$/]: the match may start
    at any position and has to reach the end of [s]. *)
Fixpoint image_regex_test (s : string) : bool :=
  image_regex_here s ||
  match s with
  | EmptyString => false
  | String _ s' => image_regex_test s'
  end.

(** [`${projectDir}/${file}`.replace('//', '/')] *)
Definition withDirectory (projectDir file : string) : string :=
  replace "//" "/" (projectDir +:+ "/" +:+ file).

Definition filterImages (files : list string) (projectDir : string) : list string :=
  let withDirectory := map (withDirectory projectDir) files in
  let allImages := List.filter (fun file => image_regex_test (toLowerCase file)) withDirectory in
  allImages.

Definition globOptions (projectDir : string) : GlobOptions :=
  {| cwd := projectDir;
     ignore := ["**/node_modules/**"; "**/ios/**"; "**/android/**"] |}.

(** [options && options.include] and [options && options.exclude]. *)
Definition options_include (options : option OptimizationOptions) : option string :=
  match options with Some o => include o | None => None end.
Definition options_exclude (options : option OptimizationOptions) : option string :=
  match options with Some o => exclude o | None => None end.

(** The [patterns.forEach] loop filling [allFiles]: the matches of each
    pattern in turn; a call of [glob.sync] that throws ends the loop. *)
Fixpoint expandPatterns (env : Env) (projectDir : string) (patterns : list string)
  : Result (list string) :=
  match patterns with
  | [] => Ok []
  | pattern :: rest =>
      found ← glob_sync env pattern (globOptions projectDir);
      later ← expandPatterns env projectDir rest;
      Ok (found ++ later)
  end.

Definition patternsOf (exp : ExpConfig) : list string :=
  match assetBundlePatterns exp with
  | Some ps => ps
  | None => ["**/*"]
  end.

(** The local [included]. *)
Definition included (env : Env) (projectDir : string)
    (options : option OptimizationOptions) (allFiles : list string)
  : Result (list string) :=
  match options_include options with
  | Some pattern =>
      if truthy (Some pattern) then glob_sync env pattern (globOptions projectDir)
      else Ok allFiles
  | None => Ok allFiles
  end.

(** The local [toExclude], a [Set]. *)
Definition toExclude (env : Env) (projectDir : string)
    (options : option OptimizationOptions) : Result (gset string) :=
  match options_exclude options with
  | Some pattern =>
      if truthy (Some pattern)
      then found ← glob_sync env pattern (globOptions projectDir);
           Ok (foldl (fun acc file => acc ∪ {[ file ]}) ∅ found)
      else Ok ∅
  | None => Ok ∅
  end.

(** The local [excluded]. *)
Definition excluded (toExclude : gset string) (included : list string) : list string :=
  List.filter (fun file => negb (bool_decide (file ∈ toExclude))) included.

(** The local [filtered]. *)
Definition filtered (options : option OptimizationOptions)
    (excluded included : list string) : list string :=
  if truthy (options_exclude options) then excluded else included.

Definition getAssetFilesAsync (env : Env) (projectDir : string)
    (options : option OptimizationOptions) : Result AssetFiles :=
  exp ← readConfigJsonAsync env projectDir;
  allFiles ← expandPatterns env projectDir (patternsOf exp);
  included ← included env projectDir options allFiles;
  toExclude ← toExclude env projectDir options;
  let excluded := excluded toExclude included in
  let filtered := filtered options excluded included in
  Ok {| allFiles := filterImages allFiles projectDir;
        selectedFiles := filterImages filtered projectDir |}.

Definition calculateHash (env : Env) (filePath : string) : Async string :=
  contents ← Fs.readFileSync filePath;
  mret (sha256_hex env contents).

Definition newline : string := String "010"%char "".

(** The notice logged on creation, without the terminal styling. *)
Definition creating_message : string :=
  "Creating .expo-shared/assets.json in the project's root directory." +:+ newline +:+
  "This file is autogenerated and should not be edited directly." +:+ newline +:+
  "You should commit this to git so that asset state is shared between collaborators.".

Definition readAssetJsonAsync (env : Env) (projectDir : string)
  : Async (JsonFile.t * AssetOptimizationState) :=
  let dirPath := NodePath.join [projectDir; ".expo-shared"] in
  dirExists ← Fs.existsSync dirPath;
  (if negb dirExists then Fs.mkdirSync dirPath else mret tt);;
  let assetJson := {| JsonFile.file := NodePath.join [dirPath; "assets.json"] |} in
  fileExists ← Fs.existsSync (JsonFile.file assetJson);
  (if negb fileExists
   then logger_info creating_message;; JsonFile.writeAsync env assetJson ∅
   else mret tt);;
  assetInfo ← JsonFile.readAsync env assetJson;
  mret (assetJson, assetInfo).

(** [!assetInfo[hash]] *)
Definition notRecorded (assetInfo : AssetOptimizationState) (hash : string) : bool :=
  match assetInfo !! hash with
  | Some true => false
  | Some false => true
  | None => true
  end.

(** The [for (const file of selectedFiles)] loop with its early
    [return true], followed by [return false]. *)
Fixpoint scanSelected (env : Env) (assetInfo : AssetOptimizationState)
    (selectedFiles : list string) : Async bool :=
  match selectedFiles with
  | [] => mret false
  | file :: rest =>
      hash ← calculateHash env file;
      if notRecorded assetInfo hash then mret true
      else scanSelected env assetInfo rest
  end.

Definition hasUnoptimizedAssetsAsync (env : Env) (projectDir : string)
    (options : option OptimizationOptions) : Async bool :=
  manifestExists ←
    Fs.existsSync (NodePath.join [projectDir; ".expo-shared/assets.json"]);
  if negb manifestExists then mret true
  else
    assetFiles ← async_lift (getAssetFilesAsync env projectDir options);
    loaded ← readAssetJsonAsync env projectDir;
    scanSelected env (snd loaded) (selectedFiles assetFiles).

Definition createNewFilename (imagePath : string) : string :=
  let parsed := NodePath.parse imagePath in
  NodePath.join [NodePath.dir parsed;
                 NodePath.name parsed +:+ ".orig" +:+ NodePath.ext parsed].

End AssetUtils.

(** ** Definitions used to state the properties *)

(** The value of a result under [f], an error as it is. *)
Definition result_map {A B : Type} (f : A -> B) (r : Result A) : Result B :=
  match r with
  | Ok a => Ok (f a)
  | Throw e => Throw e
  end.

(** The supported image types of the specification. *)
Definition image_extensions : list string := [".png"; ".jpg"; ".jpeg"].

(** A path has a supported image extension when it ends in one of them,
    compared case-insensitively. *)
Definition has_image_extension (path : string) : Prop :=
  exists stem extension,
    path = stem +:+ extension /\ JsString.toLowerCase extension ∈ image_extensions.

(** A relative path as [glob.sync] reports it: it does not start with a
    separator and holds no doubled separator. *)
Definition relative_match (file : string) : Prop :=
  JsString.startsWith "/" file = false /\ JsString.includes "//" file = false.

(** [s] ends with the character [c]. *)
Definition last_char_is (c : ascii) (s : string) : Prop :=
  exists front, s = front +:+ String c "".

(** The variant of [getAssetFilesAsync] the specification's open question
    compares the source with: the exclusion filter is applied
    unconditionally. *)
Definition getAssetFilesAsync_alwaysFiltered (env : Env) (projectDir : string)
    (options : option OptimizationOptions) : Result AssetFiles :=
  exp ← readConfigJsonAsync env projectDir;
  allFiles ← AssetUtils.expandPatterns env projectDir (AssetUtils.patternsOf exp);
  included ← AssetUtils.included env projectDir options allFiles;
  toExclude ← AssetUtils.toExclude env projectDir options;
  let excluded := AssetUtils.excluded toExclude included in
  Ok {| allFiles := AssetUtils.filterImages allFiles projectDir;
        selectedFiles := AssetUtils.filterImages excluded projectDir |}.

(** The digest of a file in a given world, when it can be read. *)
Definition digestOf (env : Env) (w : World) (file : string) : Result string :=
  fst (AssetUtils.calculateHash env file w).

(** [s] holds no separator. *)
Fixpoint no_slash (s : string) : bool :=
  match s with
  | EmptyString => true
  | String c s' => negb (bool_decide (c = "/"%char)) && no_slash s'
  end.

(** A path segment that [path.normalize] keeps as it is. *)
Definition plain_segment (seg : string) : Prop :=
  no_slash seg = true /\ seg <> "" /\ seg <> "." /\ seg <> "..".

(** The shape of the segment stack of [normalizeString]: plain segments
    above the [".."] segments kept at the bottom of a relative path. *)
Fixpoint stack_ok (allowAboveRoot : bool) (stack : list string) : Prop :=
  match stack with
  | [] => True
  | top :: rest =>
      (plain_segment top /\ stack_ok allowAboveRoot rest) \/
      (top = ".." /\ allowAboveRoot = true /\ Forall (fun seg => seg = "..") rest)
  end.

(** The text [join_slash] puts before a segment appended to [segs]. *)
Definition joined_front (segs : list string) : string :=
  match segs with
  | [] => ""
  | _ => NodePath.join_slash segs +:+ "/"
  end.

(** The prefix [path.join] puts before a plain segment joined to [dir]:
    the normalized directory followed by a separator, or nothing. *)
Definition join_prefix (dir : string) : string :=
  if bool_decide (dir = "") then ""
  else
    (if NodePath.isAbsolute dir then "/" else "") +:+
    joined_front (rev (fold_left (NodePath.normalize_step (negb (NodePath.isAbsolute dir)))
                                 (NodePath.split_slash dir) [])).

(** ** A small project used to exercise the definitions *)

Module Fixture.

(** A wildcard matcher for the patterns of the examples: ["*"] stands for
    any run of characters other than the separator. *)
Fixpoint wild_match (pattern : string) : string -> bool :=
  match pattern with
  | EmptyString => fun s => bool_decide (s = "")
  | String "*" pattern' =>
      fix star (s : string) : bool :=
        wild_match pattern' s ||
        match s with
        | EmptyString => false
        | String c s' => negb (bool_decide (c = "/"%char)) && star s'
        end
  | String a pattern' =>
      fun s =>
        match s with
        | EmptyString => false
        | String b s' => bool_decide (a = b) && wild_match pattern' s'
        end
  end.

(** What the matcher finds for a pattern in a flat project directory
    holding [present]. *)
Definition project_found (present : list string) (pattern : string) (_ : GlobOptions)
  : list string :=
  if bool_decide (pattern = "**/*") then present
  else List.filter (wild_match pattern) present.

(** A stand-in for the digest: injective and readable. *)
Definition toy_digest (contents : string) : string := "sha256-of-" +:+ contents.

(** A three-document codec: ["{}"], ["+h"] for [{h: true}] and ["-h"] for
    [{h: false}]; every other document is corrupt. *)
Definition toy_parse (document : string) : option AssetOptimizationState :=
  match document with
  | "{}" => Some ∅
  | String "+" hash => Some {[ hash := true ]}
  | String "-" hash => Some {[ hash := false ]}
  | _ => None
  end.

Definition env (present : list string) (patterns : option (list string)) : Env :=
  {| readConfigJsonAsync := fun _ => Ok {| assetBundlePatterns := patterns |};
     GlobSync_found := project_found present;
     sha256_hex := toy_digest;
     json_parse := toy_parse;
     json_stringify := fun _ => "{}" |}.

Definition three_images : list string := ["a.png"; "b.png"; "c.jpg"].

Definition options (include exclude : option string) : option OptimizationOptions :=
  Some {| quality := 80; include := include; exclude := exclude; save := None |}.

(** A project at [/proj] with one image and a manifest document. *)
Definition world (manifest : string) : World :=
  {| files :=
       {[ "/" := Directory;
          "/proj" := Directory;
          "/proj/.expo-shared" := Directory;
          "/proj/.expo-shared/assets.json" := File manifest;
          "/proj/a.png" := File "PNG-A" ]};
     logged := [] |}.

(** The same project before any optimization run. *)
Definition fresh_world : World :=
  {| files := {[ "/" := Directory; "/proj" := Directory; "/proj/a.png" := File "PNG-A" ]};
     logged := [] |}.

End Fixture.

(** ** The image optimizer of AssetUtils.ts and what it calls *)

(** [path.basename(path)] of Node's POSIX [path] module: the last segment
    of the path, trailing separators apart. *)
Definition basename (path : string) : string :=
  match NodePath.drop_slashes (rev (list_ascii_of_string path)) with
  | [] => ""
  | trimmed =>
      let '(base_rev, _) := NodePath.span_until "/" trimmed in
      string_of_list_ascii (rev base_rev)
  end.

Module ImageOptimizer.

(** The options object handed to [sharpAsync]. *)
Record SharpOptions : Type := {
  input : string;
  output : string;
  quality : Z
}.

(** The two collaborators of [optimizeImageAsync]: [temporary.directory]
    of [tempy], which makes a fresh directory and returns its path, and
    [sharpAsync] of [@expo/image-utils], which writes the re-encoded image
    into the output directory. Both are taken as they come. *)
Record ImageTools : Type := {
  temporary_directory : Async string;
  sharpAsync : SharpOptions -> Async unit
}.

Definition optimizeImageAsync (tools : ImageTools) (inputPath : string) (quality : Z)
  : Async string :=
  logger_info ("Optimizing " +:+ inputPath);;
  outputPath ← temporary_directory tools;
  sharpAsync tools {| input := inputPath; output := outputPath; quality := quality |};;
  mret (NodePath.join [outputPath; basename inputPath]).

End ImageOptimizer.

(** A recompression that only notes the file it was given, into a fixed
    output directory. *)
Definition noting_tools (directory : string) : ImageOptimizer.ImageTools :=
  {| ImageOptimizer.temporary_directory := fun w => (Ok directory, w);
     ImageOptimizer.sharpAsync :=
       fun options => logger_info ("sharp " +:+ ImageOptimizer.input options) |}.

(** A project whose configuration cannot be read. *)
Definition unconfigured_env (present : list string) : Env :=
  {| readConfigJsonAsync := fun projectDir => Throw (ConfigError projectDir);
     GlobSync_found := Fixture.project_found present;
     sha256_hex := Fixture.toy_digest;
     json_parse := Fixture.toy_parse;
     json_stringify := fun _ => "{}" |}.

(** What the store makes of the contents of the manifest document. *)
Definition parsed_manifest (env : Env) (manifest contents : string)
  : Result (JsonFile.t * AssetOptimizationState) :=
  match json_parse env contents with
  | Some record => Ok ({| JsonFile.file := manifest |}, record)
  | None => Throw (JsonFileError manifest)
  end.

(** What a load does once the [.expo-shared] directory has been looked
    after, on the files [files1] and the log [log]: an existing document
    is read; a missing one is announced and then written, which needs the
    directory to be one. *)
Definition load_document (env : Env) (dirPath manifest : string)
    (files1 : gmap string FsNode) (log : list string)
  : Result (JsonFile.t * AssetOptimizationState) * World :=
  match files1 !! manifest with
  | Some (File contents) =>
      (parsed_manifest env manifest contents, {| files := files1; logged := log |})
  | Some Directory => (Throw (EISDIR manifest), {| files := files1; logged := log |})
  | None =>
      let noted := log ++ [AssetUtils.creating_message] in
      match files1 !! dirPath with
      | Some Directory =>
          (parsed_manifest env manifest (json_stringify env ∅),
           {| files := <[manifest := File (json_stringify env ∅)]> files1; logged := noted |})
      | Some (File _) => (Throw (ENOTDIR manifest), {| files := files1; logged := noted |})
      | None => (Throw (ENOENT manifest), {| files := files1; logged := noted |})
      end
  end.

(** A matcher given by a table from patterns to what is found for them. *)
Definition table_found (table : list (string * list string)) (pattern : string)
    (_ : GlobOptions) : list string :=
  match List.find (fun entry => bool_decide (fst entry = pattern)) table with
  | Some entry => snd entry
  | None => []
  end.

Definition table_env (table : list (string * list string)) (patterns : option (list string))
  : Env :=
  {| readConfigJsonAsync := fun _ => Ok {| assetBundlePatterns := patterns |};
     GlobSync_found := table_found table;
     sha256_hex := Fixture.toy_digest;
     json_parse := Fixture.toy_parse;
     json_stringify := fun _ => "{}" |}.

(** * Properties *)

(** ** Strings *)

Section StringFacts.
Import JsString.

Lemma app_cons (c : ascii) (s t : string) : String c s +:+ t = String c (s +:+ t).
Proof. reflexivity. Qed.

Lemma app_empty_l (s : string) : "" +:+ s = s.
Proof. reflexivity. Qed.

Lemma app_empty_r (s : string) : s +:+ "" = s.
Proof. induction s as [|c s IH]; [reflexivity|]. now rewrite app_cons, IH. Qed.

Lemma app_assoc_str (s t u : string) : (s +:+ t) +:+ u = s +:+ t +:+ u.
Proof. induction s as [|c s IH]; [reflexivity|]. rewrite !app_cons. now rewrite IH. Qed.

Lemma startsWith_cons (a b : ascii) (p s : string) :
  startsWith (String a p) (String b s) = if bool_decide (a = b) then startsWith p s else false.
Proof. reflexivity. Qed.

Lemma replace_eq (pat rep s : string) :
  replace pat rep s =
  if startsWith pat s then rep +:+ slice_from (String.length pat) s
  else match s with
       | EmptyString => EmptyString
       | String c s' => String c (replace pat rep s')
       end.
Proof. destruct s; reflexivity. Qed.

Lemma includes_eq (p s : string) :
  includes p s =
  startsWith p s || match s with EmptyString => false | String _ s' => includes p s' end.
Proof. destruct s; reflexivity. Qed.

Lemma toLowerCase_cons (c : ascii) (s : string) :
  toLowerCase (String c s) = String (lower_char c) (toLowerCase s).
Proof. reflexivity. Qed.

Lemma toLowerCase_app (s t : string) :
  toLowerCase (s +:+ t) = toLowerCase s +:+ toLowerCase t.
Proof.
  induction s as [|c s IH]; [reflexivity|].
  now rewrite app_cons, !toLowerCase_cons, app_cons, IH.
Qed.

Lemma toLowerCase_split (s x y : string) :
  toLowerCase s = x +:+ y ->
  exists a b, s = a +:+ b /\ toLowerCase a = x /\ toLowerCase b = y.
Proof.
  revert s. induction x as [|c x IH]; intros s H.
  - exists "", s. auto.
  - destruct s as [|d s]; [discriminate|].
    rewrite app_cons, toLowerCase_cons in H. injection H as Hc Hs.
    destruct (IH _ Hs) as (a & b & -> & Ha & Hb).
    exists (String d a), b. rewrite toLowerCase_cons, Ha, Hc. auto.
Qed.

Lemma replace_absent (pat rep s : string) :
  includes pat s = false -> replace pat rep s = s.
Proof.
  induction s as [|c s IH]; rewrite includes_eq, replace_eq; intros H;
    apply orb_false_iff in H as [H1 H2]; rewrite H1; [reflexivity|].
  now rewrite IH.
Qed.

(** Replacing the first doubled separator leaves a relative suffix alone. *)
Lemma replace_keeps_suffix (s file : string) :
  startsWith "/" file = false -> includes "//" file = false ->
  exists front, replace "//" "/" (s +:+ file) = front +:+ file.
Proof.
  intros Hstart Hincl. induction s as [|c s IH].
  - exists "". rewrite !app_empty_l. now apply replace_absent.
  - destruct IH as [front IH].
    rewrite app_cons, replace_eq.
    destruct (startsWith "//" (String c (s +:+ file))) eqn:E.
    + rewrite startsWith_cons in E. case_bool_decide as Hc; [subst c|discriminate].
      destruct s as [|d s].
      * rewrite app_empty_l in E. destruct file as [|f file]; [discriminate|].
        rewrite startsWith_cons in *. case_bool_decide; congruence.
      * rewrite app_cons, startsWith_cons in E.
        case_bool_decide as Hd; [subst d|discriminate].
        exists (String "/" s). reflexivity.
    + exists (String c front). now rewrite IH.
Qed.

Lemma no_slash_cons (c : ascii) (s : string) :
  no_slash (String c s) = negb (bool_decide (c = "/"%char)) && no_slash s.
Proof. reflexivity. Qed.

Lemma no_slash_app (s t : string) : no_slash (s +:+ t) = no_slash s && no_slash t.
Proof.
  induction s as [|c s IH]; [reflexivity|].
  now rewrite app_cons, !no_slash_cons, IH, andb_assoc.
Qed.

Lemma no_slash_lower (s : string) :
  no_slash (toLowerCase s) = true -> no_slash s = true.
Proof.
  induction s as [|c s IH]; [done|].
  rewrite toLowerCase_cons, !no_slash_cons. intros [Hc Hs]%andb_true_iff.
  rewrite IH by done. rewrite andb_true_r.
  apply negb_true_iff, bool_decide_eq_false. intros ->.
  now apply negb_true_iff, bool_decide_eq_false in Hc.
Qed.

(** The part of a string after a separator holds every suffix that is free
    of separators. *)
Lemma suffix_after_slash (front file stem suffix : string) :
  (front +:+ "/") +:+ file = stem +:+ suffix -> no_slash suffix = true ->
  exists stem', file = stem' +:+ suffix.
Proof.
  revert stem. induction front as [|c front IH]; intros [|d stem] Heq Hsuffix.
  - rewrite !app_empty_l in Heq. subst suffix. discriminate.
  - rewrite !app_cons, !app_empty_l in Heq. injection Heq as _ Heq. eauto.
  - rewrite app_empty_l in Heq. subst suffix.
    rewrite !no_slash_app in Hsuffix. cbn in Hsuffix.
    rewrite andb_false_r in Hsuffix. discriminate.
  - rewrite !app_cons in Heq. injection Heq as _ Heq. eauto.
Qed.

(** The replacement of the first doubled separator keeps the separator in
    front of a relative suffix. *)
Lemma replace_keeps_separator (s file : string) :
  startsWith "/" file = false -> includes "//" file = false ->
  exists front, replace "//" "/" ((s +:+ "/") +:+ file) = (front +:+ "/") +:+ file.
Proof.
  intros Hstart Hincl. induction s as [|c s IH].
  - exists "". rewrite !app_empty_l, replace_eq, !app_cons, !app_empty_l.
    rewrite !startsWith_cons, bool_decide_eq_true_2 by done.
    change (startsWith (String "/" "") file) with (startsWith "/" file). rewrite Hstart.
    now rewrite replace_absent.
  - destruct IH as [front IH]. rewrite !app_cons, replace_eq.
    destruct (startsWith "//" (String c ((s +:+ "/") +:+ file))) eqn:E.
    + rewrite startsWith_cons in E. case_bool_decide as Hc; [subst c|discriminate].
      destruct s as [|d s].
      * exists "". reflexivity.
      * rewrite !app_cons, startsWith_cons in E.
        case_bool_decide as Hd; [subst d|discriminate].
        exists (String "/" s). reflexivity.
    + exists (String c front). now rewrite IH.
Qed.

End StringFacts.

(** ** The image filter *)

Section ImageFilter.
Import JsString AssetUtils.

Lemma image_regex_test_eq (s : string) :
  image_regex_test s =
  image_regex_here s ||
  match s with EmptyString => false | String _ s' => image_regex_test s' end.
Proof. destruct s; reflexivity. Qed.

Lemma image_regex_here_iff (s : string) :
  image_regex_here s = true <-> s ∈ image_extensions.
Proof.
  unfold image_regex_here, image_extensions. split.
  - destruct s as [|c ext]; [discriminate|].
    destruct (decide (c = "."%char)) as [->|Hc].
    + rewrite !orb_true_iff, !bool_decide_eq_true.
      rewrite !elem_of_cons. intros [[H | H] | H]; rewrite H; auto.
    + destruct c as [[] [] [] [] [] [] [] []]; try discriminate. now contradict Hc.
  - rewrite !elem_of_cons, elem_of_nil. intros [-> | [-> | [-> | []]]]; reflexivity.
Qed.

(** The regular expression accepts exactly the strings that end in one of
    the three extensions. *)
Lemma image_regex_test_iff (s : string) :
  image_regex_test s = true <->
  exists stem extension, s = stem +:+ extension /\ extension ∈ image_extensions.
Proof.
  induction s as [|c s IH]; rewrite image_regex_test_eq, orb_true_iff.
  - split.
    + intros [H | H]; [|discriminate]. exists "", "". split; [reflexivity|].
      now apply image_regex_here_iff.
    + intros (stem & e & Heq & He). left. apply image_regex_here_iff.
      destruct stem; [|discriminate]. now rewrite app_empty_l in Heq; subst e.
  - split.
    + intros [H | H].
      * exists "", (String c s). split; [reflexivity|]. now apply image_regex_here_iff.
      * apply IH in H as (stem & e & -> & He). exists (String c stem), e. auto.
    + intros (stem & e & Heq & He). destruct stem as [|d stem].
      * left. rewrite app_empty_l in Heq. subst e. now apply image_regex_here_iff.
      * right. rewrite app_cons in Heq. injection Heq as -> ->. apply IH. eauto.
Qed.

Lemma image_test_has_extension (path : string) :
  image_regex_test (toLowerCase path) = true <-> has_image_extension path.
Proof.
  rewrite image_regex_test_iff. unfold has_image_extension. split.
  - intros (stem & e & Heq & He).
    apply toLowerCase_split in Heq as (a & b & -> & _ & <-). eauto.
  - intros (stem & e & -> & He). rewrite toLowerCase_app. eauto.
Qed.

Lemma has_image_extension_app (front path : string) :
  has_image_extension path -> has_image_extension (front +:+ path).
Proof.
  intros (stem & e & -> & He). exists (front +:+ stem), e.
  now rewrite app_assoc_str.
Qed.

Lemma withDirectory_suffix (projectDir file : string) :
  relative_match file ->
  exists front, withDirectory projectDir file = front +:+ file.
Proof.
  intros [Hstart Hincl]. unfold withDirectory.
  rewrite <- app_assoc_str. now apply replace_keeps_suffix.
Qed.

Lemma withDirectory_image (projectDir file : string) :
  relative_match file -> has_image_extension file ->
  has_image_extension (withDirectory projectDir file).
Proof.
  intros Hrel Himg. destruct (withDirectory_suffix projectDir file Hrel) as [front ->].
  now apply has_image_extension_app.
Qed.

Lemma image_extension_no_slash (extension : string) :
  toLowerCase extension ∈ image_extensions -> no_slash extension = true.
Proof.
  intros H. apply no_slash_lower. unfold image_extensions in H.
  rewrite !elem_of_cons, elem_of_nil in H.
  destruct H as [-> | [-> | [-> | []]]]; reflexivity.
Qed.

(** Prefixing the project directory neither gives nor takes an image
    extension. *)
Lemma withDirectory_image_iff (projectDir file : string) :
  relative_match file ->
  has_image_extension (withDirectory projectDir file) <-> has_image_extension file.
Proof.
  intros Hrel. split; [|now apply withDirectory_image].
  destruct Hrel as [Hstart Hincl]. unfold withDirectory.
  destruct (replace_keeps_separator projectDir file Hstart Hincl) as [front Hfront].
  rewrite <- app_assoc_str, Hfront. intros (stem & e & Heq & He).
  destruct (suffix_after_slash _ _ _ _ Heq (image_extension_no_slash _ He)) as [stem' ->].
  now exists stem', e.
Qed.

Lemma elem_of_filterImages (files : list string) (projectDir path : string) :
  path ∈ filterImages files projectDir <->
  exists file, file ∈ files /\ path = withDirectory projectDir file
               /\ has_image_extension path.
Proof.
  unfold filterImages. rewrite list_elem_of_In, filter_In, in_map_iff.
  rewrite image_test_has_extension. split.
  - intros [(file & <- & Hin) Himg]. exists file. now rewrite list_elem_of_In.
  - intros (file & Hin & -> & Himg). split; [|done]. exists file.
    now rewrite <- list_elem_of_In.
Qed.

(** On relative image files the filter keeps every file and only prefixes
    the project directory. *)
Lemma filterImages_of_images (files : list string) (projectDir : string) (S : gset string) :
  list_to_set files = S ->
  (forall file, file ∈ S -> relative_match file /\ has_image_extension file) ->
  list_to_set (filterImages files projectDir)
  = (set_map (withDirectory projectDir) S : gset string).
Proof.
  intros <- Himg. apply set_eq. intros path.
  rewrite elem_of_list_to_set, elem_of_filterImages, elem_of_map. split.
  - intros (file & Hin & -> & _). exists file. now rewrite elem_of_list_to_set.
  - intros (file & -> & Hin). exists file. rewrite elem_of_list_to_set in Hin.
    repeat split; [done|]. apply withDirectory_image; apply Himg; now rewrite elem_of_list_to_set.
Qed.

Lemma foldl_add_elements (acc : gset string) (l : list string) :
  foldl (fun acc file => acc ∪ {[ file ]}) acc l = acc ∪ list_to_set l.
Proof.
  revert acc. induction l as [|x l IH]; intros acc; cbn [foldl list_to_set].
  - now rewrite (right_id_L ∅ (∪)).
  - rewrite IH. now rewrite (assoc_L (∪)).
Qed.

Lemma elem_of_excluded (toExclude : gset string) (included : list string) (file : string) :
  file ∈ excluded toExclude included <-> file ∈ included /\ file ∉ toExclude.
Proof.
  unfold excluded. rewrite !list_elem_of_In, filter_In, negb_true_iff, bool_decide_eq_false.
  reflexivity.
Qed.

Lemma list_to_set_excluded (toExclude : gset string) (included : list string) :
  list_to_set (excluded toExclude included) = (list_to_set included ∖ toExclude : gset string).
Proof.
  apply set_eq. intros file.
  rewrite elem_of_difference, !elem_of_list_to_set. apply elem_of_excluded.
Qed.

Lemma excluded_empty (included : list string) : excluded ∅ included = included.
Proof.
  unfold excluded. induction included as [|x l IH]; [reflexivity|].
  cbn [List.filter]. rewrite bool_decide_eq_false_2 by apply not_elem_of_empty.
  cbn [negb]. now rewrite IH.
Qed.

End ImageFilter.

(** ** The asset selector *)

Section Selector.
Import JsString AssetUtils.

Lemma relative_image_names (file : string) :
  file ∈ ({[ "a.png"; "b.png"; "c.jpg" ]} : gset string) ->
  relative_match file /\ has_image_extension file.
Proof.
  rewrite !elem_of_union, !elem_of_singleton.
  intros [[-> | ->] | ->]; (split; [by split|]).
  - exists "a", ".png". split; [done|]. apply image_regex_here_iff. done.
  - exists "b", ".png". split; [done|]. apply image_regex_here_iff. done.
  - exists "c", ".jpg". split; [done|]. apply image_regex_here_iff. done.
Qed.

Lemma result_bind_run {A B : Type} (r : Result A) (k : A -> Result B) :
  (r ≫= k) = match r with Ok a => k a | Throw e => Throw e end.
Proof. reflexivity. Qed.

(** [glob.sync] returns what the matcher found, for every pattern but the
    empty one. *)
Lemma glob_sync_ok (env : Env) (pattern : string) (options : GlobOptions) :
  pattern <> "" -> glob_sync env pattern options = Ok (GlobSync_found env pattern options).
Proof. intros Hne. unfold glob_sync. now rewrite bool_decide_eq_false_2. Qed.

Lemma glob_sync_refuses (env : Env) (options : GlobOptions) :
  glob_sync env "" options = Throw (Error "must provide pattern").
Proof. reflexivity. Qed.

Lemma expandPatterns_cons (env : Env) (projectDir pattern : string) (rest : list string) :
  expandPatterns env projectDir (pattern :: rest) =
  match glob_sync env pattern (globOptions projectDir) with
  | Ok found =>
      match expandPatterns env projectDir rest with
      | Ok later => Ok (found ++ later)
      | Throw e => Throw e
      end
  | Throw e => Throw e
  end.
Proof. reflexivity. Qed.

(** The loop over the bundle patterns returns when no pattern is empty,
    with the matches of the patterns one after the other. *)
Lemma expandPatterns_ok (env : Env) (projectDir : string) (patterns : list string) :
  "" ∉ patterns ->
  expandPatterns env projectDir patterns
  = Ok (flat_map (fun pattern => GlobSync_found env pattern (globOptions projectDir))
                 patterns).
Proof.
  induction patterns as [|pattern rest IH]; intros Hne; [reflexivity|].
  rewrite expandPatterns_cons, glob_sync_ok, IH.
  - reflexivity.
  - intros Hin. apply Hne. now right.
  - intros ->. apply Hne. now left.
Qed.

Lemma expandPatterns_refuses (env : Env) (projectDir : string) (patterns : list string) :
  "" ∈ patterns ->
  expandPatterns env projectDir patterns = Throw (Error "must provide pattern").
Proof.
  induction patterns as [|pattern rest IH]; intros Hin; [now apply elem_of_nil in Hin|].
  rewrite expandPatterns_cons. destruct (decide (pattern = "")) as [->|Hne]; [reflexivity|].
  rewrite glob_sync_ok by done. rewrite IH; [reflexivity|].
  apply elem_of_cons in Hin as [Heq|Hin]; [now destruct Hne|done].
Qed.

Lemma expandPatterns_inv (env : Env) (projectDir : string) (patterns matched : list string) :
  expandPatterns env projectDir patterns = Ok matched ->
  ("" ∉ patterns) /\
  matched = flat_map (fun pattern => GlobSync_found env pattern (globOptions projectDir))
                     patterns.
Proof.
  intros Hrun. destruct (decide ("" ∈ patterns)) as [Hin|Hnot].
  - rewrite expandPatterns_refuses in Hrun by done. discriminate.
  - rewrite expandPatterns_ok in Hrun by done. split; [done|]. now injection Hrun.
Qed.

Lemma toExclude_elements (env : Env) (projectDir pattern : string)
    (quality : Z) (include : option string) (save : option bool) :
  pattern <> "" ->
  toExclude env projectDir
    (Some {| quality := quality; include := include; exclude := Some pattern; save := save |})
  = Ok (list_to_set (GlobSync_found env pattern (globOptions projectDir))).
Proof.
  intros Hne. unfold toExclude, options_exclude, truthy. cbn [exclude].
  rewrite bool_decide_eq_false_2 by done. cbn [negb].
  rewrite result_bind_run, glob_sync_ok by done.
  rewrite foldl_add_elements. now rewrite (left_id_L ∅ (∪)).
Qed.

Lemma included_set (env : Env) (projectDir pattern : string)
    (o : OptimizationOptions) (allFiles : list string) :
  include o = Some pattern -> pattern <> "" ->
  included env projectDir (Some o) allFiles
  = Ok (GlobSync_found env pattern (globOptions projectDir)).
Proof.
  intros Hinc Hne. unfold included, options_include, truthy. rewrite Hinc.
  rewrite bool_decide_eq_false_2 by done. now apply glob_sync_ok.
Qed.

Lemma included_unset (env : Env) (projectDir : string)
    (options : option OptimizationOptions) (allFiles : list string) :
  truthy (options_include options) = false ->
  included env projectDir options allFiles = Ok allFiles.
Proof.
  unfold included. destruct (options_include options) as [pattern|]; [|done].
  now intros ->.
Qed.

Lemma toExclude_unset (env : Env) (projectDir : string)
    (options : option OptimizationOptions) :
  truthy (options_exclude options) = false ->
  toExclude env projectDir options = Ok ∅.
Proof.
  unfold toExclude. destruct (options_exclude options) as [pattern|]; [|done].
  now intros ->.
Qed.

Lemma truthy_nonempty (pattern : string) : truthy (Some pattern) = true -> pattern <> "".
Proof. unfold truthy. case_bool_decide; [discriminate|done]. Qed.

(** The two option patterns are only handed to [glob.sync] when they are
    not empty, so these two steps always return. *)
Lemma included_returns (env : Env) (projectDir : string)
    (options : option OptimizationOptions) (allFiles : list string) :
  exists files, included env projectDir options allFiles = Ok files.
Proof.
  unfold included. destruct (options_include options) as [pattern|]; [|eauto].
  destruct (truthy (Some pattern)) eqn:E; [|eauto].
  rewrite glob_sync_ok by now apply truthy_nonempty. eauto.
Qed.

Lemma toExclude_returns (env : Env) (projectDir : string)
    (options : option OptimizationOptions) :
  exists unwanted, toExclude env projectDir options = Ok unwanted.
Proof.
  unfold toExclude. destruct (options_exclude options) as [pattern|]; [|eauto].
  destruct (truthy (Some pattern)) eqn:E; [|eauto].
  rewrite result_bind_run, glob_sync_ok by now apply truthy_nonempty. eauto.
Qed.

Lemma getAssetFilesAsync_run (env : Env) (projectDir : string)
    (options : option OptimizationOptions) (exp : ExpConfig)
    (matched files : list string) (unwanted : gset string) :
  readConfigJsonAsync env projectDir = Ok exp ->
  expandPatterns env projectDir (patternsOf exp) = Ok matched ->
  included env projectDir options matched = Ok files ->
  toExclude env projectDir options = Ok unwanted ->
  getAssetFilesAsync env projectDir options
  = Ok {| allFiles := filterImages matched projectDir;
          selectedFiles :=
            filterImages (filtered options (excluded unwanted files) files) projectDir |}.
Proof.
  intros Hcfg Hall Hinc Hexc. unfold getAssetFilesAsync.
  rewrite result_bind_run, Hcfg, result_bind_run, Hall, result_bind_run, Hinc.
  now rewrite result_bind_run, Hexc.
Qed.

Lemma getAssetFilesAsync_inv (env : Env) (projectDir : string)
    (options : option OptimizationOptions) (result : AssetFiles) :
  getAssetFilesAsync env projectDir options = Ok result ->
  exists exp matched files unwanted,
    readConfigJsonAsync env projectDir = Ok exp /\
    expandPatterns env projectDir (patternsOf exp) = Ok matched /\
    included env projectDir options matched = Ok files /\
    toExclude env projectDir options = Ok unwanted /\
    result = {| allFiles := filterImages matched projectDir;
                selectedFiles :=
                  filterImages (filtered options (excluded unwanted files) files)
                               projectDir |}.
Proof.
  unfold getAssetFilesAsync. rewrite result_bind_run.
  destruct (readConfigJsonAsync env projectDir) as [exp|e] eqn:Hcfg; [|discriminate].
  rewrite result_bind_run.
  destruct (expandPatterns env projectDir (patternsOf exp)) as [matched|e] eqn:Hall;
    [|discriminate].
  rewrite result_bind_run.
  destruct (included env projectDir options matched) as [files|e] eqn:Hinc; [|discriminate].
  rewrite result_bind_run.
  destruct (toExclude env projectDir options) as [unwanted|e] eqn:Hexc; [|discriminate].
  intros [= <-]. exists exp, matched, files, unwanted. repeat split; assumption.
Qed.

(** With the configuration read and the bundle patterns expanded, the
    selector returns. *)
Lemma getAssetFilesAsync_returns (env : Env) (projectDir : string)
    (options : option OptimizationOptions) (exp : ExpConfig) (matched : list string) :
  readConfigJsonAsync env projectDir = Ok exp ->
  expandPatterns env projectDir (patternsOf exp) = Ok matched ->
  exists files unwanted,
    included env projectDir options matched = Ok files /\
    toExclude env projectDir options = Ok unwanted /\
    getAssetFilesAsync env projectDir options
    = Ok {| allFiles := filterImages matched projectDir;
            selectedFiles :=
              filterImages (filtered options (excluded unwanted files) files) projectDir |}.
Proof.
  intros Hcfg Hall.
  destruct (included_returns env projectDir options matched) as [files Hinc].
  destruct (toExclude_returns env projectDir options) as [unwanted Hexc].
  exists files, unwanted. split; [done|]. split; [done|].
  now apply getAssetFilesAsync_run with exp.
Qed.

Lemma filtered_unset (options : option OptimizationOptions) (excluded included : list string) :
  truthy (options_exclude options) = false ->
  filtered options excluded included = included.
Proof. unfold filtered. now intros ->. Qed.

Lemma filtered_set (options : option OptimizationOptions) (excluded included : list string) :
  truthy (options_exclude options) = true ->
  filtered options excluded included = excluded.
Proof. unfold filtered. now intros ->. Qed.

(** C1. In a project whose bundle patterns expand to the image files
    a.png, b.png and c.jpg, selecting with include ["*.png"] yields the
    project-rooted paths of a.png and b.png, adding exclude ["b.png"]
    yields that of a.png alone, and [allFiles] holds the paths of all three
    files in both calls. *)
Theorem include_exclude_example (env : Env) (projectDir : string)
    (exp : ExpConfig) (quality : Z) (save : option bool) :
  readConfigJsonAsync env projectDir = Ok exp ->
  result_map list_to_set (expandPatterns env projectDir (patternsOf exp))
    = Ok ({[ "a.png"; "b.png"; "c.jpg" ]} : gset string) ->
  result_map list_to_set (glob_sync env "*.png" (globOptions projectDir))
    = Ok ({[ "a.png"; "b.png" ]} : gset string) ->
  result_map list_to_set (glob_sync env "b.png" (globOptions projectDir))
    = Ok ({[ "b.png" ]} : gset string) ->
  exists included_only with_exclude,
    getAssetFilesAsync env projectDir
      (Some {| quality := quality; include := Some "*.png"; exclude := None; save := save |})
      = Ok included_only /\
    getAssetFilesAsync env projectDir
      (Some {| quality := quality; include := Some "*.png"; exclude := Some "b.png";
               save := save |})
      = Ok with_exclude /\
    list_to_set (selectedFiles included_only)
      = ({[ withDirectory projectDir "a.png"; withDirectory projectDir "b.png" ]} : gset string) /\
    list_to_set (selectedFiles with_exclude)
      = ({[ withDirectory projectDir "a.png" ]} : gset string) /\
    list_to_set (allFiles included_only)
      = ({[ withDirectory projectDir "a.png"; withDirectory projectDir "b.png";
            withDirectory projectDir "c.jpg" ]} : gset string) /\
    list_to_set (allFiles with_exclude)
      = ({[ withDirectory projectDir "a.png"; withDirectory projectDir "b.png";
            withDirectory projectDir "c.jpg" ]} : gset string).
Proof.
  intros Hcfg Hall Hinc Hexc.
  destruct (expandPatterns env projectDir (patternsOf exp)) as [matched|e] eqn:Hrun;
    [|discriminate].
  injection Hall as Hall.
  rewrite glob_sync_ok in Hinc, Hexc by done. injection Hinc as Hinc. injection Hexc as Hexc.
  eexists _, _.
  split; [eapply getAssetFilesAsync_run; [exact Hcfg|exact Hrun| |];
          [now apply (included_set _ _ "*.png")|now apply toExclude_unset]|].
  split; [eapply getAssetFilesAsync_run; [exact Hcfg|exact Hrun| |];
          [now apply (included_set _ _ "*.png")|now apply toExclude_elements]|].
  cbn [selectedFiles allFiles].
  assert (Hthree : list_to_set (filterImages matched projectDir)
             = ({[ withDirectory projectDir "a.png"; withDirectory projectDir "b.png";
                   withDirectory projectDir "c.jpg" ]} : gset string)).
  { rewrite (filterImages_of_images _ _ _ Hall relative_image_names).
    now rewrite !set_map_union_L, !set_map_singleton_L. }
  repeat split; [| |exact Hthree|exact Hthree].
  - rewrite filtered_unset by done.
    erewrite filterImages_of_images; [|exact Hinc|].
    + now rewrite !set_map_union_L, !set_map_singleton_L.
    + intros file Hin. apply relative_image_names.
      apply elem_of_union. now left.
  - rewrite filtered_set by done.
    erewrite filterImages_of_images.
    + apply set_map_singleton_L.
    + rewrite list_to_set_excluded, Hinc, Hexc.
      apply set_eq. intros file.
      rewrite elem_of_difference, elem_of_union, !elem_of_singleton.
      split; [intros [[-> | ->] Hne]; [done|by destruct Hne]|].
      intros ->. split; [by left|done].
    + intros file Hin. apply relative_image_names.
      apply elem_of_singleton in Hin as ->.
      apply elem_of_union. left. apply elem_of_union. left. now apply elem_of_singleton.
Qed.

Lemma include_exclude_example_witness :
  let env := Fixture.env Fixture.three_images None in
  readConfigJsonAsync env "/proj" = Ok {| assetBundlePatterns := None |} /\
  result_map list_to_set
    (expandPatterns env "/proj" (patternsOf {| assetBundlePatterns := None |}))
    = Ok ({[ "a.png"; "b.png"; "c.jpg" ]} : gset string) /\
  result_map list_to_set (glob_sync env "*.png" (globOptions "/proj"))
    = Ok ({[ "a.png"; "b.png" ]} : gset string) /\
  result_map list_to_set (glob_sync env "b.png" (globOptions "/proj"))
    = Ok ({[ "b.png" ]} : gset string) /\
  exists included_only with_exclude,
    getAssetFilesAsync env "/proj"
      (Some {| quality := 80; include := Some "*.png"; exclude := None; save := None |})
      = Ok included_only /\
    getAssetFilesAsync env "/proj"
      (Some {| quality := 80; include := Some "*.png"; exclude := Some "b.png";
               save := None |})
      = Ok with_exclude /\
    list_to_set (selectedFiles included_only)
      = ({[ "/proj/a.png"; "/proj/b.png" ]} : gset string) /\
    list_to_set (selectedFiles with_exclude)
      = ({[ "/proj/a.png" ]} : gset string) /\
    list_to_set (allFiles included_only)
      = ({[ "/proj/a.png"; "/proj/b.png"; "/proj/c.jpg" ]} : gset string) /\
    list_to_set (allFiles with_exclude)
      = ({[ "/proj/a.png"; "/proj/b.png"; "/proj/c.jpg" ]} : gset string).
Proof.
  intros env.
  assert (H1 : readConfigJsonAsync env "/proj" = Ok {| assetBundlePatterns := None |})
    by reflexivity.
  assert (H2 : result_map list_to_set
                 (expandPatterns env "/proj" (patternsOf {| assetBundlePatterns := None |}))
               = Ok ({[ "a.png"; "b.png"; "c.jpg" ]} : gset string))
    by (vm_compute; reflexivity).
  assert (H3 : result_map list_to_set (glob_sync env "*.png" (globOptions "/proj"))
               = Ok ({[ "a.png"; "b.png" ]} : gset string))
    by (vm_compute; reflexivity).
  assert (H4 : result_map list_to_set (glob_sync env "b.png" (globOptions "/proj"))
               = Ok ({[ "b.png" ]} : gset string))
    by (vm_compute; reflexivity).
  exact (conj H1 (conj H2 (conj H3 (conj H4
           (include_exclude_example env "/proj" _ 80 None H1 H2 H3 H4))))).
Defined.

Lemma elem_of_toExclude (env : Env) (projectDir : string)
    (options : option OptimizationOptions) (unwanted : gset string) (file : string) :
  toExclude env projectDir options = Ok unwanted ->
  file ∈ unwanted <->
  exists pattern, options_exclude options = Some pattern /\ pattern <> ""
                  /\ file ∈ GlobSync_found env pattern (globOptions projectDir).
Proof.
  unfold toExclude. destruct (options_exclude options) as [pattern|].
  - unfold truthy. case_bool_decide as Hp; cbn [negb].
    + intros [= <-]. split; [intros []%not_elem_of_empty|].
      intros (p & [= <-] & Hne & _). done.
    + rewrite result_bind_run, glob_sync_ok by done. intros [= <-].
      rewrite foldl_add_elements, (left_id_L ∅ (∪)), elem_of_list_to_set. split.
      * intros Hin. eauto.
      * now intros (p & [= <-] & _ & Hin).
  - intros [= <-]. split; [intros []%not_elem_of_empty|]. now intros (p & [=] & _).
Qed.

Lemma elem_of_filtered (env : Env) (projectDir : string)
    (options : option OptimizationOptions) (unwanted : gset string)
    (included : list string) (file : string) :
  toExclude env projectDir options = Ok unwanted ->
  file ∈ filtered options (excluded unwanted included) included <->
  file ∈ included /\
  (forall pattern, options_exclude options = Some pattern -> pattern <> "" ->
                   file ∉ GlobSync_found env pattern (globOptions projectDir)).
Proof.
  intros Hexc. unfold filtered. destruct (truthy (options_exclude options)) eqn:E.
  - rewrite elem_of_excluded, (elem_of_toExclude _ _ _ _ _ Hexc). split.
    + intros [Hin Hnot]. split; [done|]. intros pattern Hp Hne Hglob. apply Hnot. eauto.
    + intros [Hin Hnot]. split; [done|]. intros (pattern & Hp & Hne & Hglob).
      now apply (Hnot pattern).
  - split; [|now intros [Hin _]]. intros Hin. split; [done|].
    intros pattern Hp Hne. rewrite Hp in E. unfold truthy in E.
    now rewrite bool_decide_eq_false_2 in E.
Qed.

(** C3. When a (non-empty) include pattern is supplied, the set selected
    before exclusion and image filtering is the expansion of that pattern
    alone, whatever [allFiles] holds. So the call returns as [selectedFiles]
    exactly the project-rooted image paths of the files of that expansion
    that the exclude pattern, if any, does not match (all of them, in the
    order of the expansion, when there is no exclude pattern), be they
    matched by the bundle patterns or not, while [allFiles] stays the
    expansion of the bundle patterns; and an include pattern matching no
    file yields an empty [selectedFiles]. *)
Theorem include_is_authoritative (env : Env) (projectDir pattern : string)
    (o : OptimizationOptions) (exp : ExpConfig) (matched : list string) :
  include o = Some pattern -> pattern <> "" ->
  readConfigJsonAsync env projectDir = Ok exp ->
  expandPatterns env projectDir (patternsOf exp) = Ok matched ->
  let expansion := GlobSync_found env pattern (globOptions projectDir) in
  glob_sync env pattern (globOptions projectDir) = Ok expansion /\
  (forall allFiles, included env projectDir (Some o) allFiles = Ok expansion) /\
  exists result,
    getAssetFilesAsync env projectDir (Some o) = Ok result /\
    allFiles result = filterImages matched projectDir /\
    (forall path,
        path ∈ selectedFiles result <->
        exists file,
          file ∈ expansion /\
          (forall unwanted, exclude o = Some unwanted -> unwanted <> "" ->
                            file ∉ GlobSync_found env unwanted (globOptions projectDir)) /\
          path = withDirectory projectDir file /\
          has_image_extension path) /\
    (truthy (exclude o) = false ->
     selectedFiles result = filterImages expansion projectDir) /\
    (expansion = [] -> selectedFiles result = []).
Proof.
  intros Hinc Hne Hcfg Hall expansion.
  split; [now apply glob_sync_ok|].
  split; [intros allFiles; now apply included_set|].
  destruct (toExclude_returns env projectDir (Some o)) as [unwanted Hexc].
  pose proof (included_set env projectDir pattern o matched Hinc Hne) as Hincluded.
  eexists. split; [exact (getAssetFilesAsync_run _ _ _ _ _ _ _ Hcfg Hall Hincluded Hexc)|].
  cbn [allFiles selectedFiles]. fold expansion. split; [reflexivity|]. split; [|split].
  - intros path. rewrite elem_of_filterImages. split.
    + intros (file & [Hin Hnot]%(elem_of_filtered _ _ _ _ _ _ Hexc) & Hpath & Himg).
      exists file. auto.
    + intros (file & Hin & Hnot & Hpath & Himg). exists file. split; [|done].
      apply (elem_of_filtered _ _ _ _ _ _ Hexc). auto.
  - intros Hunset. now rewrite filtered_unset.
  - intros ->. unfold filtered. now destruct (truthy _).
Qed.

Lemma include_is_authoritative_witness :
  let env := Fixture.env Fixture.three_images (Some ["*.jpg"]) in
  let o := {| quality := 80; include := Some "*.png"; exclude := None; save := None |} in
  let none := {| quality := 80; include := Some "*.gif"; exclude := None; save := None |} in
  include o = Some "*.png" /\ "*.png" <> "" /\
  include none = Some "*.gif" /\ "*.gif" <> "" /\
  readConfigJsonAsync env "/proj" = Ok {| assetBundlePatterns := Some ["*.jpg"] |} /\
  expandPatterns env "/proj" ["*.jpg"] = Ok ["c.jpg"] /\
  glob_sync env "*.png" (globOptions "/proj") = Ok ["a.png"; "b.png"] /\
  glob_sync env "*.gif" (globOptions "/proj") = Ok [] /\
  getAssetFilesAsync env "/proj" (Some o)
  = Ok {| allFiles := ["/proj/c.jpg"]; selectedFiles := ["/proj/a.png"; "/proj/b.png"] |} /\
  getAssetFilesAsync env "/proj" (Some none)
  = Ok {| allFiles := ["/proj/c.jpg"]; selectedFiles := [] |}.
Proof.
  intros env o none.
  assert (H1 : include o = Some "*.png") by reflexivity.
  assert (H2 : "*.png" <> "") by discriminate.
  assert (H3 : readConfigJsonAsync env "/proj" = Ok {| assetBundlePatterns := Some ["*.jpg"] |})
    by reflexivity.
  assert (H4 : expandPatterns env "/proj" ["*.jpg"] = Ok ["c.jpg"]) by reflexivity.
  assert (H5 : include none = Some "*.gif") by reflexivity.
  assert (H6 : "*.gif" <> "") by discriminate.
  destruct (include_is_authoritative env "/proj" "*.png" o _ ["c.jpg"] H1 H2 H3 H4)
    as (Hglob & _ & result & Hres & Hall & _ & Hselected & _).
  specialize (Hselected eq_refl).
  destruct result as [all selected]. cbn [allFiles selectedFiles] in Hall, Hselected.
  subst all selected.
  destruct (include_is_authoritative env "/proj" "*.gif" none _ ["c.jpg"] H5 H6 H3 H4)
    as (Hglob' & _ & result' & Hres' & Hall' & _ & _ & Hempty).
  specialize (Hempty eq_refl).
  destruct result' as [all' selected']. cbn [allFiles selectedFiles] in Hall', Hempty.
  subst all' selected'.
  exact (conj H1 (conj H2 (conj H5 (conj H6 (conj H3 (conj H4
           (conj Hglob (conj Hglob' (conj Hres Hres'))))))))).
Defined.

(** C4. Two calls whose options differ only in [include] and [exclude]
    return the same [allFiles] (or fail alike): it is the image-filtered
    expansion of the bundle patterns, whatever the filtering flags. *)
Theorem allFiles_ignores_filters (env : Env) (projectDir : string)
    (quality : Z) (save : option bool) (include1 exclude1 include2 exclude2 : option string) :
  let options1 := Some {| quality := quality; include := include1; exclude := exclude1;
                          save := save |} in
  let options2 := Some {| quality := quality; include := include2; exclude := exclude2;
                          save := save |} in
  result_map allFiles (getAssetFilesAsync env projectDir options1)
  = result_map allFiles (getAssetFilesAsync env projectDir options2) /\
  result_map allFiles (getAssetFilesAsync env projectDir options1)
  = (exp ← readConfigJsonAsync env projectDir;
     matched ← expandPatterns env projectDir (patternsOf exp);
     Ok (filterImages matched projectDir)).
Proof.
  intros options1 options2.
  assert (Hall : forall options,
             result_map allFiles (getAssetFilesAsync env projectDir options)
             = (exp ← readConfigJsonAsync env projectDir;
                matched ← expandPatterns env projectDir (patternsOf exp);
                Ok (filterImages matched projectDir))).
  { intros options. rewrite result_bind_run.
    destruct (readConfigJsonAsync env projectDir) as [exp|e] eqn:Hcfg.
    - rewrite result_bind_run.
      destruct (expandPatterns env projectDir (patternsOf exp)) as [matched|e] eqn:Hrun.
      + destruct (getAssetFilesAsync_returns env projectDir options exp matched Hcfg Hrun)
          as (files & unwanted & _ & _ & ->). reflexivity.
      + unfold getAssetFilesAsync. now rewrite result_bind_run, Hcfg, result_bind_run, Hrun.
    - unfold getAssetFilesAsync. now rewrite result_bind_run, Hcfg. }
  split; [now rewrite !Hall|apply Hall].
Qed.

Lemma image_extension_ends_in_g (path : string) :
  image_regex_test path = true -> last_char_is "g" path.
Proof.
  intros (stem & e & -> & He)%image_regex_test_iff. unfold image_extensions in He.
  rewrite !elem_of_cons, elem_of_nil in He.
  destruct He as [-> | [-> | [-> | []]]].
  - exists (stem +:+ ".pn"). now rewrite app_assoc_str.
  - exists (stem +:+ ".jp"). now rewrite app_assoc_str.
  - exists (stem +:+ ".jpe"). now rewrite app_assoc_str.
Qed.

Lemma last_char_unique (c d : ascii) (s t : string) :
  s +:+ String c "" = t +:+ String d "" -> c = d.
Proof.
  revert t. induction s as [|a s IH]; intros [|b t] H.
  - now injection H.
  - rewrite app_empty_l, app_cons in H. injection H as _ H. destruct t; discriminate.
  - rewrite app_empty_l, app_cons in H. injection H as _ H. destruct s; discriminate.
  - rewrite !app_cons in H. injection H as _ H. eauto.
Qed.

Lemma notes_txt_is_no_image (projectDir : string) :
  image_regex_test (toLowerCase (withDirectory projectDir "notes.txt")) = false.
Proof.
  destruct (withDirectory_suffix projectDir "notes.txt") as [front ->]; [by split|].
  destruct (image_regex_test _) eqn:E; [|reflexivity].
  apply image_extension_ends_in_g in E as [front' E].
  rewrite toLowerCase_app in E.
  change (toLowerCase "notes.txt") with ("notes.tx" +:+ "t") in E.
  rewrite <- app_assoc_str in E. apply last_char_unique in E. discriminate.
Qed.

(** C6. Both returned lists hold only paths that end, compared
    case-insensitively, in .png, .jpg or .jpeg; the path of a matched file
    with another extension, such as notes.txt, is in neither list, whatever
    the options. *)
Theorem only_images_are_returned (env : Env) (projectDir : string)
    (options : option OptimizationOptions) (result : AssetFiles) :
  getAssetFilesAsync env projectDir options = Ok result ->
  (forall path, path ∈ allFiles result \/ path ∈ selectedFiles result ->
                has_image_extension path) /\
  (forall file, relative_match file -> ~ has_image_extension file ->
                (withDirectory projectDir file ∉ allFiles result) /\
                (withDirectory projectDir file ∉ selectedFiles result)) /\
  (withDirectory projectDir "notes.txt" ∉ allFiles result) /\
  (withDirectory projectDir "notes.txt" ∉ selectedFiles result).
Proof.
  intros (exp & matched & chosen & unwanted & _ & _ & _ & _ & ->)%getAssetFilesAsync_inv.
  cbn [allFiles selectedFiles].
  assert (Himg : forall files path, path ∈ filterImages files projectDir ->
                                    has_image_extension path).
  { intros files path (file & _ & _ & H)%elem_of_filterImages. exact H. }
  split; [intros path [H | H]; eapply Himg; exact H|].
  split.
  - intros file Hrel Hno.
    split; intros H%Himg; now apply withDirectory_image_iff in H.
  - split; intros H%Himg%image_test_has_extension;
      now rewrite notes_txt_is_no_image in H.
Qed.

Lemma only_images_are_returned_witness :
  let env := Fixture.env ("notes.txt" :: "LOGO.PNG" :: Fixture.three_images) None in
  let result := {| allFiles := ["/proj/LOGO.PNG"; "/proj/a.png"; "/proj/b.png"; "/proj/c.jpg"];
                   selectedFiles := ["/proj/LOGO.PNG"; "/proj/a.png"; "/proj/c.jpg"] |} in
  getAssetFilesAsync env "/proj" (Fixture.options (Some "*") (Some "b.*")) = Ok result /\
  (forall path, path ∈ allFiles result \/ path ∈ selectedFiles result ->
                has_image_extension path) /\
  (forall file, relative_match file -> ~ has_image_extension file ->
                (withDirectory "/proj" file ∉ allFiles result) /\
                (withDirectory "/proj" file ∉ selectedFiles result)) /\
  (withDirectory "/proj" "notes.txt" ∉ allFiles result) /\
  (withDirectory "/proj" "notes.txt" ∉ selectedFiles result).
Proof.
  intros env result.
  assert (H : getAssetFilesAsync env "/proj" (Fixture.options (Some "*") (Some "b.*"))
              = Ok result) by reflexivity.
  split; [exact H|].
  exact (only_images_are_returned env "/proj" _ result H).
Defined.

(** C8. Applying the exclusion filter unconditionally gives the same
    result as applying it only when [options.exclude] is set: when it is
    unset the exclusion set is empty and filtering against it is the
    identity. *)
Theorem exclude_filter_equivalence (env : Env) (projectDir : string)
    (options : option OptimizationOptions) :
  getAssetFilesAsync env projectDir options
  = getAssetFilesAsync_alwaysFiltered env projectDir options /\
  (truthy (options_exclude options) = false ->
   toExclude env projectDir options = Ok ∅ /\
   forall included, excluded ∅ included = included).
Proof.
  split.
  - unfold getAssetFilesAsync, getAssetFilesAsync_alwaysFiltered.
    rewrite !result_bind_run.
    destruct (readConfigJsonAsync env projectDir) as [exp|e]; [|reflexivity].
    rewrite !result_bind_run.
    destruct (expandPatterns env projectDir (patternsOf exp)) as [matched|e]; [|reflexivity].
    rewrite !result_bind_run.
    destruct (included env projectDir options matched) as [files|e]; [|reflexivity].
    rewrite !result_bind_run.
    destruct (truthy (options_exclude options)) eqn:E.
    + destruct (toExclude env projectDir options) as [unwanted|e]; [|reflexivity].
      now rewrite filtered_set.
    + rewrite toExclude_unset by done. rewrite filtered_unset by done.
      now rewrite excluded_empty.
  - intros E. split; [now apply toExclude_unset|]. apply excluded_empty.
Qed.

Lemma exclude_filter_equivalence_witness :
  let env := Fixture.env Fixture.three_images None in
  let options := Fixture.options (Some "*.png") None in
  truthy (options_exclude options) = false /\
  toExclude env "/proj" options = Ok ∅ /\
  (forall included, excluded ∅ included = included) /\
  getAssetFilesAsync env "/proj" options
  = getAssetFilesAsync_alwaysFiltered env "/proj" options.
Proof.
  intros env options.
  assert (H : truthy (options_exclude options) = false) by reflexivity.
  destruct (exclude_filter_equivalence env "/proj" options) as [Heq Hunset].
  destruct (Hunset H) as [Hempty Hid].
  exact (conj H (conj Hempty (conj Hid Heq))).
Defined.

End Selector.

(** ** Paths *)

Section Paths.
Import NodePath.

Lemma string_of_list_app (l1 l2 : list ascii) :
  string_of_list_ascii (l1 ++ l2) = string_of_list_ascii l1 +:+ string_of_list_ascii l2.
Proof.
  induction l1 as [|c l1 IH]; [reflexivity|].
  cbn [app string_of_list_ascii]. now rewrite IH.
Qed.

Lemma string_of_list_nil (l : list ascii) : string_of_list_ascii l = "" -> l = [].
Proof. destruct l; [done|discriminate]. Qed.

Lemma no_slash_of_list (l : list ascii) :
  Forall (fun c => c <> "/"%char) l -> no_slash (string_of_list_ascii l) = true.
Proof.
  induction 1 as [|c l Hc _ IH]; [reflexivity|].
  cbn [string_of_list_ascii]. rewrite no_slash_cons, IH.
  now rewrite bool_decide_eq_false_2.
Qed.

Lemma span_until_spec (c : ascii) (l pre post : list ascii) :
  span_until c l = (pre, post) ->
  l = pre ++ post /\ Forall (fun x => x <> c) pre /\
  (post = [] \/ exists post', post = c :: post').
Proof.
  revert pre post. induction l as [|x l IH]; intros pre post; cbn [span_until].
  - intros [= <- <-]. auto.
  - case_bool_decide as Hx.
    + intros [= <- <-]. subst x. eauto.
    + destruct (span_until c l) as [pre' post'] eqn:E. intros [= <- <-].
      destruct (IH _ _ eq_refl) as (-> & Hpre & Hpost). auto.
Qed.

(** What [split_ext] returns: the two parts make up the base name, and
    an extension is only reported after a non-empty name. *)
Lemma split_ext_spec (guard : bool) (base_rev name ext : list ascii) :
  split_ext guard base_rev = (name, ext) ->
  name ++ ext = rev base_rev /\
  (ext <> [] -> name <> [] /\ (rev base_rev = ["."; "."]%char -> guard = false)).
Proof.
  unfold split_ext. destruct (span_until "." base_rev) as [ext_rev rest] eqn:E.
  apply span_until_spec in E as (-> & Hext & Hrest).
  destruct rest as [|dot name_rev].
  { intros [= <- <-]. split; [apply app_nil_r|]. intros H. now destruct H. }
  destruct Hrest as [[=] | (post' & [= -> <-])].
  destruct name_rev as [|c name_rev].
  { intros [= <- <-]. split; [apply app_nil_r|]. intros H. now destruct H. }
  destruct (guard && bool_decide (c :: name_rev = ["."%char]) && bool_decide (ext_rev = []))
    eqn:G.
  { intros [= <- <-]. split; [apply app_nil_r|]. intros H. now destruct H. }
  intros [= <- <-]. split.
  - rewrite rev_app_distr. cbn [rev]. now rewrite <- !app_assoc.
  - intros _. split.
    + cbn [rev]. intros H. now apply app_eq_nil in H as [_ [=]].
    + intros Hdd. destruct guard; [|reflexivity]. cbn [andb] in G.
      apply (f_equal (@rev ascii)) in Hdd. rewrite rev_involutive in Hdd.
      cbn [rev app] in Hdd.
      destruct ext_rev as [|e ext_rev].
      * cbn [app] in Hdd. injection Hdd as -> ->.
        now rewrite !bool_decide_eq_true_2 in G.
      * cbn [app] in Hdd. injection Hdd as -> Hdd. inversion Hext; congruence.
Qed.

Lemma parse_extension_facts (path : string) :
  ext (parse path) <> "" ->
  base (parse path) = name (parse path) +:+ ext (parse path) /\
  no_slash (base (parse path)) = true /\
  name (parse path) <> "" /\
  (base (parse path) = ".." -> dir (parse path) = "/").
Proof.
  unfold parse. destruct (list_ascii_of_string path) as [|first others]; [done|].
  set (scanned := if bool_decide (first = "/"%char) then others else first :: others).
  destruct (drop_slashes (rev scanned)) as [|t trimmed]; [done|].
  destruct (span_until "/" (t :: trimmed)) as [base_rev before] eqn:E.
  apply span_until_spec in E as (_ & Hbase & _).
  destruct (split_ext _ base_rev) as [name_chars ext_chars] eqn:S.
  apply split_ext_spec in S as [Happ Hext].
  cbn [ext base name dir]. intros Hne.
  destruct Hext as [Hname Hguard]; [intros ->; now apply Hne|].
  repeat split.
  - now rewrite <- Happ, string_of_list_app.
  - apply no_slash_of_list. now apply Forall_rev.
  - intros H%string_of_list_nil. contradiction.
  - intros H. apply (f_equal list_ascii_of_string) in H.
    rewrite list_ascii_of_string_of_list_ascii in H. cbn in H.
    specialize (Hguard H). apply negb_false_iff, andb_true_iff in Hguard as [-> Hb].
    apply bool_decide_eq_true in Hb as ->. reflexivity.
Qed.

Lemma split_slash_cons (c : ascii) (s : string) :
  split_slash (String c s) =
  if bool_decide (c = "/"%char) then EmptyString :: split_slash s
  else match split_slash s with
       | seg :: rest => String c seg :: rest
       | [] => [String c EmptyString]
       end.
Proof. reflexivity. Qed.

Lemma split_slash_plain (seg : string) : no_slash seg = true -> split_slash seg = [seg].
Proof.
  induction seg as [|c seg IH]; [reflexivity|].
  rewrite no_slash_cons, split_slash_cons. intros [Hc Hseg]%andb_true_iff.
  apply negb_true_iff in Hc as ->. now rewrite IH.
Qed.

Lemma split_slash_app (s t : string) :
  split_slash (s +:+ "/" +:+ t) = split_slash s ++ split_slash t.
Proof.
  induction s as [|c s IH].
  - reflexivity.
  - rewrite app_cons, !split_slash_cons, IH. case_bool_decide; [reflexivity|].
    destruct (split_slash s) as [|seg rest] eqn:E; [|reflexivity].
    destruct s as [|d s]; [discriminate|].
    rewrite split_slash_cons in E. case_bool_decide; [discriminate|].
    destruct (split_slash s); discriminate.
Qed.

Lemma join_slash_cons (seg : string) (rest : list string) :
  join_slash (seg :: rest) =
  match rest with [] => seg | _ => seg +:+ "/" +:+ join_slash rest end.
Proof. reflexivity. Qed.

Lemma join_slash_snoc (segs : list string) (seg : string) :
  join_slash (segs ++ [seg]) = joined_front segs +:+ seg.
Proof.
  induction segs as [|x segs IH]; [reflexivity|].
  cbn [app]. rewrite join_slash_cons.
  destruct segs as [|y segs].
  - cbn [app joined_front join_slash]. now rewrite app_assoc_str.
  - cbn [app] in *. rewrite IH. unfold joined_front.
    rewrite (join_slash_cons x). now rewrite !app_assoc_str.
Qed.

Lemma endsWithSlash_cons (c : ascii) (s : string) :
  endsWithSlash (String c s) =
  match s with EmptyString => bool_decide (c = "/"%char) | _ => endsWithSlash s end.
Proof. destruct s; reflexivity. Qed.

Lemma endsWithSlash_plain (seg : string) : no_slash seg = true -> endsWithSlash seg = false.
Proof.
  induction seg as [|c seg IH]; [reflexivity|].
  rewrite no_slash_cons, endsWithSlash_cons. intros [Hc Hseg]%andb_true_iff.
  destruct seg; [|now apply IH]. now apply negb_true_iff in Hc.
Qed.

Lemma endsWithSlash_app (s t : string) : t <> "" -> endsWithSlash (s +:+ t) = endsWithSlash t.
Proof.
  intros Ht. induction s as [|c s IH]; [reflexivity|].
  rewrite app_cons, endsWithSlash_cons, IH.
  destruct (s +:+ t) eqn:E; [|reflexivity].
  destruct s; [|discriminate]. now rewrite app_empty_l in E.
Qed.

Lemma app_not_empty (s t : string) : t <> "" -> s +:+ t <> "".
Proof. destruct s; [now rewrite app_empty_l|discriminate]. Qed.

Lemma isAbsolute_app (s t : string) : s <> "" -> isAbsolute (s +:+ t) = isAbsolute s.
Proof. destruct s; [done|reflexivity]. Qed.

Lemma isAbsolute_plain (seg : string) : no_slash seg = true -> isAbsolute seg = false.
Proof.
  destruct seg as [|c seg]; [reflexivity|]. rewrite no_slash_cons.
  intros [Hc _]%andb_true_iff. apply negb_true_iff, bool_decide_eq_false in Hc.
  unfold isAbsolute. destruct c as [[] [] [] [] [] [] [] []]; try reflexivity.
  now contradict Hc.
Qed.

Lemma normalize_step_plain (allowAboveRoot : bool) (stack : list string) (seg : string) :
  plain_segment seg -> normalize_step allowAboveRoot stack seg = seg :: stack.
Proof.
  intros (_ & H1 & H2 & H3). unfold normalize_step.
  now rewrite !bool_decide_eq_false_2.
Qed.

(** Joining a directory with a plain segment puts a prefix, fixed by the
    directory, before the segment. *)
Lemma join_plain_segment (dir seg : string) :
  plain_segment seg -> join [dir; seg] = join_prefix dir +:+ seg.
Proof.
  intros Hplain. pose proof Hplain as (Hslash & Hne & _).
  unfold join, join_prefix. cbn [List.filter].
  rewrite (bool_decide_eq_false_2 (seg = "")) by done. cbn [negb].
  case_bool_decide as Hdir; cbn [negb].
  - rewrite join_slash_cons. unfold normalize.
    rewrite bool_decide_eq_false_2 by done.
    rewrite isAbsolute_plain, endsWithSlash_plain by done. cbn [negb].
    unfold normalizeString. rewrite split_slash_plain by done.
    cbn [fold_left]. rewrite normalize_step_plain by done.
    cbn [rev app join_slash]. now rewrite bool_decide_eq_false_2.
  - rewrite !join_slash_cons. unfold normalize.
    rewrite bool_decide_eq_false_2 by (destruct dir; done).
    rewrite isAbsolute_app by done.
    rewrite <- app_assoc_str, endsWithSlash_app by done.
    rewrite endsWithSlash_plain by done.
    unfold normalizeString. rewrite app_assoc_str, split_slash_app.
    rewrite (split_slash_plain seg) by done.
    rewrite fold_left_app. cbn [fold_left]. rewrite normalize_step_plain by done.
    cbn [rev]. rewrite join_slash_snoc.
    rewrite bool_decide_eq_false_2 by now apply app_not_empty.
    destruct (isAbsolute dir); [|reflexivity]. now rewrite !app_assoc_str.
Qed.

Lemma split_slash_segments (s : string) :
  Forall (fun seg => no_slash seg = true) (split_slash s).
Proof.
  induction s as [|c s IH]; [repeat constructor|].
  rewrite split_slash_cons. case_bool_decide as Hc; [now constructor|].
  destruct (split_slash s) as [|seg rest].
  - constructor; [|constructor]. rewrite no_slash_cons. now rewrite bool_decide_eq_false_2.
  - inversion IH as [|? ? Hseg Hrest]; subst. constructor; [|done].
    rewrite no_slash_cons, Hseg. now rewrite bool_decide_eq_false_2.
Qed.

Lemma stack_ok_dotdots (stack : list string) :
  Forall (fun seg => seg = "..") stack -> stack_ok true stack.
Proof.
  induction 1 as [|top rest Htop Hrest IH]; [exact I|]. right. auto.
Qed.

Lemma plain_not_dotdot (seg : string) : plain_segment seg -> seg <> "..".
Proof. now intros (_ & _ & _ & H). Qed.

Lemma normalize_step_ok (allowAboveRoot : bool) (stack : list string) (seg : string) :
  no_slash seg = true -> stack_ok allowAboveRoot stack ->
  stack_ok allowAboveRoot (normalize_step allowAboveRoot stack seg).
Proof.
  intros Hseg Hstack. unfold normalize_step.
  destruct (bool_decide (seg = "") || bool_decide (seg = ".")) eqn:Hskip; [done|].
  apply orb_false_iff in Hskip as [He%bool_decide_eq_false Hd%bool_decide_eq_false].
  case_bool_decide as Hdd.
  - destruct stack as [|top rest].
    + destruct allowAboveRoot; [|exact I]. right. split; [done|]. split; [done|]. constructor.
    + destruct Hstack as [[Hplain Hrest] | (-> & Hallow & Hrest)].
      * rewrite bool_decide_eq_false_2 by now apply plain_not_dotdot. exact Hrest.
      * rewrite bool_decide_eq_true_2 by done. rewrite Hallow.
        right. split; [done|]. split; [done|]. now constructor.
  - left. split; [|done]. repeat split; done.
Qed.

Lemma fold_normalize_ok (allowAboveRoot : bool) (segs stack : list string) :
  Forall (fun seg => no_slash seg = true) segs -> stack_ok allowAboveRoot stack ->
  stack_ok allowAboveRoot (fold_left (normalize_step allowAboveRoot) segs stack).
Proof.
  intros Hsegs. revert stack. induction Hsegs as [|seg segs Hseg _ IH]; intros stack Hstack.
  - exact Hstack.
  - cbn [fold_left]. apply IH. now apply normalize_step_ok.
Qed.

(** Normalizing the segments of a normalized stack gives the stack back. *)
Lemma stack_roundtrip (allowAboveRoot : bool) (stack : list string) :
  stack_ok allowAboveRoot stack ->
  fold_left (normalize_step allowAboveRoot) (rev stack) [] = stack.
Proof.
  induction stack as [|top rest IH]; [reflexivity|].
  intros [[Hplain Hrest] | (-> & -> & Hrest)]; cbn [rev]; rewrite fold_left_app; cbn [fold_left].
  - rewrite IH by done. now apply normalize_step_plain.
  - rewrite IH by now apply stack_ok_dotdots.
    unfold normalize_step. cbn [orb]. rewrite !bool_decide_eq_false_2 by done.
    rewrite bool_decide_eq_true_2 by done. cbn [orb].
    destruct Hrest as [|top rest Htop Hrest]; [reflexivity|].
    now rewrite bool_decide_eq_true_2.
Qed.

Lemma stack_ok_segments (allowAboveRoot : bool) (stack : list string) :
  stack_ok allowAboveRoot stack ->
  Forall (fun seg => no_slash seg = true /\ seg <> "") stack.
Proof.
  induction stack as [|top rest IH]; [constructor|].
  intros [[(Hslash & Hne & _) Hrest] | (-> & -> & Hrest)].
  - constructor; auto.
  - constructor; [done|]. apply IH. now apply stack_ok_dotdots.
Qed.

Lemma split_join_slash (segs : list string) :
  segs <> [] -> Forall (fun seg => no_slash seg = true) segs ->
  split_slash (join_slash segs) = segs.
Proof.
  intros Hne Hsegs. induction Hsegs as [|seg segs Hseg Hsegs IH]; [done|].
  rewrite join_slash_cons. destruct segs as [|next segs].
  - now apply split_slash_plain.
  - rewrite split_slash_app, IH by done. now rewrite split_slash_plain.
Qed.

Lemma isAbsolute_join_slash (seg : string) (segs : list string) :
  no_slash seg = true -> seg <> "" -> isAbsolute (join_slash (seg :: segs)) = false.
Proof.
  intros Hslash Hne. rewrite join_slash_cons.
  destruct segs; [now apply isAbsolute_plain|].
  rewrite isAbsolute_app by done. now apply isAbsolute_plain.
Qed.

Lemma joined_front_snoc (segs : list string) (seg : string) :
  joined_front (segs ++ [seg]) = joined_front segs +:+ seg +:+ "/".
Proof.
  unfold joined_front at 1. destruct (segs ++ [seg]) eqn:E.
  - now apply app_eq_nil in E as [_ [=]].
  - rewrite <- E, join_slash_snoc. now rewrite app_assoc_str.
Qed.

Lemma normalize_stack (dir : string) :
  stack_ok (negb (isAbsolute dir))
           (fold_left (normalize_step (negb (isAbsolute dir))) (split_slash dir) []).
Proof. apply fold_normalize_ok; [apply split_slash_segments|exact I]. Qed.

(** A normalized directory followed by a plain segment is normalized, so
    joining a further segment to it only appends. *)
Lemma join_prefix_of_stack (absolute : bool) (stack : list string) (seg : string) :
  stack_ok (negb absolute) stack -> plain_segment seg ->
  join_prefix (((if absolute then "/" else "") +:+ joined_front (rev stack)) +:+ seg)
  = ((if absolute then "/" else "") +:+ joined_front (rev stack)) +:+ seg +:+ "/".
Proof.
  intros Hstack Hplain. pose proof Hplain as (Hslash & Hne & _).
  assert (Hsegs : Forall (fun s => no_slash s = true /\ s <> "") (rev stack ++ [seg])).
  { apply Forall_app. split; [|now repeat constructor].
    apply Forall_rev. eapply stack_ok_segments, Hstack. }
  assert (Hslashes : Forall (fun s => no_slash s = true) (rev stack ++ [seg])).
  { eapply Forall_impl; [exact Hsegs|]. now intros s [H _]. }
  rewrite !app_assoc_str, <- join_slash_snoc.
  set (segs := rev stack ++ [seg]) in *.
  assert (Hcons : exists first others, segs = first :: others)
    by (unfold segs; destruct (rev stack); cbn [app]; eauto).
  destruct Hcons as (first & others & Hcons).
  assert (Hfirst : no_slash first = true /\ first <> "")
    by (rewrite Hcons in Hsegs; now inversion Hsegs).
  assert (Hrel : isAbsolute (join_slash segs) = false)
    by (rewrite Hcons; now apply isAbsolute_join_slash).
  assert (Hfold : forall b, b = negb absolute ->
            fold_left (normalize_step b) segs [] = seg :: stack).
  { intros b ->. unfold segs. rewrite fold_left_app, stack_roundtrip by done.
    cbn [fold_left]. now apply normalize_step_plain. }
  assert (Hnonempty : join_slash segs <> "").
  { rewrite Hcons, join_slash_cons. destruct others; [apply Hfirst|].
    destruct first; [now destruct Hfirst|discriminate]. }
  unfold join_prefix. destruct absolute; cbv iota.
  - rewrite app_cons, app_empty_l.
    rewrite bool_decide_eq_false_2 by discriminate.
    replace (isAbsolute (String "/" (join_slash segs))) with true by reflexivity.
    cbv iota. rewrite split_slash_cons.
    rewrite bool_decide_eq_true_2 by done. rewrite split_join_slash by (done || now rewrite Hcons).
    cbn [fold_left]. unfold normalize_step at 2. rewrite bool_decide_eq_true_2 by done.
    cbn [orb]. rewrite Hfold by done. cbn [rev].
    now rewrite joined_front_snoc.
  - rewrite !app_empty_l. rewrite bool_decide_eq_false_2 by done.
    rewrite Hrel. rewrite split_join_slash by (done || now rewrite Hcons).
    rewrite Hfold by done. cbn [rev].
    now rewrite joined_front_snoc.
Qed.

Lemma join_prefix_joined (dir seg : string) :
  plain_segment seg ->
  join_prefix (join_prefix dir +:+ seg) = join_prefix dir +:+ seg +:+ "/".
Proof.
  intros Hplain. unfold join_prefix at 2 3. case_bool_decide as Hdir.
  - apply (join_prefix_of_stack false [] seg); [exact I|exact Hplain].
  - apply join_prefix_of_stack; [apply normalize_stack|exact Hplain].
Qed.

Lemma endsWithSlash_before_plain (s seg : string) :
  no_slash seg = true -> seg <> "" -> endsWithSlash (s +:+ seg) = false.
Proof. intros Hslash Hne. rewrite endsWithSlash_app by done. now apply endsWithSlash_plain. Qed.

Lemma join_two_segments (dir first second : string) :
  plain_segment first -> plain_segment second ->
  join [dir; first +:+ "/" +:+ second] = join_prefix dir +:+ first +:+ "/" +:+ second.
Proof.
  intros Hfirst Hsecond.
  pose proof Hfirst as (Hslash1 & Hne1 & _). pose proof Hsecond as (Hslash2 & Hne2 & _).
  assert (Hpair : first +:+ "/" +:+ second <> "") by (destruct first; done).
  unfold join, join_prefix. cbn [List.filter].
  rewrite (bool_decide_eq_false_2 (_ +:+ _ = "")) by done. cbn [negb].
  case_bool_decide as Hdir; cbn [negb].
  - rewrite join_slash_cons. unfold normalize.
    rewrite bool_decide_eq_false_2 by done.
    rewrite isAbsolute_app, isAbsolute_plain by done.
    replace (endsWithSlash (first +:+ "/" +:+ second)) with false
      by (rewrite <- app_assoc_str; now rewrite endsWithSlash_before_plain).
    cbn [negb]. unfold normalizeString.
    rewrite split_slash_app, !split_slash_plain by done. cbn [app fold_left].
    rewrite !normalize_step_plain by done. cbn [rev app join_slash].
    now rewrite bool_decide_eq_false_2.
  - rewrite !join_slash_cons. unfold normalize.
    rewrite bool_decide_eq_false_2 by (destruct dir; done).
    rewrite isAbsolute_app by done.
    replace (endsWithSlash (dir +:+ "/" +:+ first +:+ "/" +:+ second)) with false
      by (rewrite <- !app_assoc_str; now rewrite endsWithSlash_before_plain).
    unfold normalizeString.
    rewrite !split_slash_app, (split_slash_plain first), (split_slash_plain second) by done.
    rewrite !fold_left_app. cbn [fold_left]. rewrite !normalize_step_plain by done.
    cbn [rev]. rewrite join_slash_snoc, joined_front_snoc.
    rewrite bool_decide_eq_false_2 by now apply app_not_empty.
    destruct (isAbsolute dir); now rewrite !app_assoc_str.
Qed.

(** The dirty check and the store name the same manifest document. *)
Lemma manifest_path_join (projectDir : string) :
  join [join [projectDir; ".expo-shared"]; "assets.json"]
  = join [projectDir; ".expo-shared/assets.json"].
Proof.
  assert (Hdir : plain_segment ".expo-shared") by (repeat split; done).
  assert (Hfile : plain_segment "assets.json") by (repeat split; done).
  rewrite (join_plain_segment projectDir) by done.
  rewrite join_plain_segment, join_prefix_joined by done.
  change ".expo-shared/assets.json" with (".expo-shared" +:+ "/" +:+ "assets.json").
  rewrite join_two_segments by done. now rewrite !app_assoc_str.
Qed.

Lemma join_prefix_shape (dir : string) :
  join_prefix dir = "" \/ endsWithSlash (join_prefix dir) = true.
Proof.
  unfold join_prefix. case_bool_decide; [by left|].
  set (segs := rev _). destruct segs as [|x segs].
  - destruct (isAbsolute dir); [by right|by left].
  - right. unfold joined_front. rewrite <- app_assoc_str. now rewrite endsWithSlash_app.
Qed.

Lemma backup_name_plain (name ext : string) :
  no_slash (name +:+ ext) = true -> plain_segment (name +:+ ".orig" +:+ ext).
Proof.
  rewrite no_slash_app. intros [Hname Hext]%andb_true_iff. split.
  - now rewrite !no_slash_app, Hname, Hext.
  - destruct name as [|a [|b [|c name]]]; repeat split; discriminate.
Qed.

Lemma base_name_plain (name ext : string) :
  no_slash (name +:+ ext) = true -> name <> "" -> ext <> "" ->
  name +:+ ext <> ".." -> plain_segment (name +:+ ext).
Proof.
  intros Hslash Hname Hext Hdd. repeat split; [done| | |done].
  - destruct name; [done|discriminate].
  - destruct name as [|a [|b name]]; [done| |discriminate].
    destruct ext; [done|discriminate].
Qed.

Lemma list_of_string_app (s t : string) :
  list_ascii_of_string (s +:+ t) = list_ascii_of_string s ++ list_ascii_of_string t.
Proof.
  induction s as [|c s IH]; [reflexivity|].
  rewrite app_cons. cbn [list_ascii_of_string app]. now rewrite IH.
Qed.

Lemma span_until_all (c : ascii) (l : list ascii) :
  Forall (fun x => x <> c) l -> span_until c l = (l, []).
Proof.
  induction 1 as [|x l Hx _ IH]; [reflexivity|].
  cbn [span_until]. rewrite bool_decide_eq_false_2 by done. now rewrite IH.
Qed.

Lemma span_until_stop (c : ascii) (pre post : list ascii) :
  Forall (fun x => x <> c) pre -> span_until c (pre ++ c :: post) = (pre, c :: post).
Proof.
  induction 1 as [|x l Hx _ IH]; cbn [app span_until].
  - now rewrite bool_decide_eq_true_2.
  - rewrite bool_decide_eq_false_2 by done. now rewrite IH.
Qed.

(** The extension [split_ext] reports starts at the last dot of the base
    name. *)
Lemma split_ext_shape (guard : bool) (base_rev name ext : list ascii) :
  split_ext guard base_rev = (name, ext) -> ext <> [] ->
  exists rest, ext = "."%char :: rest /\ Forall (fun x => x <> "."%char) rest.
Proof.
  unfold split_ext. destruct (span_until "." base_rev) as [ext_rev rest] eqn:E.
  apply span_until_spec in E as (-> & Hext & _).
  destruct rest as [|dot [|c name_rev]]; try (intros [= <- <-]; done).
  destruct (_ && _ && _); intros [= <- <-]; [done|]. intros _.
  exists (rev ext_rev). split; [done|]. now apply Forall_rev.
Qed.

(** What [parse] tells about a path whose base name has an extension, on
    the characters of the name and of the extension. *)
Lemma parse_extension_chars (path : string) :
  ext (parse path) <> "" ->
  exists name_chars ext_chars,
    name (parse path) = string_of_list_ascii name_chars /\
    ext (parse path) = string_of_list_ascii ("."%char :: ext_chars) /\
    name_chars <> [] /\
    Forall (fun x => x <> "/"%char) (name_chars ++ "."%char :: ext_chars) /\
    Forall (fun x => x <> "."%char) ext_chars.
Proof.
  unfold parse. destruct (list_ascii_of_string path) as [|first others]; [done|].
  set (scanned := if bool_decide (first = "/"%char) then others else first :: others).
  destruct (drop_slashes (rev scanned)) as [|t trimmed]; [done|].
  destruct (span_until "/" (t :: trimmed)) as [base_rev before] eqn:E.
  apply span_until_spec in E as (_ & Hbase & _).
  destruct (split_ext _ base_rev) as [name_chars ext_chars] eqn:S.
  cbn [ext name]. intros Hne.
  assert (Hext : ext_chars <> []) by (intros ->; now apply Hne).
  destruct (split_ext_shape _ _ _ _ S Hext) as (rest & -> & Hrest).
  apply split_ext_spec in S as [Happ Hname].
  exists name_chars, rest. repeat split; try done.
  - now apply Hname.
  - rewrite Happ. now apply Forall_rev.
Qed.

Lemma parse_unfold (path : string) (first : ascii) (others : list ascii)
    (t : ascii) (trimmed base_rev before name_chars ext_chars : list ascii) :
  list_ascii_of_string path = first :: others ->
  drop_slashes (rev (if bool_decide (first = "/"%char) then others else first :: others))
    = t :: trimmed ->
  span_until "/" (t :: trimmed) = (base_rev, before) ->
  split_ext (negb (bool_decide (first = "/"%char) && bool_decide (before = []))) base_rev
    = (name_chars, ext_chars) ->
  base (parse path) = string_of_list_ascii (rev base_rev) /\
  name (parse path) = string_of_list_ascii name_chars /\
  ext (parse path) = string_of_list_ascii ext_chars.
Proof.
  intros Hchars Hdrop Hspan Hsplit. unfold parse.
  rewrite Hchars, Hdrop, Hspan, Hsplit. repeat split.
Qed.

Lemma drop_slashes_keep (x : ascii) (l : list ascii) :
  x <> "/"%char -> drop_slashes (x :: l) = x :: l.
Proof. intros Hx. cbn [drop_slashes]. now rewrite bool_decide_eq_false_2. Qed.

Lemma endsWithSlash_chars (s : string) :
  endsWithSlash s = true -> exists front, list_ascii_of_string s = front ++ ["/"%char].
Proof.
  induction s as [|c s IH]; [discriminate|].
  rewrite endsWithSlash_cons. destruct s as [|d s].
  - intros ->%bool_decide_eq_true. now exists [].
  - intros [front Hfront]%IH. exists (c :: front).
    cbn [list_ascii_of_string app] in *. now rewrite Hfront.
Qed.

(** [parse] on a path made of a directory prefix and a base name. *)
Lemma parse_prefixed (prefix : string) (name_chars ext_chars : list ascii) :
  prefix = "" \/ endsWithSlash prefix = true ->
  name_chars <> [] -> name_chars <> ["."%char] ->
  Forall (fun x => x <> "/"%char) (name_chars ++ "."%char :: ext_chars) ->
  Forall (fun x => x <> "."%char) ext_chars ->
  let parsed := parse (prefix +:+ string_of_list_ascii (name_chars ++ "."%char :: ext_chars)) in
  base parsed = string_of_list_ascii (name_chars ++ "."%char :: ext_chars) /\
  name parsed = string_of_list_ascii name_chars /\
  ext parsed = string_of_list_ascii ("."%char :: ext_chars).
Proof.
  intros Hprefix Hname Hdot Hslash Hext parsed.
  set (seg := name_chars ++ "."%char :: ext_chars) in *.
  assert (Hrev : rev seg = rev ext_chars ++ "."%char :: rev name_chars).
  { unfold seg. rewrite rev_app_distr. cbn [rev]. now rewrite <- app_assoc. }
  assert (Hrevslash : Forall (fun x => x <> "/"%char) (rev seg)) by now apply Forall_rev.
  assert (Hlast : exists x l, rev seg = x :: l /\ x <> "/"%char).
  { destruct (rev seg) as [|x l] eqn:E.
    - symmetry in Hrev. now apply app_eq_nil in Hrev as [_ [=]].
    - exists x, l. split; [done|]. now inversion Hrevslash. }
  destruct Hlast as (x & l & Hxl & Hx).
  (* the characters that [parse] scans: a part of the prefix, then the base name *)
  assert (Hscan : exists first others kept,
             list_ascii_of_string (prefix +:+ string_of_list_ascii seg) = first :: others /\
             (if bool_decide (first = "/"%char) then others else first :: others)
             = kept ++ seg /\
             (kept = [] \/ exists kept', kept = kept' ++ ["/"%char])).
  { rewrite list_of_string_app, list_ascii_of_string_of_list_ascii.
    destruct Hprefix as [-> | [front Hfront]%endsWithSlash_chars].
    - cbn [list_ascii_of_string app].
      destruct seg as [|first others] eqn:E; [now destruct name_chars|].
      exists first, others, []. split; [done|]. split; [|by left].
      rewrite bool_decide_eq_false_2; [done|]. now inversion Hslash.
    - rewrite Hfront. destruct front as [|first front]; cbn [app].
      + exists "/"%char, seg, []. rewrite bool_decide_eq_true_2 by done. auto.
      + exists first, ((front ++ ["/"%char]) ++ seg). case_bool_decide.
        * exists (front ++ ["/"%char]). eauto.
        * exists (first :: front ++ ["/"%char]). split; [done|]. split; [done|].
          right. now exists (first :: front). }
  destruct Hscan as (first & others & kept & Hchars & Hscanned & Hkept).
  assert (Hspan : exists before,
             span_until "/" (rev seg ++ rev kept) = (rev seg, before)).
  { destruct Hkept as [-> | [kept' ->]].
    - exists []. cbn [rev]. rewrite app_nil_r. now apply span_until_all.
    - exists ("/"%char :: rev kept'). rewrite rev_app_distr. cbn [rev app].
      now apply span_until_stop. }
  destruct Hspan as [before Hspan].
  assert (Hsplit : forall guard,
             split_ext guard (rev seg) = (name_chars, "."%char :: ext_chars)).
  { intros guard. unfold split_ext. rewrite Hrev.
    rewrite span_until_stop by now apply Forall_rev.
    destruct (rev name_chars) as [|c name_rev] eqn:E.
    - apply (f_equal (@rev ascii)) in E. rewrite rev_involutive in E. now destruct Hname.
    - assert (Hne : c :: name_rev <> ["."%char]).
      { intros H. rewrite H in E. apply (f_equal (@rev ascii)) in E.
        rewrite rev_involutive in E. now destruct Hdot. }
      rewrite (bool_decide_eq_false_2 (c :: name_rev = _)) by done.
      rewrite andb_false_r. cbn [andb]. rewrite <- E, !rev_involutive. reflexivity. }
  destruct (parse_unfold _ first others x (l ++ rev kept) (rev seg) before
              name_chars ("."%char :: ext_chars) Hchars) as (Hb & Hn & He).
  - rewrite Hscanned, rev_app_distr, Hxl. cbn [app]. now apply drop_slashes_keep.
  - rewrite <- Hspan, Hxl. reflexivity.
  - apply Hsplit.
  - unfold parsed. rewrite Hb, Hn, He, rev_involutive. auto.
Qed.

Lemma backup_chars (name_chars ext_chars : list ascii) :
  name_chars <> [] ->
  Forall (fun x => x <> "/"%char) (name_chars ++ "."%char :: ext_chars) ->
  let orig := list_ascii_of_string ".orig" in
  name_chars ++ orig <> [] /\ name_chars ++ orig <> ["."%char] /\
  Forall (fun x => x <> "/"%char) ((name_chars ++ orig) ++ "."%char :: ext_chars).
Proof.
  intros Hname Hslash orig. repeat split.
  - now destruct name_chars.
  - destruct name_chars as [|c [|d l]]; done.
  - apply Forall_app in Hslash as [Hn He].
    rewrite !Forall_app. repeat split; [done| |done].
    unfold orig. cbn. repeat constructor; discriminate.
Qed.

(** C9. [createNewFilename "/a/b/photo.png"] is ["/a/b/photo.orig.png"],
    and for every path whose base name has an extension the result is the
    directory part as [path.join] writes it, then the name, [".orig"] and
    the extension: [".orig"] is inserted before the final extension of the
    base name, and the result parses to that base name with the same
    extension. A path that [path.join] leaves as it is gets [".orig"]
    inserted in place. *)
Theorem createNewFilename_inserts_orig :
  AssetUtils.createNewFilename "/a/b/photo.png" = "/a/b/photo.orig.png" /\
  forall path,
    let parsed := parse path in
    let backup := parse (AssetUtils.createNewFilename path) in
    ext parsed <> "" ->
    exists prefix,
      AssetUtils.createNewFilename path
        = prefix +:+ name parsed +:+ ".orig" +:+ ext parsed /\
      base parsed = name parsed +:+ ext parsed /\
      no_slash (name parsed +:+ ".orig" +:+ ext parsed) = true /\
      (prefix = "" \/ endsWithSlash prefix = true) /\
      (forall seg, plain_segment seg -> join [dir parsed; seg] = prefix +:+ seg) /\
      (join [dir parsed; base parsed] = path ->
       path = prefix +:+ name parsed +:+ ext parsed) /\
      base backup = name parsed +:+ ".orig" +:+ ext parsed /\
      name backup = name parsed +:+ ".orig" /\
      ext backup = ext parsed.
Proof.
  split; [reflexivity|]. intros path parsed backup Hext.
  destruct (parse_extension_facts path Hext) as (Hbase & Hslash & Hname & Hdd).
  fold parsed in Hbase, Hslash, Hname, Hdd. rewrite Hbase in Hslash.
  pose proof (backup_name_plain _ _ Hslash) as Hbackup.
  assert (Hresult : AssetUtils.createNewFilename path
                    = join_prefix (dir parsed) +:+ name parsed +:+ ".orig" +:+ ext parsed).
  { unfold AssetUtils.createNewFilename. fold parsed. now apply join_plain_segment. }
  exists (join_prefix (dir parsed)).
  split; [exact Hresult|]. split; [exact Hbase|]. split; [apply Hbackup|].
  split; [apply join_prefix_shape|].
  split; [intros seg Hseg; now apply join_plain_segment|]. split.
  - intros Hjoin. destruct (decide (base parsed = "..")) as [Hdots|Hdots].
    + rewrite Hdots, (Hdd Hdots) in Hjoin. subst path. now contradict Hext.
    + rewrite <- Hjoin at 1. rewrite Hbase. apply join_plain_segment.
      apply base_name_plain; try done. now rewrite <- Hbase.
  - destruct (parse_extension_chars path Hext)
      as (name_chars & ext_chars & Hn & He & Hne & Hchars & Hdots).
    fold parsed in Hn, He.
    destruct (backup_chars name_chars ext_chars Hne Hchars) as (H1 & H2 & H3).
    pose proof (parse_prefixed (join_prefix (dir parsed)) _ ext_chars
                  (join_prefix_shape _) H1 H2 H3 Hdots) as Hparse.
    cbv zeta in Hparse.
    replace (join_prefix (dir parsed) +:+ string_of_list_ascii
               ((name_chars ++ list_ascii_of_string ".orig") ++ "."%char :: ext_chars))
      with (AssetUtils.createNewFilename path) in Hparse.
    2: { rewrite Hresult, Hn, He, !string_of_list_app.
         now rewrite string_of_list_ascii_of_string, app_assoc_str. }
    fold backup in Hparse. destruct Hparse as (Hb & Hnm & Hex).
    rewrite Hb, Hnm, Hex, Hn, He, !string_of_list_app.
    now rewrite string_of_list_ascii_of_string, app_assoc_str.
Qed.

Lemma createNewFilename_inserts_orig_witness :
  let parsed := parse "assets/icons/Logo.v2.PNG" in
  let backup := parse (AssetUtils.createNewFilename "assets/icons/Logo.v2.PNG") in
  ext parsed <> "" /\
  exists prefix,
    AssetUtils.createNewFilename "assets/icons/Logo.v2.PNG"
      = prefix +:+ name parsed +:+ ".orig" +:+ ext parsed /\
    base parsed = name parsed +:+ ext parsed /\
    no_slash (name parsed +:+ ".orig" +:+ ext parsed) = true /\
    (prefix = "" \/ endsWithSlash prefix = true) /\
    (forall seg, plain_segment seg -> join [dir parsed; seg] = prefix +:+ seg) /\
    (join [dir parsed; base parsed] = "assets/icons/Logo.v2.PNG" ->
     "assets/icons/Logo.v2.PNG" = prefix +:+ name parsed +:+ ext parsed) /\
    base backup = name parsed +:+ ".orig" +:+ ext parsed /\
    name backup = name parsed +:+ ".orig" /\
    ext backup = ext parsed.
Proof.
  intros parsed backup.
  assert (H : ext parsed <> "") by discriminate.
  exact (conj H (proj2 createNewFilename_inserts_orig "assets/icons/Logo.v2.PNG" H)).
Defined.

Lemma no_slash_chars (s : string) :
  no_slash s = true -> Forall (fun x => x <> "/"%char) (list_ascii_of_string s).
Proof.
  induction s as [|c s IH]; [constructor|].
  rewrite no_slash_cons. intros [Hc Hs]%andb_true_iff. cbn [list_ascii_of_string].
  constructor; [|now apply IH]. now apply negb_true_iff, bool_decide_eq_false in Hc.
Qed.

Lemma list_of_string_nil (s : string) : list_ascii_of_string s = [] -> s = "".
Proof. destruct s; [done|discriminate]. Qed.

(** The parent of a path that ends in a separator and a plain segment is
    what stands before that separator. *)
Lemma parentOf_child (c : ascii) (rest seg : string) :
  rest <> "" -> no_slash seg = true -> seg <> "" ->
  Fs.parentOf (String c rest +:+ "/" +:+ seg) = String c rest.
Proof.
  intros Hrest Hslash Hne. unfold Fs.parentOf.
  rewrite app_cons. cbn [list_ascii_of_string].
  rewrite list_of_string_app.
  change (list_ascii_of_string ("/" +:+ seg)) with ("/"%char :: list_ascii_of_string seg).
  rewrite rev_app_distr. cbn [rev]. rewrite <- app_assoc. cbn [app].
  assert (Hchars : Forall (fun x => x <> "/"%char) (rev (list_ascii_of_string seg)))
    by now apply Forall_rev, no_slash_chars.
  destruct (rev (list_ascii_of_string seg)) as [|x l] eqn:E.
  { apply (f_equal (@rev ascii)) in E. rewrite rev_involutive in E.
    now apply list_of_string_nil in E. }
  cbn [app]. rewrite drop_slashes_keep by now inversion Hchars.
  change (x :: l ++ "/"%char :: rev (list_ascii_of_string rest))
    with ((x :: l) ++ "/"%char :: rev (list_ascii_of_string rest)).
  rewrite span_until_stop by done.
  rewrite (bool_decide_eq_false_2 (rev _ = [])).
  - rewrite andb_false_r, rev_involutive. cbn [string_of_list_ascii].
    now rewrite string_of_list_ascii_of_string.
  - intros H. apply (f_equal (@rev ascii)) in H. rewrite rev_involutive in H.
    now apply list_of_string_nil in H.
Qed.

(** The manifest document lies in the [.expo-shared] directory. *)
Lemma parentOf_manifest (projectDir : string) :
  Fs.parentOf (join [projectDir; ".expo-shared/assets.json"])
  = join [projectDir; ".expo-shared"].
Proof.
  assert (Hdir : plain_segment ".expo-shared") by (repeat split; done).
  assert (Hfile : plain_segment "assets.json") by (repeat split; done).
  change ".expo-shared/assets.json" with (".expo-shared" +:+ "/" +:+ "assets.json").
  rewrite join_two_segments, join_plain_segment by done.
  rewrite <- app_assoc_str.
  destruct (join_prefix projectDir) as [|c prefix].
  - now apply (parentOf_child "." "expo-shared").
  - rewrite app_cons. apply parentOf_child; [|done|done].
    now apply app_not_empty.
Qed.

Lemma manifest_differs_from_directory (projectDir : string) :
  join [projectDir; ".expo-shared/assets.json"] <> join [projectDir; ".expo-shared"].
Proof.
  assert (Hdir : plain_segment ".expo-shared") by (repeat split; done).
  change ".expo-shared/assets.json" with (".expo-shared" +:+ "/" +:+ "assets.json").
  rewrite join_two_segments, join_plain_segment by (done || (repeat split; done)).
  intros H%(inj (String.append _)). discriminate.
Qed.

End Paths.

(** ** The optimization-state store and the dirty check *)

Section Store.
Import JsString AssetUtils.

Lemma bind_run {A B : Type} (m : Async A) (k : A -> Async B) (w : World) :
  (m ≫= k) w =
  match m w with
  | (Ok a, w') => k a w'
  | (Throw e, w') => (Throw e, w')
  end.
Proof. reflexivity. Qed.

Lemma ret_run {A : Type} (a : A) (w : World) : (mret a : Async A) w = (Ok a, w).
Proof. reflexivity. Qed.

Lemma calculateHash_run (env : Env) (file : string) (w : World) :
  calculateHash env file w = (digestOf env w file, w).
Proof.
  unfold digestOf, calculateHash. rewrite bind_run. unfold Fs.readFileSync.
  destruct (files w !! file) as [[contents|]|]; reflexivity.
Qed.

Lemma notRecorded_true (assetInfo : AssetOptimizationState) (hash : string) :
  notRecorded assetInfo hash = true <-> assetInfo !! hash <> Some true.
Proof. unfold notRecorded. destruct (assetInfo !! hash) as [[]|]; split; congruence. Qed.

Lemma notRecorded_false (assetInfo : AssetOptimizationState) (hash : string) :
  notRecorded assetInfo hash = false <-> assetInfo !! hash = Some true.
Proof. unfold notRecorded. destruct (assetInfo !! hash) as [[]|]; split; congruence. Qed.

Lemma scanSelected_cons (env : Env) (assetInfo : AssetOptimizationState)
    (file : string) (rest : list string) (w : World) :
  scanSelected env assetInfo (file :: rest) w =
  match digestOf env w file with
  | Ok hash => if notRecorded assetInfo hash then (Ok true, w)
               else scanSelected env assetInfo rest w
  | Throw e => (Throw e, w)
  end.
Proof.
  cbn [scanSelected]. rewrite bind_run, calculateHash_run.
  destruct (digestOf env w file) as [hash|e]; [|reflexivity].
  now destruct (notRecorded assetInfo hash).
Qed.

(** The loop stops with [true] at the first file whose digest is not
    recorded as optimized; the files after it are never read. *)
Lemma scanSelected_hit (env : Env) (assetInfo : AssetOptimizationState) (w : World)
    (before : list string) (file : string) (after : list string) (hash : string) :
  (forall earlier, earlier ∈ before -> exists h, digestOf env w earlier = Ok h) ->
  digestOf env w file = Ok hash ->
  assetInfo !! hash <> Some true ->
  scanSelected env assetInfo (before ++ file :: after) w = (Ok true, w).
Proof.
  intros Hbefore Hfile Hhash. induction before as [|g before IH]; cbn [app].
  - rewrite scanSelected_cons, Hfile.
    now apply notRecorded_true in Hhash as ->.
  - rewrite scanSelected_cons.
    destruct (Hbefore g) as [h ->]; [by left|].
    destruct (notRecorded assetInfo h); [reflexivity|].
    apply IH. intros earlier Hin. apply Hbefore. now right.
Qed.

Lemma scanSelected_all_recorded (env : Env) (assetInfo : AssetOptimizationState)
    (w : World) (selected : list string) :
  (forall file, file ∈ selected ->
      exists h, digestOf env w file = Ok h /\ assetInfo !! h = Some true) ->
  scanSelected env assetInfo selected w = (Ok false, w).
Proof.
  induction selected as [|g selected IH]; intros Hall; [reflexivity|].
  rewrite scanSelected_cons.
  destruct (Hall g) as (h & -> & Hh); [by left|].
  apply notRecorded_false in Hh as ->.
  apply IH. intros file Hin. apply Hall. now right.
Qed.

Lemma scanSelected_readable (env : Env) (assetInfo : AssetOptimizationState)
    (w : World) (selected : list string) :
  (forall file, file ∈ selected -> exists h, digestOf env w file = Ok h) ->
  exists answer,
    scanSelected env assetInfo selected w = (Ok answer, w) /\
    (answer = true <->
     exists file h, file ∈ selected /\ digestOf env w file = Ok h
                    /\ assetInfo !! h <> Some true).
Proof.
  induction selected as [|g selected IH]; intros Hall.
  - exists false. split; [reflexivity|]. split; [discriminate|].
    intros (file & h & Hin & _). now apply elem_of_nil in Hin.
  - rewrite scanSelected_cons. destruct (Hall g) as [h Hg]; [by left|]. rewrite Hg.
    destruct (notRecorded assetInfo h) eqn:E.
    + exists true. split; [reflexivity|]. split; [|done]. intros _.
      exists g, h. repeat split; [by left|done|]. now apply notRecorded_true.
    + destruct IH as (answer & Hrun & Hiff); [intros file Hin; apply Hall; by right|].
      exists answer. split; [exact Hrun|]. rewrite Hiff. split.
      * intros (file & h' & Hin & Hd & Hr). exists file, h'. split; [by right|done].
      * intros (file & h' & Hin & Hd & Hr). apply elem_of_cons in Hin as [-> | Hin].
        -- rewrite Hg in Hd. injection Hd as <-. now apply notRecorded_false in E.
        -- exists file, h'. done.
Qed.

Lemma hasUnoptimized_without_manifest (env : Env) (projectDir : string)
    (options : option OptimizationOptions) (w : World) :
  files w !! NodePath.join [projectDir; ".expo-shared/assets.json"] = None ->
  hasUnoptimizedAssetsAsync env projectDir options w = (Ok true, w).
Proof.
  intros Hnone. unfold hasUnoptimizedAssetsAsync. rewrite bind_run.
  unfold Fs.existsSync. rewrite Hnone.
  rewrite bool_decide_eq_false_2 by (intros [? ?]; discriminate). reflexivity.
Qed.

Lemma hasUnoptimized_with_manifest (env : Env) (projectDir : string)
    (options : option OptimizationOptions) (w w' : World) (node : FsNode)
    (result : AssetFiles) (loaded : JsonFile.t * AssetOptimizationState) :
  files w !! NodePath.join [projectDir; ".expo-shared/assets.json"] = Some node ->
  getAssetFilesAsync env projectDir options = Ok result ->
  readAssetJsonAsync env projectDir w = (Ok loaded, w') ->
  hasUnoptimizedAssetsAsync env projectDir options w
  = scanSelected env (snd loaded) (selectedFiles result) w'.
Proof.
  intros Hsome Hfiles Hload. unfold hasUnoptimizedAssetsAsync. rewrite bind_run.
  unfold Fs.existsSync. rewrite Hsome.
  rewrite bool_decide_eq_true_2 by eauto. cbn [negb].
  rewrite bind_run. unfold async_lift. rewrite Hfiles.
  rewrite bind_run, Hload. reflexivity.
Qed.

Lemma readAssetJsonAsync_existing (env : Env) (projectDir : string) (w : World)
    (contents : string) :
  let manifest := NodePath.join [projectDir; ".expo-shared/assets.json"] in
  files w !! manifest = Some (File contents) ->
  is_Some (files w !! NodePath.join [projectDir; ".expo-shared"]) ->
  readAssetJsonAsync env projectDir w =
  match json_parse env contents with
  | Some record => (Ok ({| JsonFile.file := manifest |}, record), w)
  | None => (Throw (JsonFileError manifest), w)
  end.
Proof.
  intros manifest Hfile Hdir. unfold readAssetJsonAsync.
  rewrite manifest_path_join. fold manifest.
  rewrite bind_run. unfold Fs.existsSync at 1.
  rewrite bool_decide_eq_true_2 by done. cbn [negb].
  rewrite bind_run, ret_run, bind_run. unfold Fs.existsSync at 1. cbn [JsonFile.file].
  rewrite Hfile, bool_decide_eq_true_2 by eauto. cbn [negb].
  rewrite bind_run, ret_run, bind_run.
  unfold JsonFile.readAsync. rewrite bind_run. unfold Fs.readFileSync.
  cbn [JsonFile.file]. rewrite Hfile.
  now destruct (json_parse env contents).
Qed.

Lemma world_eta (w : World) : {| files := files w; logged := logged w |} = w.
Proof. now destruct w. Qed.

Lemma parentError_manifest (projectDir : string) (w : World) :
  Fs.parentError (NodePath.join [projectDir; ".expo-shared/assets.json"]) w =
  match files w !! NodePath.join [projectDir; ".expo-shared"] with
  | Some Directory => None
  | Some (File _) => Some (ENOTDIR (NodePath.join [projectDir; ".expo-shared/assets.json"]))
  | None => Some (ENOENT (NodePath.join [projectDir; ".expo-shared/assets.json"]))
  end.
Proof. unfold Fs.parentError. now rewrite parentOf_manifest. Qed.

(** The part of a load that follows the directory check. *)
Lemma load_document_run (env : Env) (projectDir : string) (w : World) :
  let dirPath := NodePath.join [projectDir; ".expo-shared"] in
  let manifest := NodePath.join [projectDir; ".expo-shared/assets.json"] in
  let assetJson := {| JsonFile.file := manifest |} in
  (fileExists ← Fs.existsSync (JsonFile.file assetJson);
   (if negb fileExists
    then logger_info creating_message;; JsonFile.writeAsync env assetJson ∅
    else mret tt);;
   assetInfo ← JsonFile.readAsync env assetJson;
   mret (assetJson, assetInfo)) w
  = load_document env dirPath manifest (files w) (logged w).
Proof.
  intros dirPath manifest assetJson. unfold load_document.
  subst assetJson. rewrite bind_run. unfold Fs.existsSync at 1. cbn [JsonFile.file].
  pose proof (parentError_manifest projectDir) as Hparent. fold dirPath manifest in Hparent.
  destruct (files w !! manifest) as [[contents|]|] eqn:E.
  - rewrite bool_decide_eq_true_2 by eauto. cbn [negb].
    rewrite bind_run, ret_run, bind_run. unfold JsonFile.readAsync. rewrite bind_run.
    unfold Fs.readFileSync. cbn [JsonFile.file]. rewrite E, world_eta.
    unfold parsed_manifest. now destruct (json_parse env contents).
  - rewrite bool_decide_eq_true_2 by eauto. cbn [negb].
    rewrite bind_run, ret_run, bind_run. unfold JsonFile.readAsync. rewrite bind_run.
    unfold Fs.readFileSync. cbn [JsonFile.file]. now rewrite E, world_eta.
  - rewrite bool_decide_eq_false_2 by (intros [? ?]; discriminate). cbn [negb].
    rewrite !bind_run. unfold logger_info at 1, JsonFile.writeAsync at 1, Fs.writeFile at 1.
    cbn [JsonFile.file]. rewrite Hparent. cbn [files logged].
    destruct (files w !! dirPath) as [[data|]|]; [reflexivity| |reflexivity].
    rewrite E. unfold JsonFile.readAsync, Fs.readFileSync. rewrite !bind_run.
    cbn [JsonFile.file files]. rewrite lookup_insert_eq.
    unfold parsed_manifest. now destruct (json_parse env _).
Qed.

(** What a load does, by the state of the [.expo-shared] directory, of
    its parent and of the manifest document. *)
Lemma readAssetJsonAsync_run (env : Env) (projectDir : string) (w : World) :
  let dirPath := NodePath.join [projectDir; ".expo-shared"] in
  let manifest := NodePath.join [projectDir; ".expo-shared/assets.json"] in
  readAssetJsonAsync env projectDir w =
  match files w !! dirPath with
  | Some _ => load_document env dirPath manifest (files w) (logged w)
  | None =>
      match Fs.parentError dirPath w with
      | Some e => (Throw e, w)
      | None =>
          load_document env dirPath manifest (<[dirPath := Directory]> (files w)) (logged w)
      end
  end.
Proof.
  intros dirPath manifest. unfold readAssetJsonAsync.
  rewrite manifest_path_join. fold dirPath manifest.
  rewrite bind_run. unfold Fs.existsSync at 1.
  destruct (files w !! dirPath) as [node|] eqn:E.
  - rewrite bool_decide_eq_true_2 by eauto. cbn [negb]. rewrite bind_run, ret_run.
    apply (load_document_run env projectDir w).
  - rewrite bool_decide_eq_false_2 by (intros [? ?]; discriminate). cbn [negb].
    rewrite bind_run. unfold Fs.mkdirSync at 1.
    destruct (Fs.parentError dirPath w) as [e|]; [reflexivity|]. rewrite E.
    pose proof (load_document_run env projectDir
                  {| files := <[dirPath := Directory]> (files w); logged := logged w |})
      as Hrun.
    cbv zeta in Hrun. cbn [files logged] in Hrun. exact Hrun.
Qed.

(** C7. Loading a manifest document that exists but does not parse
    throws; no record, empty or other, is returned, and the document is
    still there with its contents afterwards. The error is that of the
    document helper whenever the [.expo-shared] directory is there (or can
    be made). A dirty check over such a project throws as well. *)
Theorem corrupt_manifest_is_fatal (env : Env) (projectDir : string) (w : World)
    (contents : string) :
  let manifest := NodePath.join [projectDir; ".expo-shared/assets.json"] in
  let dirPath := NodePath.join [projectDir; ".expo-shared"] in
  files w !! manifest = Some (File contents) ->
  json_parse env contents = None ->
  (exists e w',
     readAssetJsonAsync env projectDir w = (Throw e, w') /\
     files w' !! manifest = Some (File contents) /\
     (is_Some (files w !! dirPath) \/ files w !! Fs.parentOf dirPath = Some Directory ->
      e = JsonFileError manifest)) /\
  (forall options result,
     getAssetFilesAsync env projectDir options = Ok result ->
     exists e w',
       hasUnoptimizedAssetsAsync env projectDir options w = (Throw e, w') /\
       files w' !! manifest = Some (File contents) /\
       (is_Some (files w !! dirPath) \/ files w !! Fs.parentOf dirPath = Some Directory ->
        e = JsonFileError manifest)).
Proof.
  intros manifest dirPath Hfile Hparse.
  assert (Hload : exists e w',
             readAssetJsonAsync env projectDir w = (Throw e, w') /\
             files w' !! manifest = Some (File contents) /\
             (is_Some (files w !! dirPath)
              \/ files w !! Fs.parentOf dirPath = Some Directory ->
              e = JsonFileError manifest)).
  { rewrite readAssetJsonAsync_run. cbv zeta. fold dirPath manifest.
    assert (Hdoc : forall files1 log,
               files1 !! manifest = Some (File contents) ->
               load_document env dirPath manifest files1 log
               = (Throw (JsonFileError manifest), {| files := files1; logged := log |})).
    { intros files1 log H1. unfold load_document, parsed_manifest.
      now rewrite H1, Hparse. }
    destruct (files w !! dirPath) as [node|] eqn:Hdir.
    - rewrite Hdoc by done. eexists _, _. split; [reflexivity|]. split; [exact Hfile|done].
    - unfold Fs.parentError.
      destruct (files w !! Fs.parentOf dirPath) as [[data|]|] eqn:Hparent.
      + exists (ENOTDIR dirPath), w. split; [reflexivity|]. split; [exact Hfile|].
        intros [[node Hnode]|Hd]; discriminate.
      + rewrite Hdoc.
        * eexists _, _. split; [reflexivity|]. split; [|done]. cbn [files].
          rewrite lookup_insert_ne; [exact Hfile|].
          intros H. symmetry in H. now apply manifest_differs_from_directory in H.
        * rewrite lookup_insert_ne; [exact Hfile|].
          intros H. symmetry in H. now apply manifest_differs_from_directory in H.
      + exists (ENOENT dirPath), w. split; [reflexivity|]. split; [exact Hfile|].
        intros [[node Hnode]|Hd]; discriminate. }
  split; [exact Hload|].
  intros options result Hfiles. destruct Hload as (e & w' & Hload & Hkept & He).
  exists e, w'. split; [|split; [exact Hkept|exact He]].
  unfold hasUnoptimizedAssetsAsync. fold manifest. rewrite bind_run.
  unfold Fs.existsSync. rewrite Hfile.
  rewrite bool_decide_eq_true_2 by eauto. cbn [negb].
  rewrite bind_run. unfold async_lift. rewrite Hfiles.
  rewrite bind_run, Hload. reflexivity.
Qed.

Lemma corrupt_manifest_is_fatal_witness :
  let env := Fixture.env ["a.png"] None in
  let w := Fixture.world "{ not json" in
  let manifest := NodePath.join ["/proj"; ".expo-shared/assets.json"] in
  let dirPath := NodePath.join ["/proj"; ".expo-shared"] in
  files w !! manifest = Some (File "{ not json") /\
  json_parse env "{ not json" = None /\
  is_Some (files w !! dirPath) /\
  (exists w',
     readAssetJsonAsync env "/proj" w = (Throw (JsonFileError manifest), w') /\
     files w' !! manifest = Some (File "{ not json")) /\
  (exists w',
     hasUnoptimizedAssetsAsync env "/proj" None w = (Throw (JsonFileError manifest), w') /\
     files w' !! manifest = Some (File "{ not json")).
Proof.
  intros env w manifest dirPath.
  assert (H1 : files w !! manifest = Some (File "{ not json")) by (vm_compute; reflexivity).
  assert (H2 : json_parse env "{ not json" = None) by reflexivity.
  assert (H3 : is_Some (files w !! dirPath)) by (vm_compute; eauto).
  assert (H4 : getAssetFilesAsync env "/proj" None
               = Ok {| allFiles := ["/proj/a.png"]; selectedFiles := ["/proj/a.png"] |})
    by reflexivity.
  destruct (corrupt_manifest_is_fatal env "/proj" w "{ not json" H1 H2) as [Hload Hcheck].
  destruct Hload as (e & w' & Hrun & Hkept & He).
  destruct (Hcheck _ _ H4) as (e2 & w2 & Hrun2 & Hkept2 & He2).
  rewrite (He (or_introl H3)) in Hrun. rewrite (He2 (or_introl H3)) in Hrun2.
  exact (conj H1 (conj H2 (conj H3 (conj (ex_intro _ w' (conj Hrun Hkept))
                                         (ex_intro _ w2 (conj Hrun2 Hkept2)))))).
Defined.

Lemma hasUnoptimized_loaded (env : Env) (projectDir : string)
    (options : option OptimizationOptions) (w : World) (contents : string)
    (record : AssetOptimizationState) (result : AssetFiles) :
  files w !! NodePath.join [projectDir; ".expo-shared/assets.json"] = Some (File contents) ->
  is_Some (files w !! NodePath.join [projectDir; ".expo-shared"]) ->
  json_parse env contents = Some record ->
  getAssetFilesAsync env projectDir options = Ok result ->
  hasUnoptimizedAssetsAsync env projectDir options w
  = scanSelected env record (selectedFiles result) w.
Proof.
  intros Hfile Hdir Hparse Hfiles.
  pose proof (readAssetJsonAsync_existing env projectDir w contents Hfile Hdir) as Hload.
  rewrite Hparse in Hload.
  now rewrite (hasUnoptimized_with_manifest _ _ _ _ _ _ _ _ Hfile Hfiles Hload).
Qed.

(** C2, as the code has it. Without a manifest document the answer is
    [true], whatever is selected. With a manifest that parses to a record
    (in its directory), and the selection computed: the answer is [true] at
    the first selected file whose digest the record does not map to [true]
    (the files after it are not read); it is [false] when the record maps
    every selected file's digest to [true]; and when every selected file
    can be read the answer is [true] exactly when some selected file's
    digest is not mapped to [true]. The world is left as it was. *)
Theorem dirty_check_by_recorded_truth (env : Env) (projectDir : string)
    (options : option OptimizationOptions) (w : World) :
  let manifest := NodePath.join [projectDir; ".expo-shared/assets.json"] in
  (files w !! manifest = None ->
   hasUnoptimizedAssetsAsync env projectDir options w = (Ok true, w)) /\
  (forall contents record result,
      files w !! manifest = Some (File contents) ->
      is_Some (files w !! NodePath.join [projectDir; ".expo-shared"]) ->
      json_parse env contents = Some record ->
      getAssetFilesAsync env projectDir options = Ok result ->
      (forall before file after hash,
          selectedFiles result = before ++ file :: after ->
          (forall earlier, earlier ∈ before ->
             exists h, digestOf env w earlier = Ok h /\ record !! h = Some true) ->
          digestOf env w file = Ok hash ->
          record !! hash <> Some true ->
          hasUnoptimizedAssetsAsync env projectDir options w = (Ok true, w)) /\
      ((forall file, file ∈ selectedFiles result ->
          exists h, digestOf env w file = Ok h /\ record !! h = Some true) ->
       hasUnoptimizedAssetsAsync env projectDir options w = (Ok false, w)) /\
      ((forall file, file ∈ selectedFiles result -> exists h, digestOf env w file = Ok h) ->
       exists answer,
         hasUnoptimizedAssetsAsync env projectDir options w = (Ok answer, w) /\
         (answer = true <->
          exists file h, file ∈ selectedFiles result /\ digestOf env w file = Ok h
                         /\ record !! h <> Some true))).
Proof.
  intros manifest. split; [apply hasUnoptimized_without_manifest|].
  intros contents record result Hfile Hdir Hparse Hfiles.
  rewrite (hasUnoptimized_loaded _ _ _ _ _ _ _ Hfile Hdir Hparse Hfiles).
  split; [|split].
  - intros before file after hash -> Hbefore Hdigest Hhash.
    eapply scanSelected_hit; [|exact Hdigest|exact Hhash].
    intros earlier Hin. destruct (Hbefore earlier Hin) as (h & Hh & _). eauto.
  - apply scanSelected_all_recorded.
  - apply scanSelected_readable.
Qed.

Lemma dirty_check_by_recorded_truth_witness :
  let env := Fixture.env ["a.png"; "b.png"] None in
  let recorded := Fixture.world "+sha256-of-PNG-A" in
  let blank := Fixture.world "{}" in
  files Fixture.fresh_world !! NodePath.join ["/proj"; ".expo-shared/assets.json"] = None /\
  files recorded !! NodePath.join ["/proj"; ".expo-shared/assets.json"]
    = Some (File "+sha256-of-PNG-A") /\
  is_Some (files recorded !! NodePath.join ["/proj"; ".expo-shared"]) /\
  json_parse env "+sha256-of-PNG-A" = Some {[ "sha256-of-PNG-A" := true ]} /\
  hasUnoptimizedAssetsAsync (Fixture.env [] None) "/proj" None Fixture.fresh_world
    = (Ok true, Fixture.fresh_world) /\
  hasUnoptimizedAssetsAsync (Fixture.env ["a.png"] None) "/proj" None recorded
    = (Ok false, recorded) /\
  hasUnoptimizedAssetsAsync env "/proj" None blank = (Ok true, blank).
Proof.
  intros env recorded blank.
  assert (H0 : files Fixture.fresh_world
                 !! NodePath.join ["/proj"; ".expo-shared/assets.json"] = None)
    by (vm_compute; reflexivity).
  assert (H1 : files recorded !! NodePath.join ["/proj"; ".expo-shared/assets.json"]
               = Some (File "+sha256-of-PNG-A")) by (vm_compute; reflexivity).
  assert (H2 : is_Some (files recorded !! NodePath.join ["/proj"; ".expo-shared"]))
    by (vm_compute; eauto).
  assert (H3 : json_parse env "+sha256-of-PNG-A" = Some {[ "sha256-of-PNG-A" := true ]})
    by reflexivity.
  split; [exact H0|]. split; [exact H1|]. split; [exact H2|]. split; [exact H3|].
  split; [|split].
  - exact (proj1 (dirty_check_by_recorded_truth (Fixture.env [] None) "/proj" None
                    Fixture.fresh_world) H0).
  - assert (Hfiles : getAssetFilesAsync (Fixture.env ["a.png"] None) "/proj" None
                     = Ok {| allFiles := ["/proj/a.png"]; selectedFiles := ["/proj/a.png"] |})
      by reflexivity.
    destruct (proj2 (dirty_check_by_recorded_truth (Fixture.env ["a.png"] None) "/proj"
                       None recorded) _ _ _ H1 H2 H3 Hfiles) as (_ & Hall & _).
    apply Hall. cbn [selectedFiles]. intros file ->%list_elem_of_singleton.
    exists "sha256-of-PNG-A". split; [vm_compute; reflexivity|apply lookup_singleton_eq].
  - assert (Hnode : files blank !! NodePath.join ["/proj"; ".expo-shared/assets.json"]
                    = Some (File "{}")) by (vm_compute; reflexivity).
    assert (Hdir : is_Some (files blank !! NodePath.join ["/proj"; ".expo-shared"]))
      by (vm_compute; eauto).
    assert (Hparse : json_parse env "{}" = Some ∅) by reflexivity.
    assert (Hfiles : getAssetFilesAsync env "/proj" None
                     = Ok {| allFiles := ["/proj/a.png"; "/proj/b.png"];
                             selectedFiles := ["/proj/a.png"; "/proj/b.png"] |})
      by reflexivity.
    destruct (proj2 (dirty_check_by_recorded_truth env "/proj" None blank)
                _ _ _ Hnode Hdir Hparse Hfiles) as (Hfirst & _ & _).
    apply (Hfirst [] "/proj/a.png" ["/proj/b.png"] "sha256-of-PNG-A").
    + reflexivity.
    + intros earlier Hin. now apply elem_of_nil in Hin.
    + vm_compute. reflexivity.
    + rewrite lookup_empty. discriminate.
Defined.

(** C2, as stated, fails: here the manifest exists and the record holds
    the digest of the only selected file, mapped to [false]; no digest is
    absent from the record, and the answer is [true], not [false]. *)
Lemma dirty_check_counterexample :
  let env := Fixture.env ["a.png"] None in
  let w := Fixture.world "-sha256-of-PNG-A" in
  let record : AssetOptimizationState := {[ "sha256-of-PNG-A" := false ]} in
  files w !! NodePath.join ["/proj"; ".expo-shared/assets.json"]
    = Some (File "-sha256-of-PNG-A") /\
  json_parse env "-sha256-of-PNG-A" = Some record /\
  getAssetFilesAsync env "/proj" None
    = Ok {| allFiles := ["/proj/a.png"]; selectedFiles := ["/proj/a.png"] |} /\
  readAssetJsonAsync env "/proj" w
    = (Ok ({| JsonFile.file := "/proj/.expo-shared/assets.json" |}, record), w) /\
  (forall file, file ∈ ["/proj/a.png"] ->
     exists h, digestOf env w file = Ok h /\ h ∈ dom record) /\
  ~ (exists file h, file ∈ ["/proj/a.png"] /\ digestOf env w file = Ok h
                    /\ h ∉ dom record) /\
  hasUnoptimizedAssetsAsync env "/proj" None w = (Ok true, w) /\
  hasUnoptimizedAssetsAsync env "/proj" None w <> (Ok false, w).
Proof.
  intros env w record.
  assert (Hdigest : digestOf env w "/proj/a.png" = Ok "sha256-of-PNG-A")
    by (vm_compute; reflexivity).
  assert (Hdom : "sha256-of-PNG-A" ∈ dom record).
  { apply elem_of_dom. unfold record. rewrite lookup_singleton_eq. eauto. }
  assert (Hrun : hasUnoptimizedAssetsAsync env "/proj" None w = (Ok true, w))
    by (vm_compute; reflexivity).
  split; [vm_compute; reflexivity|]. split; [reflexivity|]. split; [reflexivity|].
  split; [vm_compute; reflexivity|]. split; [|split; [|split]].
  - intros file ->%list_elem_of_singleton. eauto.
  - intros (file & h & ->%list_elem_of_singleton & Hd & Hh).
    rewrite Hdigest in Hd. injection Hd as <-. contradiction.
  - exact Hrun.
  - rewrite Hrun. discriminate.
Qed.

(** C10. With a manifest, a selected file whose digest the record maps
    to [false] makes the answer [true] (the files before it being
    readable): the test is on the recorded value, not on the presence of
    the key. *)
Theorem false_entry_is_unoptimized (env : Env) (projectDir : string)
    (options : option OptimizationOptions) (w : World) (contents : string)
    (record : AssetOptimizationState) (result : AssetFiles)
    (before : list string) (file : string) (after : list string) (hash : string) :
  files w !! NodePath.join [projectDir; ".expo-shared/assets.json"] = Some (File contents) ->
  is_Some (files w !! NodePath.join [projectDir; ".expo-shared"]) ->
  json_parse env contents = Some record ->
  getAssetFilesAsync env projectDir options = Ok result ->
  selectedFiles result = before ++ file :: after ->
  (forall earlier, earlier ∈ before -> exists h, digestOf env w earlier = Ok h) ->
  digestOf env w file = Ok hash ->
  record !! hash = Some false ->
  hasUnoptimizedAssetsAsync env projectDir options w = (Ok true, w).
Proof.
  intros Hfile Hdir Hparse Hfiles Hsel Hbefore Hdigest Hfalse.
  rewrite (hasUnoptimized_loaded _ _ _ _ _ _ _ Hfile Hdir Hparse Hfiles), Hsel.
  eapply scanSelected_hit; [exact Hbefore|exact Hdigest|]. rewrite Hfalse. discriminate.
Qed.

Lemma false_entry_is_unoptimized_witness :
  let env := Fixture.env ["a.png"] None in
  let w := Fixture.world "-sha256-of-PNG-A" in
  let record : AssetOptimizationState := {[ "sha256-of-PNG-A" := false ]} in
  files w !! NodePath.join ["/proj"; ".expo-shared/assets.json"]
    = Some (File "-sha256-of-PNG-A") /\
  is_Some (files w !! NodePath.join ["/proj"; ".expo-shared"]) /\
  json_parse env "-sha256-of-PNG-A" = Some record /\
  getAssetFilesAsync env "/proj" None
    = Ok {| allFiles := ["/proj/a.png"]; selectedFiles := ["/proj/a.png"] |} /\
  digestOf env w "/proj/a.png" = Ok "sha256-of-PNG-A" /\
  record !! "sha256-of-PNG-A" = Some false /\
  hasUnoptimizedAssetsAsync env "/proj" None w = (Ok true, w).
Proof.
  intros env w record.
  assert (H1 : files w !! NodePath.join ["/proj"; ".expo-shared/assets.json"]
               = Some (File "-sha256-of-PNG-A")) by (vm_compute; reflexivity).
  assert (H2 : is_Some (files w !! NodePath.join ["/proj"; ".expo-shared"]))
    by (vm_compute; eauto).
  assert (H3 : json_parse env "-sha256-of-PNG-A" = Some record) by reflexivity.
  assert (H4 : getAssetFilesAsync env "/proj" None
               = Ok {| allFiles := ["/proj/a.png"]; selectedFiles := ["/proj/a.png"] |})
    by reflexivity.
  assert (H5 : digestOf env w "/proj/a.png" = Ok "sha256-of-PNG-A")
    by (vm_compute; reflexivity).
  assert (H6 : record !! "sha256-of-PNG-A" = Some false) by apply lookup_singleton_eq.
  assert (H7 : forall earlier, earlier ∈ @nil string ->
                 exists h, digestOf env w earlier = Ok h)
    by (intros earlier Hin; now apply elem_of_nil in Hin).
  exact (conj H1 (conj H2 (conj H3 (conj H4 (conj H5 (conj H6
           (false_entry_is_unoptimized env "/proj" None w _ record _
              [] "/proj/a.png" [] "sha256-of-PNG-A" H1 H2 H3 H4 eq_refl H7 H5 H6))))))).
Defined.

End Store.

(** ** Path normalization in [filterImages] *)

Section Separators.
Import JsString AssetUtils.

Lemma startsWith_slash_cons (c : ascii) (s : string) :
  startsWith "/" (String c s) = bool_decide ("/"%char = c).
Proof. rewrite startsWith_cons. now case_bool_decide. Qed.

Lemma startsWith_dslash_cons (c : ascii) (s : string) :
  startsWith "//" (String c s) = bool_decide ("/"%char = c) && startsWith "/" s.
Proof. rewrite startsWith_cons. now case_bool_decide. Qed.

(** When the project directory itself holds no doubled separator, the
    single replacement is enough: the joined path has none either. *)
Lemma withDirectory_clean_root (projectDir file : string) :
  includes "//" projectDir = false -> relative_match file ->
  includes "//" (withDirectory projectDir file) = false.
Proof.
  intros Hroot [Hstart Hincl]. unfold withDirectory.
  assert (Hbase : includes "//" ("/" +:+ file) = false).
  { rewrite app_cons, app_empty_l, includes_eq, startsWith_dslash_cons, Hstart, Hincl.
    now rewrite andb_false_r. }
  induction projectDir as [|c root IH].
  - rewrite app_empty_l, replace_absent; exact Hbase.
  - rewrite includes_eq in Hroot. apply orb_false_iff in Hroot as [Hhead Hroot].
    specialize (IH Hroot).
    rewrite app_cons, replace_eq.
    destruct (startsWith "//" (String c (root +:+ "/" +:+ file))) eqn:E.
    + rewrite startsWith_dslash_cons in E. apply andb_true_iff in E as [Hc E].
      rewrite startsWith_dslash_cons, Hc in Hhead. cbn [andb] in Hhead.
      destruct root as [|d root].
      * exact Hbase.
      * rewrite app_cons, startsWith_slash_cons in E.
        rewrite startsWith_slash_cons in Hhead. congruence.
    + rewrite includes_eq, IH, orb_false_r, startsWith_dslash_cons.
      rewrite startsWith_dslash_cons in E.
      destruct (bool_decide ("/"%char = c)); [|reflexivity]. cbn [andb] in *.
      destruct root as [|d root].
      * rewrite app_empty_l, app_cons, startsWith_slash_cons in E.
        now rewrite bool_decide_eq_true_2 in E.
      * rewrite app_cons in *. rewrite startsWith_slash_cons in E.
        rewrite replace_eq, startsWith_dslash_cons, E. cbn [andb].
        now rewrite startsWith_slash_cons.
Qed.

(** C5. The single [replace] collapses only the first doubled separator
    of the joined string. A project directory that already holds one and
    ends in a separator keeps the doubled separator made by the join. *)
Theorem doubled_separator_survives :
  let env := Fixture.env ["x.png"] None in
  withDirectory "/a//b/" "x.png" = "/a/b//x.png" /\
  includes "//" (withDirectory "/a//b/" "x.png") = true /\
  getAssetFilesAsync env "/a//b/" None
  = Ok {| allFiles := ["/a/b//x.png"]; selectedFiles := ["/a/b//x.png"] |}.
Proof. repeat split. Qed.

End Separators.

(** ** More on the asset selector *)

Section SelectorMore.
Import JsString AssetUtils.

(** X1. With the configuration read and the bundle patterns expanded,
    the selected paths are exactly the project-rooted paths, with an image
    extension, of the files of the included list that the exclude pattern,
    when one is given, does not match. *)
Theorem selected_by_include_and_exclude (env : Env) (projectDir : string)
    (options : option OptimizationOptions) (exp : ExpConfig) (matched : list string) :
  readConfigJsonAsync env projectDir = Ok exp ->
  expandPatterns env projectDir (patternsOf exp) = Ok matched ->
  exists result files,
    getAssetFilesAsync env projectDir options = Ok result /\
    included env projectDir options matched = Ok files /\
    forall path,
      path ∈ selectedFiles result <->
      exists file,
        file ∈ files /\
        (forall pattern, options_exclude options = Some pattern -> pattern <> "" ->
                         file ∉ GlobSync_found env pattern (globOptions projectDir)) /\
        path = withDirectory projectDir file /\
        has_image_extension path.
Proof.
  intros Hcfg Hall.
  destruct (getAssetFilesAsync_returns env projectDir options exp matched Hcfg Hall)
    as (files & unwanted & Hinc & Hexc & Hrun).
  eexists _, files. split; [exact Hrun|]. split; [exact Hinc|].
  intros path. cbn [selectedFiles]. rewrite elem_of_filterImages. split.
  - intros (file & [Hin Hnot]%(elem_of_filtered _ _ _ _ _ _ Hexc) & Hpath & Himg).
    exists file. auto.
  - intros (file & Hin & Hnot & Hpath & Himg). exists file.
    split; [|done]. apply (elem_of_filtered _ _ _ _ _ _ Hexc). auto.
Qed.

Lemma selected_by_include_and_exclude_witness :
  let env := Fixture.env ("notes.txt" :: Fixture.three_images) None in
  let options := Fixture.options (Some "*") (Some "b.*") in
  let matched := ["notes.txt"; "a.png"; "b.png"; "c.jpg"] in
  readConfigJsonAsync env "/proj" = Ok {| assetBundlePatterns := None |} /\
  expandPatterns env "/proj" (patternsOf {| assetBundlePatterns := None |}) = Ok matched /\
  exists result files,
    getAssetFilesAsync env "/proj" options = Ok result /\
    included env "/proj" options matched = Ok files /\
    forall path,
      path ∈ selectedFiles result <->
      exists file,
        file ∈ files /\
        (forall pattern, options_exclude options = Some pattern -> pattern <> "" ->
                         file ∉ GlobSync_found env pattern (globOptions "/proj")) /\
        path = withDirectory "/proj" file /\
        has_image_extension path.
Proof.
  intros env options matched.
  assert (H1 : readConfigJsonAsync env "/proj" = Ok {| assetBundlePatterns := None |})
    by reflexivity.
  assert (H2 : expandPatterns env "/proj" (patternsOf {| assetBundlePatterns := None |})
               = Ok matched) by reflexivity.
  exact (conj H1 (conj H2 (selected_by_include_and_exclude env "/proj" options _ _ H1 H2))).
Defined.

Lemma sublist_List_filter {A : Type} (f : A -> bool) (l : list A) :
  List.filter f l `sublist_of` l.
Proof.
  induction l as [|x l IH]; [constructor|].
  cbn [List.filter]. destruct (f x); now constructor.
Qed.

Lemma sublist_List_filter_mono {A : Type} (f : A -> bool) (l1 l2 : list A) :
  l1 `sublist_of` l2 -> List.filter f l1 `sublist_of` List.filter f l2.
Proof.
  induction 1 as [|x l1 l2 _ IH|x l1 l2 _ IH]; cbn [List.filter].
  - constructor.
  - destruct (f x); [now constructor|done].
  - destruct (f x); [now constructor|done].
Qed.

Lemma sublist_map {A B : Type} (f : A -> B) (l1 l2 : list A) :
  l1 `sublist_of` l2 -> map f l1 `sublist_of` map f l2.
Proof. induction 1; cbn [map]; now constructor. Qed.

Lemma filterImages_sublist (files1 files2 : list string) (projectDir : string) :
  files1 `sublist_of` files2 ->
  filterImages files1 projectDir `sublist_of` filterImages files2 projectDir.
Proof. intros H. unfold filterImages. now apply sublist_List_filter_mono, sublist_map. Qed.

Lemma filtered_sublist (options : option OptimizationOptions) (toExclude : gset string)
    (included : list string) :
  filtered options (excluded toExclude included) included `sublist_of` included.
Proof.
  unfold filtered. destruct (truthy _); [apply sublist_List_filter|done].
Qed.

(** X2. Without an include pattern the selected list is a sublist of
    [allFiles]: same order, nothing added; without an exclude pattern
    either, the two lists are equal. *)
Theorem selected_sublist_of_allFiles (env : Env) (projectDir : string)
    (options : option OptimizationOptions) (result : AssetFiles) :
  getAssetFilesAsync env projectDir options = Ok result ->
  truthy (options_include options) = false ->
  selectedFiles result `sublist_of` allFiles result /\
  (truthy (options_exclude options) = false -> selectedFiles result = allFiles result).
Proof.
  intros (exp & matched & files & unwanted & _ & _ & Hfiles & _ & ->)%getAssetFilesAsync_inv
         Hinc.
  cbn [selectedFiles allFiles].
  rewrite included_unset in Hfiles by done. injection Hfiles as <-. split.
  - apply filterImages_sublist, filtered_sublist.
  - intros Hexc. now rewrite filtered_unset.
Qed.

Lemma selected_sublist_of_allFiles_witness :
  let env := Fixture.env ("notes.txt" :: Fixture.three_images) None in
  let options := Fixture.options None (Some "a.*") in
  let result := {| allFiles := ["/proj/a.png"; "/proj/b.png"; "/proj/c.jpg"];
                   selectedFiles := ["/proj/b.png"; "/proj/c.jpg"] |} in
  getAssetFilesAsync env "/proj" options = Ok result /\
  truthy (options_include options) = false /\
  selectedFiles result `sublist_of` allFiles result /\
  (truthy (options_exclude options) = false -> selectedFiles result = allFiles result).
Proof.
  intros env options result.
  assert (H1 : getAssetFilesAsync env "/proj" options = Ok result) by reflexivity.
  assert (H2 : truthy (options_include options) = false) by reflexivity.
  exact (conj H1 (conj H2 (selected_sublist_of_allFiles env "/proj" options result H1 H2))).
Defined.

Lemma included_from_glob (env : Env) (projectDir : string)
    (options : option OptimizationOptions) (patterns matched files : list string)
    (file : string) :
  expandPatterns env projectDir patterns = Ok matched ->
  included env projectDir options matched = Ok files ->
  file ∈ files ->
  exists pattern, file ∈ GlobSync_found env pattern (globOptions projectDir).
Proof.
  intros [_ ->]%expandPatterns_inv.
  assert (Hraw : file ∈ flat_map (fun pattern =>
                                    GlobSync_found env pattern (globOptions projectDir))
                                 patterns ->
                 exists pattern, file ∈ GlobSync_found env pattern (globOptions projectDir)).
  { rewrite list_elem_of_In, in_flat_map.
    intros (pattern & _ & Hin). exists pattern. now apply list_elem_of_In. }
  unfold included. destruct (options_include options) as [pattern|].
  - destruct (truthy (Some pattern)) eqn:E.
    + rewrite glob_sync_ok by now apply truthy_nonempty. intros [= <-]. eauto.
    + intros [= <-]. exact Hraw.
  - intros [= <-]. exact Hraw.
Qed.

(** Every returned path stems from a file that [glob.sync] reported. *)
Lemma returned_from_glob (env : Env) (projectDir : string)
    (options : option OptimizationOptions) (result : AssetFiles) (path : string) :
  getAssetFilesAsync env projectDir options = Ok result ->
  path ∈ allFiles result \/ path ∈ selectedFiles result ->
  exists pattern file,
    file ∈ GlobSync_found env pattern (globOptions projectDir)
    /\ path = withDirectory projectDir file.
Proof.
  intros (exp & matched & files & unwanted & _ & Hall & Hinc & Hexc & ->)
           %getAssetFilesAsync_inv.
  cbn [allFiles selectedFiles].
  intros [(file & Hin & -> & _)%elem_of_filterImages
         |(file & [Hin _]%(elem_of_filtered _ _ _ _ _ _ Hexc) & -> & _)%elem_of_filterImages].
  - destruct (included_from_glob env projectDir None _ _ matched file Hall eq_refl Hin)
      as [p Hp].
    eauto.
  - destruct (included_from_glob env projectDir options _ _ _ file Hall Hinc Hin) as [p Hp].
    eauto.
Qed.

(** X3. When the project directory holds no doubled separator and
    [glob.sync] reports relative paths, no returned path holds a doubled
    separator, and each is the project-rooted path of a reported file. *)
Theorem clean_root_gives_clean_paths (env : Env) (projectDir : string)
    (options : option OptimizationOptions) (result : AssetFiles) :
  includes "//" projectDir = false ->
  (forall pattern file,
      file ∈ GlobSync_found env pattern (globOptions projectDir) -> relative_match file) ->
  getAssetFilesAsync env projectDir options = Ok result ->
  forall path, path ∈ allFiles result \/ path ∈ selectedFiles result ->
    includes "//" path = false /\
    exists pattern file,
      file ∈ GlobSync_found env pattern (globOptions projectDir)
      /\ path = withDirectory projectDir file.
Proof.
  intros Hroot Hglob Hfiles path Hin.
  destruct (returned_from_glob _ _ _ _ _ Hfiles Hin) as (pattern & file & Hfile & ->).
  split; [|eauto]. apply withDirectory_clean_root; [done|]. eapply Hglob, Hfile.
Qed.

Lemma fixture_glob_relative (pattern file : string) :
  file ∈ Fixture.project_found Fixture.three_images pattern (globOptions "/proj") ->
  relative_match file.
Proof.
  intros Hin. assert (Hp : file ∈ Fixture.three_images).
  { unfold Fixture.project_found in Hin. destruct (bool_decide _); [done|].
    apply list_elem_of_In, filter_In in Hin as [Hin _]. now apply list_elem_of_In. }
  unfold Fixture.three_images in Hp. rewrite !elem_of_cons, elem_of_nil in Hp.
  destruct Hp as [-> | [-> | [-> | []]]]; split; reflexivity.
Qed.

Lemma clean_root_gives_clean_paths_witness :
  let env := Fixture.env Fixture.three_images None in
  let options := Fixture.options (Some "*.png") None in
  let result := {| allFiles := ["/proj/a.png"; "/proj/b.png"; "/proj/c.jpg"];
                   selectedFiles := ["/proj/a.png"; "/proj/b.png"] |} in
  includes "//" "/proj" = false /\
  (forall pattern file,
      file ∈ GlobSync_found env pattern (globOptions "/proj") -> relative_match file) /\
  getAssetFilesAsync env "/proj" options = Ok result /\
  forall path, path ∈ allFiles result \/ path ∈ selectedFiles result ->
    includes "//" path = false /\
    exists pattern file,
      file ∈ GlobSync_found env pattern (globOptions "/proj")
      /\ path = withDirectory "/proj" file.
Proof.
  intros env options result.
  assert (H1 : includes "//" "/proj" = false) by reflexivity.
  assert (H2 : forall pattern file,
             file ∈ GlobSync_found env pattern (globOptions "/proj") -> relative_match file)
    by exact fixture_glob_relative.
  assert (H3 : getAssetFilesAsync env "/proj" options = Ok result) by reflexivity.
  exact (conj H1 (conj H2 (conj H3
           (clean_root_gives_clean_paths env "/proj" options result H1 H2 H3)))).
Defined.

Lemma withDirectory_plain (projectDir file : string) :
  includes "//" (projectDir +:+ "/" +:+ file) = false ->
  withDirectory projectDir file = projectDir +:+ "/" +:+ file.
Proof. intros H. unfold withDirectory. now apply replace_absent. Qed.

Lemma startsWith_slash_app (a b c : string) :
  startsWith "/" (a +:+ "/" +:+ b) = startsWith "/" (a +:+ "/" +:+ c).
Proof. destruct a as [|x a]; [reflexivity|]. now rewrite !app_cons, !startsWith_cons. Qed.

(** The doubled separator of a join is the one replaced when nothing
    before it is doubled. *)
Lemma replace_junction (a b : string) :
  includes "//" (a +:+ "/" +:+ b) = false ->
  replace "//" "/" (a +:+ "//" +:+ b) = a +:+ "/" +:+ b.
Proof.
  induction a as [|c a IH]; intros H.
  - reflexivity.
  - rewrite app_cons, includes_eq in H. apply orb_false_iff in H as [Hhead Htail].
    rewrite app_cons, replace_eq.
    assert (Hstart : startsWith "//" (String c (a +:+ "//" +:+ b)) = false).
    { rewrite startsWith_cons in *. case_bool_decide; [|done].
      change (a +:+ "//" +:+ b) with (a +:+ "/" +:+ ("/" +:+ b)).
      now rewrite (startsWith_slash_app a _ b). }
    rewrite Hstart, IH by done. reflexivity.
Qed.

Lemma withDirectory_trailing (projectDir file : string) :
  includes "//" (projectDir +:+ "/" +:+ file) = false ->
  withDirectory (projectDir +:+ "/") file = projectDir +:+ "/" +:+ file.
Proof.
  intros H. unfold withDirectory. rewrite app_assoc_str.
  change ("/" +:+ "/" +:+ file) with ("//" +:+ file). now apply replace_junction.
Qed.

(** X4. A separator at the end of the project directory is absorbed: when
    the joined paths hold no doubled separator, [filterImages] gives the
    same paths for the directory with and without it, each being the
    directory, a separator and the file. *)
Theorem trailing_separator_is_absorbed (files : list string) (projectDir : string) :
  (forall file, file ∈ files -> includes "//" (projectDir +:+ "/" +:+ file) = false) ->
  filterImages files (projectDir +:+ "/") = filterImages files projectDir /\
  (forall path, path ∈ filterImages files projectDir ->
     exists file, file ∈ files /\ path = projectDir +:+ "/" +:+ file).
Proof.
  intros Hclean. split.
  - unfold filterImages. f_equal. apply map_ext_in. intros file Hin%list_elem_of_In.
    now rewrite withDirectory_trailing, withDirectory_plain by auto.
  - intros path (file & Hin & -> & _)%elem_of_filterImages. exists file.
    split; [done|]. now apply withDirectory_plain, Hclean.
Qed.

Lemma trailing_separator_is_absorbed_witness :
  (forall file, file ∈ ["a.png"; "img/B.JPG"; "notes.txt"] ->
                includes "//" ("/proj" +:+ "/" +:+ file) = false) /\
  filterImages ["a.png"; "img/B.JPG"; "notes.txt"] ("/proj" +:+ "/")
    = filterImages ["a.png"; "img/B.JPG"; "notes.txt"] "/proj" /\
  (forall path, path ∈ filterImages ["a.png"; "img/B.JPG"; "notes.txt"] "/proj" ->
     exists file, file ∈ ["a.png"; "img/B.JPG"; "notes.txt"]
                  /\ path = "/proj" +:+ "/" +:+ file).
Proof.
  assert (H : forall file, file ∈ ["a.png"; "img/B.JPG"; "notes.txt"] ->
                includes "//" ("/proj" +:+ "/" +:+ file) = false).
  { intros file Hin. rewrite !elem_of_cons, elem_of_nil in Hin.
    destruct Hin as [-> | [-> | [-> | []]]]; reflexivity. }
  exact (conj H (trailing_separator_is_absorbed _ "/proj" H)).
Defined.

Lemma filterImages_app (files1 files2 : list string) (projectDir : string) :
  filterImages (files1 ++ files2) projectDir
  = filterImages files1 projectDir ++ filterImages files2 projectDir.
Proof. unfold filterImages. now rewrite List.map_app, List.filter_app. Qed.

(** X5. [allFiles] lists the images pattern by pattern, in the order of
    the bundle patterns, and removes no duplicate: an image matched by two
    patterns is listed once for each. *)
Theorem allFiles_concatenates_patterns (env : Env) (projectDir : string)
    (options : option OptimizationOptions) (exp : ExpConfig) (result : AssetFiles)
    (patterns1 patterns2 : list string) :
  readConfigJsonAsync env projectDir = Ok exp ->
  assetBundlePatterns exp = Some (patterns1 ++ patterns2) ->
  getAssetFilesAsync env projectDir options = Ok result ->
  exists found1 found2,
    expandPatterns env projectDir patterns1 = Ok found1 /\
    expandPatterns env projectDir patterns2 = Ok found2 /\
    allFiles result = filterImages found1 projectDir ++ filterImages found2 projectDir /\
    (forall path,
        path ∈ filterImages found1 projectDir ->
        path ∈ filterImages found2 projectDir ->
        exists before between after,
          allFiles result = before ++ path :: between ++ path :: after).
Proof.
  intros Hcfg Hpatterns
         (exp' & matched & files & unwanted & Hcfg' & Hall & _ & _ & ->)%getAssetFilesAsync_inv.
  rewrite Hcfg in Hcfg'. injection Hcfg' as <-.
  unfold patternsOf in Hall. rewrite Hpatterns in Hall.
  apply expandPatterns_inv in Hall as [Hne ->].
  rewrite elem_of_app in Hne.
  eexists _, _. split; [apply expandPatterns_ok; tauto|].
  split; [apply expandPatterns_ok; tauto|].
  cbn [allFiles]. rewrite flat_map_app, filterImages_app. split; [reflexivity|].
  intros path (l1 & l2 & ->)%list_elem_of_split (l3 & l4 & ->)%list_elem_of_split.
  exists l1, (l2 ++ l3), l4. now rewrite <- !app_assoc.
Qed.

Lemma allFiles_concatenates_patterns_witness :
  let env := Fixture.env Fixture.three_images (Some ["*.png"; "a.*"]) in
  let exp := {| assetBundlePatterns := Some (["*.png"] ++ ["a.*"]) |} in
  let result := {| allFiles := ["/proj/a.png"; "/proj/b.png"; "/proj/a.png"];
                   selectedFiles := ["/proj/a.png"; "/proj/b.png"; "/proj/a.png"] |} in
  readConfigJsonAsync env "/proj" = Ok exp /\
  assetBundlePatterns exp = Some (["*.png"] ++ ["a.*"]) /\
  getAssetFilesAsync env "/proj" None = Ok result /\
  exists found1 found2,
    expandPatterns env "/proj" ["*.png"] = Ok found1 /\
    expandPatterns env "/proj" ["a.*"] = Ok found2 /\
    allFiles result = filterImages found1 "/proj" ++ filterImages found2 "/proj" /\
    (forall path,
        path ∈ filterImages found1 "/proj" ->
        path ∈ filterImages found2 "/proj" ->
        exists before between after,
          allFiles result = before ++ path :: between ++ path :: after).
Proof.
  intros env exp result.
  assert (H1 : readConfigJsonAsync env "/proj" = Ok exp) by reflexivity.
  assert (H2 : assetBundlePatterns exp = Some (["*.png"] ++ ["a.*"])) by reflexivity.
  assert (H3 : getAssetFilesAsync env "/proj" None = Ok result) by reflexivity.
  exact (conj H1 (conj H2 (conj H3
           (allFiles_concatenates_patterns env "/proj" None exp result _ _ H1 H2 H3)))).
Defined.

(** X18. A pattern that is the empty string counts as not given: with
    [include] and [exclude] absent or empty, [glob.sync] is not asked about
    them, nothing is excluded, and the call returns (or throws) what it
    does without options; when it returns, [selectedFiles] is [allFiles]. *)
Theorem falsy_patterns_are_ignored (env : Env) (projectDir : string)
    (options : option OptimizationOptions) :
  truthy (options_include options) = false ->
  truthy (options_exclude options) = false ->
  getAssetFilesAsync env projectDir options = getAssetFilesAsync env projectDir None /\
  (forall matched, included env projectDir options matched = Ok matched) /\
  toExclude env projectDir options = Ok ∅ /\
  (forall exp matched,
     readConfigJsonAsync env projectDir = Ok exp ->
     expandPatterns env projectDir (patternsOf exp) = Ok matched ->
     getAssetFilesAsync env projectDir options
     = Ok {| allFiles := filterImages matched projectDir;
             selectedFiles := filterImages matched projectDir |}).
Proof.
  intros Hinc Hexc.
  assert (Hrun : forall exp matched,
             readConfigJsonAsync env projectDir = Ok exp ->
             expandPatterns env projectDir (patternsOf exp) = Ok matched ->
             forall options',
               truthy (options_include options') = false ->
               truthy (options_exclude options') = false ->
               getAssetFilesAsync env projectDir options'
               = Ok {| allFiles := filterImages matched projectDir;
                       selectedFiles := filterImages matched projectDir |}).
  { intros exp matched Hcfg Hall options' Hinc' Hexc'.
    rewrite (getAssetFilesAsync_run _ _ _ _ _ _ _ Hcfg Hall
               (included_unset _ _ _ _ Hinc') (toExclude_unset _ _ _ Hexc')).
    now rewrite filtered_unset. }
  split; [|split; [intros matched; now apply included_unset|]].
  - destruct (readConfigJsonAsync env projectDir) as [exp|e] eqn:Hcfg.
    + destruct (expandPatterns env projectDir (patternsOf exp)) as [matched|e] eqn:Hall.
      * now rewrite !(Hrun exp matched).
      * unfold getAssetFilesAsync. now rewrite !result_bind_run, Hcfg, !result_bind_run, Hall.
    + unfold getAssetFilesAsync. now rewrite !result_bind_run, Hcfg.
  - split; [now apply toExclude_unset|].
    intros exp matched Hcfg Hall. now apply (Hrun exp matched).
Qed.

Lemma falsy_patterns_are_ignored_witness :
  let env := Fixture.env ("notes.txt" :: Fixture.three_images) (Some ["*.png"; "*"]) in
  let options := Fixture.options (Some "") (Some "") in
  let all := ["/proj/a.png"; "/proj/b.png"; "/proj/a.png"; "/proj/b.png"; "/proj/c.jpg"] in
  truthy (options_include options) = false /\
  truthy (options_exclude options) = false /\
  expandPatterns env "/proj" ["*.png"; "*"]
    = Ok ["a.png"; "b.png"; "notes.txt"; "a.png"; "b.png"; "c.jpg"] /\
  getAssetFilesAsync env "/proj" options = getAssetFilesAsync env "/proj" None /\
  getAssetFilesAsync env "/proj" options = Ok {| allFiles := all; selectedFiles := all |}.
Proof.
  intros env options all.
  assert (H1 : truthy (options_include options) = false) by reflexivity.
  assert (H2 : truthy (options_exclude options) = false) by reflexivity.
  assert (H3 : readConfigJsonAsync env "/proj"
               = Ok {| assetBundlePatterns := Some ["*.png"; "*"] |}) by reflexivity.
  assert (H4 : expandPatterns env "/proj" ["*.png"; "*"]
               = Ok ["a.png"; "b.png"; "notes.txt"; "a.png"; "b.png"; "c.jpg"])
    by reflexivity.
  destruct (falsy_patterns_are_ignored env "/proj" options H1 H2) as (Ha & _ & _ & Hb).
  exact (conj H1 (conj H2 (conj H4 (conj Ha (Hb _ _ H3 H4))))).
Defined.

(** What the replacement leaves in front of a relative file depends on the
    directory alone. *)
Lemma replace_front_uniform (s : string) :
  exists front, forall file,
    relative_match file ->
    replace "//" "/" ((s +:+ "/") +:+ file) = (front +:+ "/") +:+ file.
Proof.
  induction s as [|c s [front IH]].
  - exists "". intros file [Hstart Hincl].
    rewrite !app_empty_l, replace_eq, !app_cons, !app_empty_l.
    rewrite startsWith_dslash_cons, Hstart, andb_false_r.
    now rewrite replace_absent.
  - destruct (bool_decide ("/"%char = c) && startsWith "/" (s +:+ "/")) eqn:E.
    + apply andb_true_iff in E as [<-%bool_decide_eq_true Hs].
      destruct s as [|d s].
      * exists "". intros file Hrel. reflexivity.
      * rewrite app_cons, startsWith_slash_cons in Hs.
        apply bool_decide_eq_true in Hs as <-.
        exists (String "/" s). intros file Hrel. reflexivity.
    + exists (String c front). intros file Hrel.
      rewrite !app_cons, replace_eq, startsWith_dslash_cons.
      replace (startsWith "/" ((s +:+ "/") +:+ file)) with (startsWith "/" (s +:+ "/"))
        by (destruct s; reflexivity).
      rewrite E. now rewrite IH.
Qed.

Lemma withDirectory_inj (projectDir file1 file2 : string) :
  relative_match file1 -> relative_match file2 ->
  withDirectory projectDir file1 = withDirectory projectDir file2 -> file1 = file2.
Proof.
  intros H1 H2. unfold withDirectory. rewrite <- !app_assoc_str.
  destruct (replace_front_uniform projectDir) as [front Hfront].
  rewrite !Hfront by done. now intros ?%(inj (String.append _)).
Qed.

(** X19. Distinct relative files get distinct paths: [filterImages] never
    maps two files to one path, so a list of matches without repetition
    gives a list of paths without repetition. *)
Theorem distinct_files_give_distinct_paths (files : list string) (projectDir : string) :
  (forall file, file ∈ files -> relative_match file) ->
  (forall file1 file2, file1 ∈ files -> file2 ∈ files ->
     withDirectory projectDir file1 = withDirectory projectDir file2 -> file1 = file2) /\
  (NoDup files -> NoDup (filterImages files projectDir)).
Proof.
  intros Hrel. split; [intros f1 f2 H1 H2; apply withDirectory_inj; auto|].
  intros Hnodup. unfold filterImages.
  apply NoDup_ListNoDup, List.NoDup_filter, NoDup_ListNoDup.
  induction Hnodup as [|file rest Hnotin Hrest IH]; cbn [map]; [constructor|].
  constructor.
  - rewrite list_elem_of_In, in_map_iff. intros (other & Heq & Hin%list_elem_of_In).
    apply withDirectory_inj in Heq; [|apply Hrel; by right|apply Hrel; by left].
    now subst other.
  - apply IH. intros f Hf. apply Hrel. now right.
Qed.

Lemma distinct_files_give_distinct_paths_witness :
  let files := ["a.png"; "img/a.png"; "b.jpg"] in
  (forall file, file ∈ files -> relative_match file) /\
  NoDup files /\
  filterImages files "/root//proj/" = ["/root/proj//a.png"; "/root/proj//img/a.png";
                                       "/root/proj//b.jpg"] /\
  NoDup (filterImages files "/root//proj/").
Proof.
  intros files.
  assert (H1 : forall file, file ∈ files -> relative_match file).
  { intros file Hin. unfold files in Hin. rewrite !elem_of_cons, elem_of_nil in Hin.
    destruct Hin as [-> | [-> | [-> | []]]]; split; reflexivity. }
  assert (H2 : NoDup files).
  { unfold files. repeat (apply NoDup_cons_2;
      [rewrite ?elem_of_cons, elem_of_nil; intros H;
       repeat (destruct H as [H|H]; [discriminate|]); done|]).
    apply NoDup_nil_2. }
  assert (H3 : filterImages files "/root//proj/"
               = ["/root/proj//a.png"; "/root/proj//img/a.png"; "/root/proj//b.jpg"])
    by reflexivity.
  exact (conj H1 (conj H2 (conj H3
           (proj2 (distinct_files_give_distinct_paths files "/root//proj/" H1) H2)))).
Defined.

Lemma table_found_listed (table : list (string * list string)) (pattern : string)
    (options : GlobOptions) (file : string) :
  file ∈ table_found table pattern options ->
  exists entry, entry ∈ table /\ file ∈ snd entry.
Proof.
  unfold table_found.
  destruct (List.find _ table) as [entry|] eqn:E; [|now intros ?%elem_of_nil].
  apply find_some in E as [Hin _]. intros Hfile. exists entry.
  split; [now apply list_elem_of_In|done].
Qed.

(** X20. Exclusion goes by the relative path as [glob.sync] reports it.
    When the reports are relative paths, the project-rooted path of a path
    reported for the exclude pattern is not selected; but every image path
    reported for the include pattern and not, as it is written, among those
    reported for the exclude pattern is selected, also when it names a
    file that the exclude pattern matches ([./a.png] for [a.png]). *)
Theorem exclusion_is_by_reported_path (env : Env) (projectDir pattern : string)
    (options : option OptimizationOptions) (result : AssetFiles) :
  (forall p f, f ∈ GlobSync_found env p (globOptions projectDir) -> relative_match f) ->
  options_exclude options = Some pattern -> pattern <> "" ->
  getAssetFilesAsync env projectDir options = Ok result ->
  (forall file, file ∈ GlobSync_found env pattern (globOptions projectDir) ->
                withDirectory projectDir file ∉ selectedFiles result) /\
  (forall wanted other,
      options_include options = Some wanted -> wanted <> "" ->
      other ∈ GlobSync_found env wanted (globOptions projectDir) ->
      other ∉ GlobSync_found env pattern (globOptions projectDir) ->
      has_image_extension other ->
      withDirectory projectDir other ∈ selectedFiles result).
Proof.
  intros Hglob Hexc Hne
         (exp & matched & files & unwanted & _ & Hall & Hinc & Hset & ->)
           %getAssetFilesAsync_inv.
  cbn [selectedFiles]. split.
  - intros file Hfile
           (other & [Hin Hnot]%(elem_of_filtered _ _ _ _ _ _ Hset) & Heq & _)
             %elem_of_filterImages.
    apply withDirectory_inj in Heq.
    + subst other. now apply (Hnot pattern).
    + eapply Hglob, Hfile.
    + destruct (included_from_glob _ _ _ _ _ _ _ Hall Hinc Hin) as [p Hp]. eapply Hglob, Hp.
  - intros wanted other Hwanted Hwne Hother Hnot Himg.
    apply elem_of_filterImages. exists other.
    assert (Hfiles : files = GlobSync_found env wanted (globOptions projectDir)).
    { unfold included in Hinc. rewrite Hwanted in Hinc. unfold truthy in Hinc.
      rewrite bool_decide_eq_false_2 in Hinc by done. cbn [negb] in Hinc.
      rewrite glob_sync_ok in Hinc by done. now injection Hinc. }
    split; [|split; [reflexivity|]].
    + apply (elem_of_filtered _ _ _ _ _ _ Hset). split; [now rewrite Hfiles|].
      intros p Hp _. rewrite Hexc in Hp. now injection Hp as <-.
    + apply withDirectory_image; [|done]. eapply Hglob, Hother.
Qed.

Lemma exclusion_is_by_reported_path_witness :
  let table := [("**/*", ["a.png"; "b.png"; "c.jpg"]);
                ("./*.png", ["./a.png"; "./b.png"]);
                ("a.png", ["a.png"])] in
  let env := table_env table None in
  let options := Fixture.options (Some "./*.png") (Some "a.png") in
  let result := {| allFiles := ["/proj/a.png"; "/proj/b.png"; "/proj/c.jpg"];
                   selectedFiles := ["/proj/./a.png"; "/proj/./b.png"] |} in
  (forall p f, f ∈ GlobSync_found env p (globOptions "/proj") -> relative_match f) /\
  options_exclude options = Some "a.png" /\ "a.png" <> "" /\
  getAssetFilesAsync env "/proj" options = Ok result /\
  "a.png" ∈ GlobSync_found env "a.png" (globOptions "/proj") /\
  (withDirectory "/proj" "a.png" ∉ selectedFiles result) /\
  withDirectory "/proj" "./a.png" ∈ selectedFiles result.
Proof.
  intros table env options result.
  assert (H1 : forall p f, f ∈ GlobSync_found env p (globOptions "/proj") ->
                           relative_match f).
  { intros p f Hf.
    apply (table_found_listed table p (globOptions "/proj") f) in Hf
      as (entry & Hentry & Hf).
    unfold table in Hentry. rewrite !elem_of_cons, elem_of_nil in Hentry.
    destruct Hentry as [-> | [-> | [-> | []]]]; cbn [snd] in Hf;
      repeat (apply elem_of_cons in Hf as [-> | Hf]; [split; reflexivity|]);
      now apply elem_of_nil in Hf. }
  assert (H2 : options_exclude options = Some "a.png") by reflexivity.
  assert (H3 : "a.png" <> "") by discriminate.
  assert (H4 : getAssetFilesAsync env "/proj" options = Ok result) by reflexivity.
  assert (H5 : "a.png" ∈ GlobSync_found env "a.png" (globOptions "/proj"))
    by (replace (GlobSync_found env "a.png" (globOptions "/proj")) with ["a.png"]
          by reflexivity; by left).
  assert (H6 : "./a.png" ∈ GlobSync_found env "./*.png" (globOptions "/proj"))
    by (replace (GlobSync_found env "./*.png" (globOptions "/proj"))
          with ["./a.png"; "./b.png"] by reflexivity; by left).
  assert (H7 : "./a.png" ∉ GlobSync_found env "a.png" (globOptions "/proj")).
  { replace (GlobSync_found env "a.png" (globOptions "/proj")) with ["a.png"]
      by reflexivity.
    intros H%list_elem_of_singleton. discriminate. }
  assert (H8 : has_image_extension "./a.png").
  { exists "./a", ".png". split; [done|]. apply image_regex_here_iff. done. }
  destruct (exclusion_is_by_reported_path env "/proj" "a.png" options result H1 H2 H3 H4)
    as [Hout Hin].
  exact (conj H1 (conj H2 (conj H3 (conj H4 (conj H5
           (conj (Hout "a.png" H5)
                 (Hin "./*.png" "./a.png" eq_refl ltac:(discriminate) H6 H7 H8))))))).
Defined.

(** X21. [glob.sync] refuses an empty pattern, so an empty string among
    the bundle patterns makes the selector throw, whatever the options and
    whatever the other patterns match; with the configuration read this is
    the only way for it not to return. The dirty check then throws too
    when the manifest exists, and still answers [true] when it does not. *)
Theorem empty_bundle_pattern_is_fatal (env : Env) (projectDir : string)
    (options : option OptimizationOptions) (exp : ExpConfig) :
  readConfigJsonAsync env projectDir = Ok exp ->
  let manifest := NodePath.join [projectDir; ".expo-shared/assets.json"] in
  ("" ∈ patternsOf exp ->
   getAssetFilesAsync env projectDir options = Throw (Error "must provide pattern") /\
   (forall w, is_Some (files w !! manifest) ->
      hasUnoptimizedAssetsAsync env projectDir options w
      = (Throw (Error "must provide pattern"), w)) /\
   (forall w, files w !! manifest = None ->
      hasUnoptimizedAssetsAsync env projectDir options w = (Ok true, w))) /\
  (("" ∉ patternsOf exp) <->
   exists result, getAssetFilesAsync env projectDir options = Ok result).
Proof.
  intros Hcfg manifest. split.
  - intros Hempty.
    assert (Hfiles : getAssetFilesAsync env projectDir options
                     = Throw (Error "must provide pattern")).
    { unfold getAssetFilesAsync. rewrite result_bind_run, Hcfg, result_bind_run.
      now rewrite expandPatterns_refuses. }
    split; [exact Hfiles|]. split.
    + intros w Hsome. unfold hasUnoptimizedAssetsAsync. fold manifest.
      rewrite bind_run. unfold Fs.existsSync.
      rewrite bool_decide_eq_true_2 by done. cbn [negb].
      rewrite bind_run. unfold async_lift. now rewrite Hfiles.
    + intros w. apply hasUnoptimized_without_manifest.
  - split.
    + intros Hne.
      destruct (getAssetFilesAsync_returns env projectDir options exp _ Hcfg
                  (expandPatterns_ok env projectDir _ Hne)) as (files & unwanted & _ & _ & H).
      eauto.
    + intros [result (exp' & matched & _ & _ & Hcfg' & Hall & _)%getAssetFilesAsync_inv].
      rewrite Hcfg in Hcfg'. injection Hcfg' as <-.
      now apply expandPatterns_inv in Hall as [Hne _].
Qed.

Lemma empty_bundle_pattern_is_fatal_witness :
  let env := Fixture.env Fixture.three_images (Some ["*.png"; ""]) in
  let exp := {| assetBundlePatterns := Some ["*.png"; ""] |} in
  let manifest := NodePath.join ["/proj"; ".expo-shared/assets.json"] in
  readConfigJsonAsync env "/proj" = Ok exp /\
  "" ∈ patternsOf exp /\
  is_Some (files (Fixture.world "{}") !! manifest) /\
  files Fixture.fresh_world !! manifest = None /\
  getAssetFilesAsync env "/proj" None = Throw (Error "must provide pattern") /\
  hasUnoptimizedAssetsAsync env "/proj" None (Fixture.world "{}")
    = (Throw (Error "must provide pattern"), Fixture.world "{}") /\
  hasUnoptimizedAssetsAsync env "/proj" None Fixture.fresh_world
    = (Ok true, Fixture.fresh_world).
Proof.
  intros env exp manifest.
  assert (H1 : readConfigJsonAsync env "/proj" = Ok exp) by reflexivity.
  assert (H2 : "" ∈ patternsOf exp) by (right; left).
  assert (H3 : is_Some (files (Fixture.world "{}") !! manifest)) by (vm_compute; eauto).
  assert (H4 : files Fixture.fresh_world !! manifest = None) by (vm_compute; reflexivity).
  destruct (proj1 (empty_bundle_pattern_is_fatal env "/proj" None exp H1) H2)
    as (Ha & Hb & Hc).
  exact (conj H1 (conj H2 (conj H3 (conj H4 (conj Ha (conj (Hb _ H3) (Hc _ H4))))))).
Defined.

End SelectorMore.

(** ** More on the store and the dirty check *)

Section StoreMore.
Import JsString AssetUtils.


Lemma scanSelected_world (env : Env) (assetInfo : AssetOptimizationState)
    (selected : list string) (w : World) :
  snd (scanSelected env assetInfo selected w) = w.
Proof.
  induction selected as [|file rest IH]; [reflexivity|].
  rewrite scanSelected_cons. destruct (digestOf env w file) as [hash|e]; [|reflexivity].
  now destruct (notRecorded assetInfo hash).
Qed.

Lemma scanSelected_false_inv (env : Env) (assetInfo : AssetOptimizationState)
    (selected : list string) (w w' : World) :
  scanSelected env assetInfo selected w = (Ok false, w') ->
  w' = w /\
  forall file, file ∈ selected ->
    exists h, digestOf env w file = Ok h /\ assetInfo !! h = Some true.
Proof.
  intros Hrun. split.
  { pose proof (scanSelected_world env assetInfo selected w) as Hw.
    now rewrite Hrun in Hw. }
  revert Hrun. induction selected as [|g rest IH]; intros Hrun file Hin.
  - now apply elem_of_nil in Hin.
  - rewrite scanSelected_cons in Hrun.
    destruct (digestOf env w g) as [h|e] eqn:Hg; [|discriminate].
    destruct (notRecorded assetInfo h) eqn:Hn; [discriminate|].
    apply elem_of_cons in Hin as [-> | Hin]; [|now apply IH].
    exists h. split; [done|]. now apply notRecorded_false.
Qed.


(** X6. A configuration that cannot be read makes the selector throw that
    error; the dirty check throws it too when the manifest exists, leaving
    the world as it was, and still answers [true] when there is no
    manifest, since it looks for the manifest first. *)
Theorem config_error_propagates (env : Env) (projectDir : string)
    (options : option OptimizationOptions) (e : JsError) :
  readConfigJsonAsync env projectDir = Throw e ->
  let manifest := NodePath.join [projectDir; ".expo-shared/assets.json"] in
  getAssetFilesAsync env projectDir options = Throw e /\
  (forall w, is_Some (files w !! manifest) ->
             hasUnoptimizedAssetsAsync env projectDir options w = (Throw e, w)) /\
  (forall w, files w !! manifest = None ->
             hasUnoptimizedAssetsAsync env projectDir options w = (Ok true, w)).
Proof.
  intros Hcfg manifest.
  assert (Hfiles : getAssetFilesAsync env projectDir options = Throw e)
    by (unfold getAssetFilesAsync; now rewrite result_bind_run, Hcfg).
  split; [exact Hfiles|]. split.
  - intros w Hsome. unfold hasUnoptimizedAssetsAsync. fold manifest.
    rewrite bind_run. unfold Fs.existsSync.
    rewrite bool_decide_eq_true_2 by done. cbn [negb].
    rewrite bind_run. unfold async_lift. now rewrite Hfiles.
  - intros w. apply hasUnoptimized_without_manifest.
Qed.

Lemma config_error_propagates_witness :
  let env := unconfigured_env ["a.png"] in
  let manifest := NodePath.join ["/proj"; ".expo-shared/assets.json"] in
  readConfigJsonAsync env "/proj" = Throw (ConfigError "/proj") /\
  is_Some (files (Fixture.world "{}") !! manifest) /\
  files Fixture.fresh_world !! manifest = None /\
  getAssetFilesAsync env "/proj" None = Throw (ConfigError "/proj") /\
  hasUnoptimizedAssetsAsync env "/proj" None (Fixture.world "{}")
    = (Throw (ConfigError "/proj"), Fixture.world "{}") /\
  hasUnoptimizedAssetsAsync env "/proj" None Fixture.fresh_world
    = (Ok true, Fixture.fresh_world).
Proof.
  intros env manifest.
  assert (H1 : readConfigJsonAsync env "/proj" = Throw (ConfigError "/proj")) by reflexivity.
  assert (H2 : is_Some (files (Fixture.world "{}") !! manifest)) by (vm_compute; eauto).
  assert (H3 : files Fixture.fresh_world !! manifest = None) by (vm_compute; reflexivity).
  destruct (config_error_propagates env "/proj" None _ H1) as (Ha & Hb & Hc).
  exact (conj H1 (conj H2 (conj H3 (conj Ha (conj (Hb _ H2) (Hc _ H3)))))).
Defined.



(** X8. The answer [false] is only given with a manifest, and then every
    selected file was read and the loaded record maps its digest to
    [true]. *)
Theorem false_answer_means_all_recorded (env : Env) (projectDir : string)
    (options : option OptimizationOptions) (w w' : World) :
  hasUnoptimizedAssetsAsync env projectDir options w = (Ok false, w') ->
  is_Some (files w !! NodePath.join [projectDir; ".expo-shared/assets.json"]) /\
  exists result loaded,
    getAssetFilesAsync env projectDir options = Ok result /\
    readAssetJsonAsync env projectDir w = (Ok loaded, w') /\
    forall file, file ∈ selectedFiles result ->
      exists h, digestOf env w' file = Ok h /\ snd loaded !! h = Some true.
Proof.
  unfold hasUnoptimizedAssetsAsync. rewrite bind_run. unfold Fs.existsSync.
  case_bool_decide as Hexists; cbn [negb]; [|discriminate].
  rewrite bind_run. unfold async_lift.
  destruct (getAssetFilesAsync env projectDir options) as [result|e]; [|discriminate].
  rewrite bind_run.
  destruct (readAssetJsonAsync env projectDir w) as [[loaded|e] w1]; [|discriminate].
  intros [-> Hall]%scanSelected_false_inv. split; [done|].
  exists result, loaded. auto.
Qed.

Lemma false_answer_means_all_recorded_witness :
  let env := Fixture.env ["a.png"] None in
  let w := Fixture.world "+sha256-of-PNG-A" in
  hasUnoptimizedAssetsAsync env "/proj" None w = (Ok false, w) /\
  is_Some (files w !! NodePath.join ["/proj"; ".expo-shared/assets.json"]) /\
  exists result loaded,
    getAssetFilesAsync env "/proj" None = Ok result /\
    readAssetJsonAsync env "/proj" w = (Ok loaded, w) /\
    forall file, file ∈ selectedFiles result ->
      exists h, digestOf env w file = Ok h /\ snd loaded !! h = Some true.
Proof.
  intros env w.
  assert (H : hasUnoptimizedAssetsAsync env "/proj" None w = (Ok false, w))
    by (vm_compute; reflexivity).
  exact (conj H (false_answer_means_all_recorded env "/proj" None w w H)).
Defined.

Lemma selected_shrinks_under_exclude (env : Env) (projectDir : string)
    (options1 options2 : option OptimizationOptions) (result1 result2 : AssetFiles) :
  options_include options1 = options_include options2 ->
  truthy (options_exclude options1) = false ->
  getAssetFilesAsync env projectDir options1 = Ok result1 ->
  getAssetFilesAsync env projectDir options2 = Ok result2 ->
  selectedFiles result2 `sublist_of` selectedFiles result1.
Proof.
  intros Hinc Hexc
         (exp & matched & files1 & unwanted1 & Hcfg & Hall & Hfiles1 & _ & ->)
           %getAssetFilesAsync_inv
         (exp' & matched' & files2 & unwanted2 & Hcfg' & Hall' & Hfiles2 & _ & ->)
           %getAssetFilesAsync_inv.
  rewrite Hcfg in Hcfg'. injection Hcfg' as <-.
  rewrite Hall in Hall'. injection Hall' as <-.
  assert (Hsame : included env projectDir options1 matched
                  = included env projectDir options2 matched)
    by (unfold included; now rewrite Hinc).
  rewrite Hsame, Hfiles2 in Hfiles1. injection Hfiles1 as <-.
  cbn [selectedFiles]. rewrite (filtered_unset options1) by done.
  apply filterImages_sublist, filtered_sublist.
Qed.

(** X9. Adding an exclude pattern cannot make a clean project dirty: when
    the dirty check answers [false] without an exclude pattern, it answers
    [false] for the same include pattern with any exclude pattern. *)
Theorem exclusion_keeps_clean_projects_clean (env : Env) (projectDir : string)
    (options1 options2 : option OptimizationOptions) (w w' : World) :
  options_include options1 = options_include options2 ->
  truthy (options_exclude options1) = false ->
  hasUnoptimizedAssetsAsync env projectDir options1 w = (Ok false, w') ->
  hasUnoptimizedAssetsAsync env projectDir options2 w = (Ok false, w').
Proof.
  intros Hinc Hexc. unfold hasUnoptimizedAssetsAsync. rewrite !bind_run.
  unfold Fs.existsSync. case_bool_decide as Hexists; cbn [negb]; [|discriminate].
  rewrite !bind_run. unfold async_lift.
  destruct (getAssetFilesAsync env projectDir options1) as [result1|e] eqn:Hfiles1;
    [|discriminate].
  assert (Hcfg : exists result2, getAssetFilesAsync env projectDir options2 = Ok result2).
  { pose proof Hfiles1 as (exp & matched & _ & _ & Hexp & Hall & _)%getAssetFilesAsync_inv.
    destruct (getAssetFilesAsync_returns env projectDir options2 exp matched Hexp Hall)
      as (files2 & unwanted2 & _ & _ & H2).
    eauto. }
  destruct Hcfg as [result2 Hfiles2]. rewrite Hfiles2, !bind_run.
  destruct (readAssetJsonAsync env projectDir w) as [[loaded|e] w1]; [|discriminate].
  intros [-> Hall]%scanSelected_false_inv.
  apply scanSelected_all_recorded. intros file Hin. apply Hall.
  eapply elem_of_sublist; [exact Hin|].
  eapply selected_shrinks_under_exclude; eauto.
Qed.

Lemma exclusion_keeps_clean_projects_clean_witness :
  let env := Fixture.env ["a.png"; "b.png"] None in
  let w := Fixture.world "+sha256-of-PNG-A" in
  let options1 := Fixture.options (Some "a.*") None in
  let options2 := Fixture.options (Some "a.*") (Some "*.png") in
  options_include options1 = options_include options2 /\
  truthy (options_exclude options1) = false /\
  hasUnoptimizedAssetsAsync env "/proj" options1 w = (Ok false, w) /\
  hasUnoptimizedAssetsAsync env "/proj" options2 w = (Ok false, w).
Proof.
  intros env w options1 options2.
  assert (H1 : options_include options1 = options_include options2) by reflexivity.
  assert (H2 : truthy (options_exclude options1) = false) by reflexivity.
  assert (H3 : hasUnoptimizedAssetsAsync env "/proj" options1 w = (Ok false, w))
    by (vm_compute; reflexivity).
  exact (conj H1 (conj H2 (conj H3
           (exclusion_keeps_clean_projects_clean env "/proj" options1 options2 w w
              H1 H2 H3)))).
Defined.

(** X10. With a manifest that parses, an include pattern that matches no
    file makes the dirty check answer [false], whatever else the project
    holds: nothing is selected, so nothing is pending. *)
Theorem unmatched_include_is_clean (env : Env) (projectDir pattern : string)
    (o : OptimizationOptions) (exp : ExpConfig) (w : World) (contents : string)
    (record : AssetOptimizationState) :
  files w !! NodePath.join [projectDir; ".expo-shared/assets.json"] = Some (File contents) ->
  is_Some (files w !! NodePath.join [projectDir; ".expo-shared"]) ->
  json_parse env contents = Some record ->
  readConfigJsonAsync env projectDir = Ok exp ->
  ("" ∉ patternsOf exp) ->
  include o = Some pattern -> pattern <> "" ->
  GlobSync_found env pattern (globOptions projectDir) = [] ->
  hasUnoptimizedAssetsAsync env projectDir (Some o) w = (Ok false, w).
Proof.
  intros Hfile Hdir Hparse Hcfg Hpatterns Hinc Hne Hglob.
  assert (Hfiles : exists all,
             getAssetFilesAsync env projectDir (Some o)
             = Ok {| allFiles := all; selectedFiles := [] |}).
  { destruct (toExclude_returns env projectDir (Some o)) as [unwanted Hexc].
    rewrite (getAssetFilesAsync_run _ _ _ _ _ _ _ Hcfg
               (expandPatterns_ok env projectDir _ Hpatterns)
               (included_set _ _ pattern _ _ Hinc Hne) Hexc).
    eexists. do 2 f_equal. rewrite Hglob.
    unfold filtered. now destruct (truthy _). }
  destruct Hfiles as [all Hfiles].
  now rewrite (hasUnoptimized_loaded _ _ _ _ _ _ _ Hfile Hdir Hparse Hfiles).
Qed.

Lemma unmatched_include_is_clean_witness :
  let env := Fixture.env ["a.png"] None in
  let w := Fixture.world "{}" in
  let o := {| quality := 80; include := Some "*.gif"; exclude := None; save := None |} in
  files w !! NodePath.join ["/proj"; ".expo-shared/assets.json"] = Some (File "{}") /\
  is_Some (files w !! NodePath.join ["/proj"; ".expo-shared"]) /\
  json_parse env "{}" = Some ∅ /\
  readConfigJsonAsync env "/proj" = Ok {| assetBundlePatterns := None |} /\
  ("" ∉ patternsOf {| assetBundlePatterns := None |}) /\
  include o = Some "*.gif" /\ "*.gif" <> "" /\
  GlobSync_found env "*.gif" (globOptions "/proj") = [] /\
  hasUnoptimizedAssetsAsync env "/proj" None w = (Ok true, w) /\
  hasUnoptimizedAssetsAsync env "/proj" (Some o) w = (Ok false, w).
Proof.
  intros env w o.
  assert (H1 : files w !! NodePath.join ["/proj"; ".expo-shared/assets.json"]
               = Some (File "{}")) by (vm_compute; reflexivity).
  assert (H2 : is_Some (files w !! NodePath.join ["/proj"; ".expo-shared"]))
    by (vm_compute; eauto).
  assert (H3 : json_parse env "{}" = Some ∅) by reflexivity.
  assert (H4 : readConfigJsonAsync env "/proj" = Ok {| assetBundlePatterns := None |})
    by reflexivity.
  assert (H5 : include o = Some "*.gif") by reflexivity.
  assert (H6 : "*.gif" <> "") by discriminate.
  assert (H7 : GlobSync_found env "*.gif" (globOptions "/proj") = []) by reflexivity.
  assert (H8 : hasUnoptimizedAssetsAsync env "/proj" None w = (Ok true, w))
    by (vm_compute; reflexivity).
  assert (H9 : "" ∉ patternsOf {| assetBundlePatterns := None |}).
  { intros H%list_elem_of_singleton. discriminate. }
  exact (conj H1 (conj H2 (conj H3 (conj H4 (conj H9 (conj H5 (conj H6 (conj H7 (conj H8
           (unmatched_include_is_clean env "/proj" "*.gif" o _ w "{}" ∅
              H1 H2 H3 H4 H9 H5 H6 H7)))))))))).
Defined.



(** X12. Loading is idempotent: after a load that returned a record, a
    second load returns the same handle and record and leaves the world,
    its log included, as the first one left it. *)
Theorem load_is_idempotent (env : Env) (projectDir : string) (w w' : World)
    (loaded : JsonFile.t * AssetOptimizationState) :
  readAssetJsonAsync env projectDir w = (Ok loaded, w') ->
  readAssetJsonAsync env projectDir w' = (Ok loaded, w').
Proof.
  set (dirPath := NodePath.join [projectDir; ".expo-shared"]).
  set (manifest := NodePath.join [projectDir; ".expo-shared/assets.json"]).
  intros Hrun. rewrite readAssetJsonAsync_run in Hrun. cbv zeta in Hrun.
  fold dirPath manifest in Hrun.
  assert (Hne : manifest <> dirPath) by apply manifest_differs_from_directory.
  assert (Hagain : forall contents,
             files w' !! manifest = Some (File contents) ->
             is_Some (files w' !! dirPath) ->
             parsed_manifest env manifest contents = Ok loaded ->
             readAssetJsonAsync env projectDir w' = (Ok loaded, w')).
  { intros contents Hfile Hdir Hparsed.
    rewrite (readAssetJsonAsync_existing env projectDir w' contents Hfile Hdir).
    fold manifest. unfold parsed_manifest in Hparsed.
    destruct (json_parse env contents); [|discriminate]. now rewrite Hparsed. }
  assert (Hdoc : forall files1 log,
             is_Some (files1 !! dirPath) ->
             load_document env dirPath manifest files1 log = (Ok loaded, w') ->
             readAssetJsonAsync env projectDir w' = (Ok loaded, w')).
  { intros files1 log Hdir. unfold load_document.
    destruct (files1 !! manifest) as [[contents|]|] eqn:E.
    - intros [= Hparsed <-]. now apply (Hagain contents).
    - discriminate.
    - destruct (files1 !! dirPath) as [[data|]|] eqn:E2; [discriminate| |discriminate].
      intros [= Hparsed <-]. apply (Hagain (json_stringify env ∅)); cbn [files].
      + apply lookup_insert_eq.
      + rewrite lookup_insert_ne by done. rewrite E2. eauto.
      + exact Hparsed. }
  destruct (files w !! dirPath) as [node|] eqn:Hdir.
  - apply (Hdoc (files w) (logged w)); [rewrite Hdir; eauto|exact Hrun].
  - destruct (Fs.parentError dirPath w) as [e|]; [discriminate|].
    apply (Hdoc (<[dirPath := Directory]> (files w)) (logged w)); [|exact Hrun].
    rewrite lookup_insert_eq. eauto.
Qed.

Lemma load_is_idempotent_witness :
  let env := Fixture.env ["a.png"] None in
  let manifest := "/proj/.expo-shared/assets.json" in
  let w' := {| files := <[manifest := File "{}"]>
                          (<["/proj/.expo-shared" := Directory]> (files Fixture.fresh_world));
               logged := [creating_message] |} in
  readAssetJsonAsync env "/proj" Fixture.fresh_world
    = (Ok ({| JsonFile.file := manifest |}, ∅), w') /\
  readAssetJsonAsync env "/proj" w' = (Ok ({| JsonFile.file := manifest |}, ∅), w').
Proof.
  intros env manifest w'.
  assert (H : readAssetJsonAsync env "/proj" Fixture.fresh_world
              = (Ok ({| JsonFile.file := manifest |}, ∅), w'))
    by (vm_compute; reflexivity).
  exact (conj H (load_is_idempotent env "/proj" _ _ _ H)).
Defined.

(** X13. The dirty check only reads: in a world where the manifest is
    missing, or its directory exists, the call leaves files and log as
    they were, whatever it answers or throws. *)
Theorem dirty_check_is_read_only (env : Env) (projectDir : string)
    (options : option OptimizationOptions) (w : World) :
  files w !! NodePath.join [projectDir; ".expo-shared/assets.json"] = None
  \/ is_Some (files w !! NodePath.join [projectDir; ".expo-shared"]) ->
  snd (hasUnoptimizedAssetsAsync env projectDir options w) = w.
Proof.
  set (dirPath := NodePath.join [projectDir; ".expo-shared"]).
  set (manifest := NodePath.join [projectDir; ".expo-shared/assets.json"]).
  intros Hwf. destruct (files w !! manifest) as [node|] eqn:Hnode.
  2: { now rewrite hasUnoptimized_without_manifest. }
  destruct Hwf as [|[dirNode Hdir]]; [discriminate|].
  unfold hasUnoptimizedAssetsAsync. fold manifest. rewrite bind_run.
  unfold Fs.existsSync. rewrite Hnode, bool_decide_eq_true_2 by eauto. cbn [negb].
  rewrite bind_run. unfold async_lift.
  destruct (getAssetFilesAsync env projectDir options) as [result|e]; [|reflexivity].
  rewrite bind_run, readAssetJsonAsync_run. cbv zeta. fold dirPath manifest.
  rewrite Hdir. unfold load_document. rewrite Hnode, world_eta.
  destruct node as [contents|]; [|reflexivity].
  destruct (parsed_manifest env manifest contents) as [loaded|e]; [|reflexivity].
  apply scanSelected_world.
Qed.

Lemma dirty_check_is_read_only_witness :
  let env := Fixture.env ["a.png"; "b.png"] None in
  let w := Fixture.world "{}" in
  (files w !! NodePath.join ["/proj"; ".expo-shared/assets.json"] = None
   \/ is_Some (files w !! NodePath.join ["/proj"; ".expo-shared"])) /\
  snd (hasUnoptimizedAssetsAsync env "/proj" None w) = w.
Proof.
  intros env w.
  assert (H : files w !! NodePath.join ["/proj"; ".expo-shared/assets.json"] = None
              \/ is_Some (files w !! NodePath.join ["/proj"; ".expo-shared"]))
    by (right; vm_compute; eauto).
  exact (conj H (dirty_check_is_read_only env "/proj" None w H)).
Defined.

Lemma scanSelected_true_inv (env : Env) (assetInfo : AssetOptimizationState)
    (selected : list string) (w w' : World) :
  scanSelected env assetInfo selected w = (Ok true, w') ->
  exists before file after h,
    selected = before ++ file :: after /\
    (forall earlier, earlier ∈ before ->
       exists h', digestOf env w earlier = Ok h' /\ assetInfo !! h' = Some true) /\
    digestOf env w file = Ok h /\ assetInfo !! h <> Some true.
Proof.
  induction selected as [|g rest IH]; [discriminate|].
  rewrite scanSelected_cons.
  destruct (digestOf env w g) as [h|e] eqn:Hg; [|discriminate].
  destruct (notRecorded assetInfo h) eqn:Hn.
  - intros _. exists [], g, rest, h. repeat split; [|done|now apply notRecorded_true].
    intros earlier Hin. now apply elem_of_nil in Hin.
  - intros (before & file & after & h' & -> & Hbefore & Hfile & Hh)%IH.
    exists (g :: before), file, after, h'. repeat split; [|done|done].
    intros earlier [-> | Hin]%elem_of_cons; [|now apply Hbefore].
    exists h. split; [done|]. now apply notRecorded_false.
Qed.

(** X17. The answer [true] is given either because there is no manifest,
    or because of a selected file whose digest the loaded record does not
    map to [true], every selected file before it being recorded. *)
Theorem true_answer_names_pending_work (env : Env) (projectDir : string)
    (options : option OptimizationOptions) (w w' : World) :
  hasUnoptimizedAssetsAsync env projectDir options w = (Ok true, w') ->
  (files w !! NodePath.join [projectDir; ".expo-shared/assets.json"] = None /\ w' = w) \/
  exists result loaded before file after h,
    getAssetFilesAsync env projectDir options = Ok result /\
    readAssetJsonAsync env projectDir w = (Ok loaded, w') /\
    selectedFiles result = before ++ file :: after /\
    (forall earlier, earlier ∈ before ->
       exists h', digestOf env w' earlier = Ok h' /\ snd loaded !! h' = Some true) /\
    digestOf env w' file = Ok h /\ snd loaded !! h <> Some true.
Proof.
  unfold hasUnoptimizedAssetsAsync. rewrite bind_run. unfold Fs.existsSync.
  case_bool_decide as Hexists; cbn [negb].
  - rewrite bind_run. unfold async_lift.
    destruct (getAssetFilesAsync env projectDir options) as [result|e]; [|discriminate].
    rewrite bind_run.
    destruct (readAssetJsonAsync env projectDir w) as [[loaded|e] w1]; [|discriminate].
    intros Hscan. right.
    pose proof (scanSelected_world env (snd loaded) (selectedFiles result) w1) as Hw.
    rewrite Hscan in Hw. cbn [snd] in Hw. subst w'.
    apply scanSelected_true_inv in Hscan
      as (before & file & after & h & Hsel & Hbefore & Hfile & Hh).
    exists result, loaded, before, file, after, h. repeat split; assumption.
  - intros [= <-]. left. split; [|done].
    destruct (files w !! _) eqn:E; [|done]. destruct Hexists. eauto.
Qed.

Lemma true_answer_names_pending_work_witness :
  let env := Fixture.env ["a.png"; "b.png"] None in
  let w := Fixture.world "{}" in
  hasUnoptimizedAssetsAsync env "/proj" None w = (Ok true, w) /\
  ((files w !! NodePath.join ["/proj"; ".expo-shared/assets.json"] = None /\ w = w) \/
   exists result loaded before file after h,
     getAssetFilesAsync env "/proj" None = Ok result /\
     readAssetJsonAsync env "/proj" w = (Ok loaded, w) /\
     selectedFiles result = before ++ file :: after /\
     (forall earlier, earlier ∈ before ->
        exists h', digestOf env w earlier = Ok h' /\ snd loaded !! h' = Some true) /\
     digestOf env w file = Ok h /\ snd loaded !! h <> Some true).
Proof.
  intros env w.
  assert (H : hasUnoptimizedAssetsAsync env "/proj" None w = (Ok true, w))
    by (vm_compute; reflexivity).
  exact (conj H (true_answer_names_pending_work env "/proj" None w w H)).
Defined.

End StoreMore.

(** ** More on paths, backups and the optimizer *)

Section PathsMore.
Import NodePath.

(** The part of a path [parse] scans when the path is a directory prefix
    followed by a segment: the base name is that segment. *)
Lemma parse_prefixed_scan (prefix : string) (seg : list ascii) :
  prefix = "" \/ endsWithSlash prefix = true ->
  seg <> [] -> Forall (fun x => x <> "/"%char) seg ->
  exists first others t trimmed before,
    list_ascii_of_string (prefix +:+ string_of_list_ascii seg) = first :: others /\
    drop_slashes (rev (if bool_decide (first = "/"%char) then others else first :: others))
      = t :: trimmed /\
    span_until "/" (t :: trimmed) = (rev seg, before).
Proof.
  intros Hprefix Hne Hslash.
  assert (Hrevslash : Forall (fun x => x <> "/"%char) (rev seg)) by now apply Forall_rev.
  assert (Hlast : exists x l, rev seg = x :: l /\ x <> "/"%char).
  { destruct (rev seg) as [|x l] eqn:E.
    - apply (f_equal (@rev ascii)) in E. rewrite rev_involutive in E. now destruct Hne.
    - exists x, l. split; [done|]. now inversion Hrevslash. }
  destruct Hlast as (x & l & Hxl & Hx).
  assert (Hscan : exists first others kept,
             list_ascii_of_string (prefix +:+ string_of_list_ascii seg) = first :: others /\
             (if bool_decide (first = "/"%char) then others else first :: others)
             = kept ++ seg /\
             (kept = [] \/ exists kept', kept = kept' ++ ["/"%char])).
  { rewrite list_of_string_app, list_ascii_of_string_of_list_ascii.
    destruct Hprefix as [-> | [front Hfront]%endsWithSlash_chars].
    - cbn [list_ascii_of_string app].
      destruct seg as [|first others] eqn:E; [done|].
      exists first, others, []. split; [done|]. split; [|by left].
      rewrite bool_decide_eq_false_2; [done|]. now inversion Hslash.
    - rewrite Hfront. destruct front as [|first front]; cbn [app].
      + exists "/"%char, seg, []. rewrite bool_decide_eq_true_2 by done. auto.
      + exists first, ((front ++ ["/"%char]) ++ seg). case_bool_decide.
        * exists (front ++ ["/"%char]). eauto.
        * exists (first :: front ++ ["/"%char]). split; [done|]. split; [done|].
          right. now exists (first :: front). }
  destruct Hscan as (first & others & kept & Hchars & Hscanned & Hkept).
  assert (Hspan : exists before,
             span_until "/" (rev seg ++ rev kept) = (rev seg, before)).
  { destruct Hkept as [-> | [kept' ->]].
    - exists []. cbn [rev]. rewrite app_nil_r. now apply span_until_all.
    - exists ("/"%char :: rev kept'). rewrite rev_app_distr. cbn [rev app].
      now apply span_until_stop. }
  destruct Hspan as [before Hspan].
  exists first, others, x, (l ++ rev kept), before. split; [exact Hchars|]. split.
  - rewrite Hscanned, rev_app_distr, Hxl. cbn [app]. now apply drop_slashes_keep.
  - rewrite <- Hspan, Hxl. reflexivity.
Qed.

Lemma parse_prefixed_base (prefix seg : string) :
  prefix = "" \/ endsWithSlash prefix = true ->
  seg <> "" -> no_slash seg = true ->
  base (parse (prefix +:+ seg)) = seg.
Proof.
  intros Hprefix Hne Hslash.
  destruct (parse_prefixed_scan prefix (list_ascii_of_string seg) Hprefix)
    as (first & others & t & trimmed & before & Hchars & Hdrop & Hspan).
  { intros H%list_of_string_nil. contradiction. }
  { now apply no_slash_chars. }
  rewrite string_of_list_ascii_of_string in Hchars.
  destruct (split_ext (negb (bool_decide (first = "/"%char) && bool_decide (before = [])))
              (rev (list_ascii_of_string seg))) as [n e] eqn:Hsplit.
  destruct (parse_unfold _ _ _ _ _ _ _ _ _ Hchars Hdrop Hspan Hsplit) as (Hb & _ & _).
  now rewrite Hb, rev_involutive, string_of_list_ascii_of_string.
Qed.

(** What [parse] always gives: name and extension make up the base name,
    which holds no separator. *)
Lemma parse_base_facts (path : string) :
  base (parse path) = name (parse path) +:+ ext (parse path) /\
  no_slash (base (parse path)) = true.
Proof.
  unfold parse. destruct (list_ascii_of_string path) as [|first others]; [done|].
  set (scanned := if bool_decide (first = "/"%char) then others else first :: others).
  destruct (drop_slashes (rev scanned)) as [|t trimmed]; [done|].
  destruct (span_until "/" (t :: trimmed)) as [base_rev before] eqn:E.
  apply span_until_spec in E as (_ & Hbase & _).
  destruct (split_ext _ base_rev) as [name_chars ext_chars] eqn:S.
  apply split_ext_spec in S as [Happ _]. cbn [ext base name]. split.
  - now rewrite <- Happ, string_of_list_app.
  - apply no_slash_of_list. now apply Forall_rev.
Qed.

Lemma length_app_str (s t : string) :
  String.length (s +:+ t) = String.length s + String.length t.
Proof. induction s as [|c s IH]; [reflexivity|]. rewrite app_cons. cbn. now rewrite IH. Qed.

(** X14. The backup name never is the path it was derived from, so a
    backup cannot overwrite its original; its base name is the name of the
    original, [".orig"] and the extension, with or without an extension. *)
Theorem backup_differs_from_original (path : string) :
  AssetUtils.createNewFilename path <> path /\
  base (parse (AssetUtils.createNewFilename path))
  = name (parse path) +:+ ".orig" +:+ ext (parse path).
Proof.
  destruct (parse_base_facts path) as [Hbase Hslash]. rewrite Hbase in Hslash.
  pose proof (backup_name_plain _ _ Hslash) as Hplain.
  assert (Hresult : AssetUtils.createNewFilename path
                    = join_prefix (dir (parse path))
                      +:+ name (parse path) +:+ ".orig" +:+ ext (parse path))
    by now apply join_plain_segment.
  assert (Hbackup : base (parse (AssetUtils.createNewFilename path))
                    = name (parse path) +:+ ".orig" +:+ ext (parse path)).
  { rewrite Hresult. destruct Hplain as (Hs & Hne & _).
    apply parse_prefixed_base; [apply join_prefix_shape|done|done]. }
  split; [|exact Hbackup]. intros Hsame. rewrite Hsame, Hbase in Hbackup.
  apply (f_equal String.length) in Hbackup. rewrite !length_app_str in Hbackup.
  cbn in Hbackup. lia.
Qed.

Lemma split_ext_dotted (guard : bool) (name_chars ext_chars : list ascii) :
  name_chars <> [] -> name_chars <> ["."%char] \/ ext_chars <> [] ->
  Forall (fun x => x <> "."%char) ext_chars ->
  split_ext guard (rev (name_chars ++ "."%char :: ext_chars))
  = (name_chars, "."%char :: ext_chars).
Proof.
  intros Hname Hdots Hext. unfold split_ext.
  rewrite rev_app_distr. cbn [rev]. rewrite <- app_assoc. cbn [app].
  rewrite span_until_stop by now apply Forall_rev.
  destruct (rev name_chars) as [|c name_rev] eqn:E.
  - apply (f_equal (@rev ascii)) in E. rewrite rev_involutive in E. now destruct Hname.
  - assert (Hoff : bool_decide (c :: name_rev = ["."%char])
                   && bool_decide (rev ext_chars = []) = false).
    { apply andb_false_iff. destruct Hdots as [Hn | He].
      - left. apply bool_decide_eq_false. intros H. rewrite H in E.
        apply (f_equal (@rev ascii)) in E. rewrite rev_involutive in E. now destruct Hn.
      - right. apply bool_decide_eq_false. intros H.
        apply (f_equal (@rev ascii)) in H. rewrite rev_involutive in H. now destruct He. }
    rewrite <- andb_assoc, Hoff, andb_false_r.
    now rewrite <- E, !rev_involutive.
Qed.

Lemma parse_prefixed_ext (prefix : string) (name_chars ext_chars : list ascii) :
  prefix = "" \/ endsWithSlash prefix = true ->
  name_chars <> [] -> name_chars <> ["."%char] \/ ext_chars <> [] ->
  Forall (fun x => x <> "/"%char) (name_chars ++ "."%char :: ext_chars) ->
  Forall (fun x => x <> "."%char) ext_chars ->
  let parsed := parse (prefix +:+ string_of_list_ascii (name_chars ++ "."%char :: ext_chars)) in
  name parsed = string_of_list_ascii name_chars /\
  ext parsed = string_of_list_ascii ("."%char :: ext_chars).
Proof.
  intros Hprefix Hname Hdots Hslash Hext parsed.
  destruct (parse_prefixed_scan prefix (name_chars ++ "."%char :: ext_chars) Hprefix)
    as (first & others & t & trimmed & before & Hchars & Hdrop & Hspan);
    [now destruct name_chars|done|].
  destruct (parse_unfold _ _ _ _ _ _ _ _ _ Hchars Hdrop Hspan
              (split_ext_dotted _ _ _ Hname Hdots Hext)) as (_ & Hn & He).
  now split.
Qed.

(** X15. A path whose base name has no extension gets [".orig"]
    appended: the result is the directory part as [path.join] writes it,
    then the base name and [".orig"], and it parses to the same name with
    the extension [".orig"]. *)
Theorem extensionless_gets_orig_appended (path : string) :
  ext (parse path) = "" -> name (parse path) <> "" ->
  exists prefix,
    AssetUtils.createNewFilename path = prefix +:+ base (parse path) +:+ ".orig" /\
    (prefix = "" \/ endsWithSlash prefix = true) /\
    (forall seg, plain_segment seg -> join [dir (parse path); seg] = prefix +:+ seg) /\
    name (parse (AssetUtils.createNewFilename path)) = name (parse path) /\
    ext (parse (AssetUtils.createNewFilename path)) = ".orig".
Proof.
  intros Hext Hname. destruct (parse_base_facts path) as [Hbase Hslash].
  rewrite Hext, app_empty_r in Hbase. rewrite Hbase in *.
  assert (Hplain : plain_segment (name (parse path) +:+ ".orig" +:+ "")).
  { apply backup_name_plain. now rewrite app_empty_r. }
  assert (Hresult : AssetUtils.createNewFilename path
                    = join_prefix (dir (parse path)) +:+ name (parse path) +:+ ".orig").
  { unfold AssetUtils.createNewFilename. rewrite Hext.
    now rewrite join_plain_segment. }
  exists (join_prefix (dir (parse path))).
  split; [exact Hresult|]. split; [apply join_prefix_shape|].
  split; [intros seg Hseg; now apply join_plain_segment|].
  set (name_chars := list_ascii_of_string (name (parse path))).
  set (orig := list_ascii_of_string "orig").
  assert (Hchars : name (parse path) +:+ ".orig"
                   = string_of_list_ascii (name_chars ++ "."%char :: orig)).
  { unfold name_chars, orig.
    now rewrite string_of_list_app, string_of_list_ascii_of_string. }
  rewrite Hresult, Hchars.
  destruct (parse_prefixed_ext (join_prefix (dir (parse path))) name_chars orig)
    as [Hn He].
  - apply join_prefix_shape.
  - intros H%list_of_string_nil. contradiction.
  - now right.
  - apply Forall_app. split; [now apply no_slash_chars|].
    unfold orig. cbn. repeat constructor; discriminate.
  - unfold orig. cbn. repeat constructor; discriminate.
  - rewrite Hn, He. unfold name_chars. now rewrite string_of_list_ascii_of_string.
Qed.

Lemma extensionless_gets_orig_appended_witness :
  let path := "docs/./LICENSE" in
  ext (parse path) = "" /\ name (parse path) <> "" /\
  AssetUtils.createNewFilename path = "docs/LICENSE.orig" /\
  exists prefix,
    AssetUtils.createNewFilename path = prefix +:+ base (parse path) +:+ ".orig" /\
    (prefix = "" \/ endsWithSlash prefix = true) /\
    (forall seg, plain_segment seg -> join [dir (parse path); seg] = prefix +:+ seg) /\
    name (parse (AssetUtils.createNewFilename path)) = name (parse path) /\
    ext (parse (AssetUtils.createNewFilename path)) = ".orig".
Proof.
  intros path.
  assert (H1 : ext (parse path) = "") by reflexivity.
  assert (H2 : name (parse path) <> "") by discriminate.
  assert (H3 : AssetUtils.createNewFilename path = "docs/LICENSE.orig") by reflexivity.
  exact (conj H1 (conj H2 (conj H3 (extensionless_gets_orig_appended path H1 H2)))).
Defined.

(** X16. When the optimizer returns, the path it returns is the base
    name of the input joined to the directory that [temporary.directory]
    gave and that [sharpAsync] was told to write into, after the notice
    was logged; for an input with a plain base name the returned path has
    that base name. *)
Theorem optimized_file_keeps_its_name (tools : ImageOptimizer.ImageTools)
    (inputPath : string) (quality : Z) (w w' : World) (returned : string) :
  ImageOptimizer.optimizeImageAsync tools inputPath quality w = (Ok returned, w') ->
  exists outputPath w1,
    ImageOptimizer.temporary_directory tools
      {| files := files w; logged := logged w ++ ["Optimizing " +:+ inputPath] |}
      = (Ok outputPath, w1) /\
    ImageOptimizer.sharpAsync tools
      {| ImageOptimizer.input := inputPath; ImageOptimizer.output := outputPath;
         ImageOptimizer.quality := quality |} w1
      = (Ok tt, w') /\
    returned = join [outputPath; basename inputPath] /\
    (plain_segment (basename inputPath) ->
     returned = join_prefix outputPath +:+ basename inputPath /\
     base (parse returned) = basename inputPath).
Proof.
  unfold ImageOptimizer.optimizeImageAsync. rewrite bind_run.
  unfold logger_info at 1. rewrite bind_run.
  destruct (ImageOptimizer.temporary_directory tools _) as [[outputPath|e] w1] eqn:Htmp;
    [|discriminate].
  rewrite bind_run.
  destruct (ImageOptimizer.sharpAsync tools _ w1) as [[[]|e] w2] eqn:Hsharp; [|discriminate].
  rewrite ret_run. intros [= <- <-].
  exists outputPath, w1. split; [reflexivity|]. split; [exact Hsharp|]. split; [done|].
  intros Hplain. rewrite join_plain_segment by done. split; [done|].
  destruct Hplain as (Hslash & Hne & _).
  apply parse_prefixed_base; [apply join_prefix_shape|done|done].
Qed.

Lemma optimized_file_keeps_its_name_witness :
  let tools := noting_tools "/tmp/out/" in
  let w := Fixture.fresh_world in
  let w' := {| files := files w;
               logged := ["Optimizing assets/a.png"; "sharp assets/a.png"] |} in
  ImageOptimizer.optimizeImageAsync tools "assets/a.png" 80 w = (Ok "/tmp/out/a.png", w') /\
  exists outputPath w1,
    ImageOptimizer.temporary_directory tools
      {| files := files w; logged := logged w ++ ["Optimizing " +:+ "assets/a.png"] |}
      = (Ok outputPath, w1) /\
    ImageOptimizer.sharpAsync tools
      {| ImageOptimizer.input := "assets/a.png"; ImageOptimizer.output := outputPath;
         ImageOptimizer.quality := 80 |} w1
      = (Ok tt, w') /\
    "/tmp/out/a.png" = join [outputPath; basename "assets/a.png"] /\
    (plain_segment (basename "assets/a.png") ->
     "/tmp/out/a.png" = join_prefix outputPath +:+ basename "assets/a.png" /\
     base (parse "/tmp/out/a.png") = basename "assets/a.png").
Proof.
  intros tools w w'.
  assert (H : ImageOptimizer.optimizeImageAsync tools "assets/a.png" 80 w
              = (Ok "/tmp/out/a.png", w')) by reflexivity.
  exact (conj H (optimized_file_keeps_its_name tools "assets/a.png" 80 w w' _ H)).
Defined.

End PathsMore.
